(** * dune-geometry: generic topologies, numbering conversion and reference elements

    A shallow embedding of the generic-geometry core of dune-geometry:

    - [dune/geometry/genericgeometry/conversion.hh]: [DuneGeometryTypeProvider],
      the [MapNumbering] tables, [MapNumberingProvider] and [Convert];
    - [dune/geometry/genericreferenceelements.hh]: [GenericReferenceElement],
      its sub-entity tables, barycenters, mapping table, destructor, and the
      [GenericReferenceElementContainer] behind [GenericReferenceElements];
    - [dune/geometry/genericgeometry/traceprovider.hh]: [TraceProvider];
    - [dune/geometry/refinement/base.cc]: [RefinementIntervals] and the
      overloads of [StaticRefinement].

    The [unsigned int]s of conversion.hh and of the container are [N] with
    the 32-bit wrap-around written out; template arguments, and the indices
    and sizes of the reference element, are naturals.  C++ arrays and
    [std::vector]s are lists read with stdpp's lookup, and an access the C++
    standard leaves undefined (a failed [assert], a read past the end of a
    vector) is [None]. *)

From Stdlib Require Import NArith ZArith QArith Lia List.
From stdpp Require Import base option list numbers strings gmap.

Local Open Scope N_scope.

(** ** Machine integers *)

Module UInt.

Definition modulus : N := 2 ^ 32.

Definition wrap (n : N) : N := n mod modulus.

(** [a - b] on [unsigned int]. *)
Definition sub (a b : N) : N := wrap (a + modulus - wrap b).

(** [a << s] on [unsigned int]. *)
Definition shl (a : N) (s : N) : N := wrap (N.shiftl a s).

End UInt.

(** ** dune-common's [ForLoop]

    [ForLoop< Operation, first, last >::apply( args )] of dune-common calls
    [Operation< first >::apply( args )], ..., [Operation< last >::apply( args )]
    in ascending order on the same arguments; below, a range with
    [last < first] applies nothing. *)

Definition ForLoop {S : Type} (Operation : nat -> S -> S)
    (first last : nat) (s : S) : S :=
  foldl (fun acc i => Operation i acc) s (seq first (Datatypes.S last - first)).

Definition ForLoopM {S : Type} (Operation : nat -> S -> option S)
    (first last : nat) (s : S) : option S :=
  foldl (fun acc i => acc ≫= Operation i) (Some s)
        (seq first (Datatypes.S last - first)).

(** ** Topologies *)

Module Topology.

(** [Point], [Prism< Base >] and [Pyramid< Base >] as used by the
    specialisations of [MapNumbering] and by [Convert]. *)
Inductive t : Type :=
  | Point
  | Prism (base : t)
  | Pyramid (base : t).

Fixpoint dimension (T : t) : nat :=
  match T with
  | Point => 0
  | Prism B | Pyramid B => S (dimension B)
  end.

(** Modelled from the spec: topologytypes.hh is not part of the sources.
    "bit k of the id selects prism-vs-pyramid at recursion level k"; the bit
    is set for a prism, as [DuneGeometryTypeProvider] stores the cube at the
    all-ones index. *)
Fixpoint id (T : t) : N :=
  match T with
  | Point => 0
  | Prism B => id B + 2 ^ N.of_nat (dimension B)
  | Pyramid B => id B
  end.

(** Modelled from the spec: [Topology< id, dim >::type] of topologytypes.hh,
    the shape whose level-k construction is read from bit k of the id. *)
Fixpoint of_id (topologyId : N) (dim : nat) : t :=
  match dim with
  | O => Point
  | S d =>
      if N.testbit topologyId (N.of_nat d)
      then Prism (of_id topologyId d)
      else Pyramid (of_id topologyId d)
  end.

(** Modelled from the spec: [Size< Topology, codim >::value] of
    subtopologies.hh.  "Prism(B): size_B(c) + 2 size_B(c-1); Pyramid(B):
    size_B(c) + size_B(c-1); size(0) = 1", where at the deepest codimension
    the term size_B(c), which has no subentity of B behind it, counts 0 for a
    prism and 1 (the apex) for a pyramid. *)
Fixpoint Size (T : t) (codim : nat) : nat :=
  match T with
  | Point => match codim with O => 1 | _ => 0 end
  | Prism B =>
      match codim with
      | O => 1
      | S c' =>
          if Nat.eqb codim (dimension T)
          then 2 * Size B c'
          else Size B codim + 2 * Size B c'
      end
  | Pyramid B =>
      match codim with
      | O => 1
      | S c' =>
          if Nat.eqb codim (dimension T)
          then Size B c' + 1
          else Size B codim + Size B c'
      end
  end%nat.

(** Modelled from the spec: the number of corners of the reference domain,
    "Prism(B) corners = {(c,0)} ∪ {(c,1)}; Pyramid(B) corners = {(c,0)} ∪
    {apex}". *)
Fixpoint numCorners (T : t) : nat :=
  match T with
  | Point => 1
  | Prism B => 2 * numCorners B
  | Pyramid B => numCorners B + 1
  end%nat.

End Topology.

(** ** conversion.hh *)

Module Conversion.

(** [GeometryType::BasicType]. *)
Inductive BasicType : Type := simplex | cube | pyramid | prism | none.

(** Modelled from the spec: [GeometryType] of dune/geometry/type.hh is not
    part of the sources.  "ShapeDescriptor: runtime tuple (basicKind ∈
    {simplex, cube, prism, pyramid, none}, dimension)"; the constructor
    [GeometryType( basicType, dim )] is [mkGeometryType]. *)
Record GeometryType : Type := mkGeometryType
  { basicType : BasicType;
    dim : N }.

(** Modelled from the spec: a default-constructed descriptor.  Every entry
    of [types_] is written before it is read, so no result shows it. *)
Definition GeometryType_default : GeometryType := mkGeometryType none 0.

(** Modelled from the spec: the mutators [makeNone( dim )],
    [makeSimplex( dim )] and [makeCube( dim )] turn the descriptor into the
    named kind of that dimension. *)
Definition makeNone (d : N) (g : GeometryType) : GeometryType :=
  mkGeometryType none d.
Definition makeSimplex (d : N) (g : GeometryType) : GeometryType :=
  mkGeometryType simplex d.
Definition makeCube (d : N) (g : GeometryType) : GeometryType :=
  mkGeometryType cube d.

#[global] Instance BasicType_eq_dec : EqDecision BasicType.
Proof. solve_decision. Defined.

#[global] Instance GeometryType_eq_dec : EqDecision GeometryType.
Proof. solve_decision. Defined.

(** *** DuneGeometryTypeProvider *)

Module DuneGeometryTypeProvider.

Section Provider.
(** The template parameters [unsigned int dim] and
    [GeometryType::BasicType linetype]. *)
Variable dim : nat.
Variable linetype : BasicType.

Definition dimension : N := N.of_nat dim.

Definition numTopologies : N := UInt.shl 1 dimension.

(** The extent of the member array [types_]. *)
Definition types_extent : N :=
  if 1 <=? dimension then numTopologies / 2 else numTopologies.

(** The constructor: the array starts default-constructed and is then
    written in the order of the statements. *)
Definition constructor : list GeometryType :=
  let types0 := replicate (N.to_nat types_extent) GeometryType_default in
  let types1 :=
    if 3 <? dimension
    then foldl (fun ts i => alter (makeNone dimension) i ts) types0
               (seq 0 (N.to_nat (numTopologies / 2)))
    else types0 in
  if 3 <=? dimension then
    let d := if 2 <=? dimension then UInt.sub dimension 2 else 0 in
    let types2 := alter (makeSimplex dimension) 0%nat types1 in
    let types3 :=
      <[N.to_nat (UInt.shl 1 d) := mkGeometryType prism dimension]> types2 in
    let types4 :=
      <[N.to_nat (UInt.sub (UInt.shl 1 d) 1)
        := mkGeometryType pyramid dimension]> types3 in
    alter (makeCube dimension)
          (N.to_nat (UInt.sub (UInt.shl 1 (d + 1)) 1)) types4
  else if dimension =? 2 then
    let types2 := alter (makeSimplex dimension) 0%nat types1 in
    alter (makeCube dimension) 1%nat types2
  else
    <[0%nat := mkGeometryType linetype dimension]> types1.

(** [instance()] returns the function-local static built by the
    constructor. *)
Definition instance : list GeometryType := constructor.

(** [type( topologyId )]; the assertion guards the array read. *)
Definition type (topologyId : N) : option GeometryType :=
  if topologyId <? numTopologies
  then instance !! N.to_nat (topologyId / 2)
  else None.
End Provider.

End DuneGeometryTypeProvider.

(** *** MapNumbering *)

(** A static table [static unsigned int t[ n ] = { ... }] read at [i]. *)
Definition table (t : list N) (i : N) : option N := t !! N.to_nat i.

(** The two member templates of a [MapNumbering] specialisation, the
    template argument [codim] first. *)
Record MapNumberingT : Type := mkMapNumbering
  { dune2generic : nat -> N -> option N;
    generic2dune : nat -> N -> option N }.

Definition MapNumberingIdentical : MapNumberingT :=
  {| dune2generic := fun codim i => Some i;
     generic2dune := fun codim i => Some i |}.

Definition MapNumberingTriangle : MapNumberingT :=
  let d2g := fun (codim : nat) i =>
    Some (if Nat.eqb codim 1 then UInt.sub 2 i else i) in
  {| dune2generic := d2g; generic2dune := d2g |}.

Definition MapNumberingTetrahedron : MapNumberingT :=
  let edge := [0; 2; 1; 3; 4; 5] in
  let d2g := fun (codim : nat) i =>
    if Nat.eqb codim 1 then Some (UInt.sub 3 i)
    else if Nat.eqb codim 2 then table edge i
    else Some i in
  {| dune2generic := d2g; generic2dune := d2g |}.

Definition MapNumberingCube : MapNumberingT :=
  let edge := [0; 1; 2; 3; 4; 5; 8; 9; 6; 7; 10; 11] in
  let d2g := fun (codim : nat) i =>
    if Nat.eqb codim 2 then table edge i else Some i in
  {| dune2generic := d2g; generic2dune := d2g |}.

Definition MapNumbering4DCube : MapNumberingT :=
  {| dune2generic := fun codim i =>
       let codim2 :=
         [0; 1; 2; 3; 4; 5; 8; 9; 12; 13; 18; 19;
          6; 7; 10; 11; 14; 15; 20; 21; 16; 17; 22; 23] in
       let codim3 :=
         [0; 1; 2; 3; 4; 5; 6; 7; 8; 9; 10; 11; 20; 21; 22; 23;
          12; 13; 16; 17; 24; 25; 28; 29; 14; 15; 18; 19; 26; 27; 30; 31] in
       if Nat.eqb codim 2 then table codim2 i
       else if Nat.eqb codim 3 then table codim3 i
       else Some i;
     generic2dune := fun codim i =>
       let codim2 :=
         [0; 1; 2; 3; 4; 5; 12; 13; 6; 7; 14; 15;
          8; 9; 16; 17; 20; 21; 10; 11; 18; 19; 22; 23] in
       let codim3 :=
         [0; 1; 2; 3; 4; 5; 6; 7; 8; 9; 10; 11; 16; 17; 24; 25;
          18; 19; 26; 27; 12; 13; 14; 15; 20; 21; 28; 29; 22; 23; 30; 31] in
       if Nat.eqb codim 2 then table codim2 i
       else if Nat.eqb codim 3 then table codim3 i
       else Some i |}.

Definition MapNumberingPyramid : MapNumberingT :=
  {| dune2generic := fun codim i =>
       let vertex := [0; 1; 3; 2; 4] in
       let edge := [2; 1; 3; 0; 4; 5; 7; 6] in
       let face := [0; 3; 2; 4; 1] in
       if Nat.eqb codim 3 then table vertex i
       else if Nat.eqb codim 2 then table edge i
       else if Nat.eqb codim 1 then table face i
       else Some i;
     generic2dune := fun codim i =>
       let vertex := [0; 1; 3; 2; 4] in
       let edge := [3; 1; 0; 2; 4; 5; 7; 6] in
       let face := [0; 4; 2; 1; 3] in
       if Nat.eqb codim 3 then table vertex i
       else if Nat.eqb codim 2 then table edge i
       else if Nat.eqb codim 1 then table face i
       else Some i |}.

Definition MapNumberingPrism : MapNumberingT :=
  {| dune2generic := fun codim i =>
       let edge := [3; 5; 4; 0; 1; 2; 6; 8; 7] in
       let face := [3; 0; 2; 1; 4] in
       if Nat.eqb codim 2 then table edge i
       else if Nat.eqb codim 1 then table face i
       else Some i;
     generic2dune := fun codim i =>
       let edge := [3; 4; 5; 0; 2; 1; 6; 8; 7] in
       let face := [1; 3; 2; 0; 4] in
       if Nat.eqb codim 2 then table edge i
       else if Nat.eqb codim 1 then table face i
       else Some i |}.

(** [template< class Topology > struct MapNumbering;] is declared for every
    topology and defined by the explicit specialisations only: a topology
    without one has no numbering ([None]). *)
Definition MapNumbering (T : Topology.t) : option MapNumberingT :=
  match T with
  | Topology.Point => Some MapNumberingIdentical
  | Topology.Prism Topology.Point
  | Topology.Pyramid Topology.Point => Some MapNumberingIdentical
  | Topology.Pyramid (Topology.Pyramid Topology.Point)
  | Topology.Pyramid (Topology.Prism Topology.Point) =>
      Some MapNumberingTriangle
  | Topology.Prism (Topology.Pyramid Topology.Point)
  | Topology.Prism (Topology.Prism Topology.Point) =>
      Some MapNumberingIdentical
  | Topology.Pyramid (Topology.Pyramid (Topology.Pyramid Topology.Point))
  | Topology.Pyramid (Topology.Pyramid (Topology.Prism Topology.Point)) =>
      Some MapNumberingTetrahedron
  | Topology.Prism (Topology.Prism (Topology.Pyramid Topology.Point))
  | Topology.Prism (Topology.Prism (Topology.Prism Topology.Point)) =>
      Some MapNumberingCube
  | Topology.Prism (Topology.Prism (Topology.Prism
      (Topology.Pyramid Topology.Point)))
  | Topology.Prism (Topology.Prism (Topology.Prism
      (Topology.Prism Topology.Point))) =>
      Some MapNumbering4DCube
  | Topology.Pyramid (Topology.Prism (Topology.Pyramid Topology.Point))
  | Topology.Pyramid (Topology.Prism (Topology.Prism Topology.Point)) =>
      Some MapNumberingPyramid
  | Topology.Prism (Topology.Pyramid (Topology.Pyramid Topology.Point))
  | Topology.Prism (Topology.Pyramid (Topology.Prism Topology.Point)) =>
      Some MapNumberingPrism
  | _ => None
  end.

(** *** MapNumberingProvider *)

Module MapNumberingProvider.

(** [typedef std::vector< unsigned int > Map]. *)
Definition Map : Type := list N.

(** The members [dune2generic_] and [generic2dune_], each
    [Map [ numTopologies ][ dimension+1 ]]. *)
Definition Tables : Type := (list (list Map) * list (list Map))%type.

(** [v.resize( size ); for( j = 0; j < size; ++j ) v[ j ] = f( j );] *)
Definition fill (size : nat) (f : N -> option N) : option Map :=
  mapM (fun j => f (N.of_nat j)) (seq 0 size).

Section Provider.
Variable dim : nat.

Definition dimension : N := N.of_nat dim.
Definition numTopologies : N := UInt.shl 1 dimension.

(** [Builder< i >::Codim< codim >::apply]. *)
Definition Codim_apply (T : Topology.t) (M : MapNumberingT) (codim : nat)
    (rows : list Map * list Map) : option (list Map * list Map) :=
  let size := Topology.Size T codim in
  d2g ← fill size (dune2generic M codim);
  g2d ← fill size (generic2dune M codim);
  Some (<[codim := d2g]> (rows.1), <[codim := g2d]> (rows.2)).

(** [Builder< topologyId >::apply]: needs the complete type
    [MapNumbering< Topology >]. *)
Definition Builder_apply (topologyId : nat) (tabs : Tables) : option Tables :=
  let T := Topology.of_id (N.of_nat topologyId) dim in
  M ← MapNumbering T;
  row_d2g ← tabs.1 !! topologyId;
  row_g2d ← tabs.2 !! topologyId;
  rows ← ForLoopM (Codim_apply T M) 0 dim (row_d2g, row_g2d);
  Some (<[topologyId := rows.1]> (tabs.1), <[topologyId := rows.2]> (tabs.2)).

(** The constructor, [ForLoop< Builder, 0, (1 << dim)-1 >::apply]; the
    provider exists only if every [Builder< i >] can be instantiated. *)
Definition constructor : option Tables :=
  let empty :=
    replicate (N.to_nat numTopologies) (replicate (S dim) ([] : Map)) in
  ForLoopM Builder_apply 0 (N.to_nat (UInt.sub (UInt.shl 1 dimension) 1))
           (empty, empty).

Definition instance : option Tables := constructor.

Definition dune2generic (topologyId i codim : N) : option N :=
  inst ← instance;
  if (topologyId <? numTopologies) && (codim <=? dimension) then
    v ← (inst.1 !! N.to_nat topologyId) ≫= (.!! N.to_nat codim);
    if i <? N.of_nat (length v) then v !! N.to_nat i else None
  else None.

Definition generic2dune (topologyId i codim : N) : option N :=
  inst ← instance;
  if (topologyId <? numTopologies) && (codim <=? dimension) then
    size ← length <$> ((inst.1 !! N.to_nat topologyId) ≫= (.!! N.to_nat codim));
    v ← (inst.2 !! N.to_nat topologyId) ≫= (.!! N.to_nat codim);
    if i <? N.of_nat size then v !! N.to_nat i else None
  else None.
End Provider.

End MapNumberingProvider.

(** *** Convert *)

(** [Convert< type, dim >::type]; [prism] and [pyramid] recurse into
    [dim-1] and have no base case, [none] has no specialisation. *)
Fixpoint Convert_simplex (dim : nat) : Topology.t :=
  match dim with
  | O => Topology.Point
  | S d => Topology.Pyramid (Convert_simplex d)
  end.

Fixpoint Convert_cube (dim : nat) : Topology.t :=
  match dim with
  | O => Topology.Point
  | S d => Topology.Prism (Convert_cube d)
  end.

Definition Convert (type : BasicType) (dim : nat) : option Topology.t :=
  match type, dim with
  | simplex, _ => Some (Convert_simplex dim)
  | cube, _ => Some (Convert_cube dim)
  | prism, S d => Some (Topology.Prism (Convert_simplex d))
  | pyramid, S d => Some (Topology.Pyramid (Convert_cube d))
  | _, _ => None
  end.

(** [Convert< type, dim >::map< codim >( i )]:
    [MapNumbering< type >::template dune2generic< codim >( i )]. *)
Definition Convert_map (type : BasicType) (dim codim : nat) (i : N)
    : option N :=
  T ← Convert type dim;
  M ← MapNumbering T;
  dune2generic M codim i.

(** *** DuneGeometryType *)

(** The static assertions of [DuneGeometryType] accept these two kinds, for
    [linetype] and for the base's [basicType]. *)
Definition simplex_or_cube (b : BasicType) : bool :=
  match b with
  | simplex | cube => true
  | _ => false
  end.

(** [DuneGeometryType< Topology, linetype >::basicType]; a topology for
    which a static assertion fails has none. *)
Fixpoint DuneGeometryType_basicType (T : Topology.t) (linetype : BasicType)
    : option BasicType :=
  if simplex_or_cube linetype then
    match T with
    | Topology.Point => Some linetype
    | Topology.Prism B =>
        base ← DuneGeometryType_basicType B linetype;
        if simplex_or_cube base then
          let dimension := S (Topology.dimension B) in
          Some (if Nat.eqb dimension 1 then linetype
                else if Nat.eqb dimension 2
                        || bool_decide (base = cube)
                     then cube
                     else prism)
        else None
    | Topology.Pyramid B =>
        base ← DuneGeometryType_basicType B linetype;
        if simplex_or_cube base then
          let dimension := S (Topology.dimension B) in
          Some (if Nat.eqb dimension 1 then linetype
                else if Nat.eqb dimension 2
                        || bool_decide (base = simplex)
                     then simplex
                     else pyramid)
        else None
    end
  else None.

(** [DuneGeometryType< Topology, linetype >::type()]:
    [GeometryType( basicType, dimension )]. *)
Definition DuneGeometryType_type (T : Topology.t) (linetype : BasicType)
    : option GeometryType :=
  b ← DuneGeometryType_basicType T linetype;
  Some (mkGeometryType b (N.of_nat (Topology.dimension T))).

(** Modelled from the spec: [GeometryType::dim()] is the second component,
    and [GeometryType::id()] the id of the topology the descriptor converts
    to (0 where [Convert] has none). *)
Definition GeometryType_dim (g : GeometryType) : N := dim g.

Definition GeometryType_id (g : GeometryType) : N :=
  default 0 (Topology.id <$> Convert (basicType g) (N.to_nat (dim g))).

End Conversion.

(** ** Function-local statics

    [static T inst; return inst;] inside a function: the object is
    constructed when control first passes through the declaration and the
    same object is returned by every later call.  The counter records how
    often the constructor has run. *)

Module Static.

Record cell (A : Type) : Type := mkCell
  { object : option A;
    constructions : nat }.
Arguments mkCell {A} _ _.
Arguments object {A} _.
Arguments constructions {A} _.

Definition fresh {A : Type} : cell A := mkCell None 0%nat.

Definition get {A : Type} (constructor : A) (s : cell A) : A * cell A :=
  match object s with
  | Some inst => (inst, s)
  | None => (constructor, mkCell (Some constructor) (S (constructions s)))
  end.

(** The same for a constructor that acts on a state [S] and may have no
    defined result: the first pass through the declaration runs it, every
    later pass leaves the state alone. *)
Definition construct_once {A S : Type} (constructor : S -> option (A * S))
    (s : cell A) (st : S) : option (A * cell A * S) :=
  match object s with
  | Some inst => Some (inst, s, st)
  | None =>
      '(inst, st') ← constructor st;
      Some (inst, mkCell (Some inst) (Datatypes.S (constructions s)), st')
  end.

(** The states a static of constructor [constructor] can be in. *)
Definition valid {A : Type} (constructor : A) (s : cell A) : Prop :=
  s = fresh \/ s = mkCell (Some constructor) 1%nat.

End Static.

(** ** Objects placed in caller-supplied storage *)

Definition ptr : Type := nat.

(** ** traceprovider.hh *)

Module TraceProvider.

(** The concrete trace types: [CachedMapping< SubTopology, GeometryTraits >]
    and [VirtualMapping< SubTopology, GeometryTraits >], each constructed
    from the value of [mapping.template trace< codim, i >()]. *)
Inductive TraceImpl (SubCoords : Type) : Type :=
  | CachedMapping (SubTopology : Topology.t) (coords : SubCoords)
  | VirtualMapping (SubTopology : Topology.t) (coords : SubCoords).
Arguments CachedMapping {SubCoords} _ _.
Arguments VirtualMapping {SubCoords} _ _.

(** What lives in the storage buffers, by address. *)
Definition Storage (SubCoords : Type) : Type := gmap ptr (TraceImpl SubCoords).

Section Provider.
(** The template parameters [Topology], [codim], [forceHybrid]. *)
Variable Topology : Topology.t.
Variable codim : nat.
Variable forceHybrid : bool.

(** Declarations of subtopologies.hh and cachedmapping.hh the provider
    uses: [IsCodimHybrid< Topology, codim >::value],
    [SubTopology< Topology, codim, i >::type], the extent
    [Mapping::ReferenceElement::Codim< codim >::size], the type [Mapping]
    and its member template [trace< codim, i >()]. *)
Variable IsCodimHybrid : Topology.t -> nat -> bool.
Variable SubTopology : Topology.t -> nat -> nat -> Topology.t.
Variable numSubTopologies : nat.
Variable Mapping : Type.
Variable SubCoords : Type.
Variable Mapping_trace : Mapping -> nat -> nat -> SubCoords.

Definition hybrid : bool := forceHybrid || IsCodimHybrid Topology codim.

(** The function pointer type [Construct], taking
    [( const Mapping &mapping, char *traceStorage )] to a [Trace*]: the
    returned pointer and the storage after the placement new. *)
Definition Construct : Type :=
  Mapping -> ptr -> Storage SubCoords -> ptr * Storage SubCoords.

(** [HybridFactory::construct< i >]:
    [new( traceStorage ) VirtualMapping< SubTopology< Topology, codim, i > >
       ( mapping.template trace< codim, i >() )]. *)
Definition HybridFactory_construct (i : nat) : Construct :=
  fun mapping traceStorage mem =>
    (traceStorage,
     <[traceStorage := VirtualMapping (SubTopology Topology codim i)
                         (Mapping_trace mapping codim i)]> mem).

(** [NonHybridFactory::construct< i >]:
    [new( traceStorage ) CachedMapping< SubTopology< Topology, codim, 0 > >
       ( mapping.template trace< codim, i >() )]. *)
Definition NonHybridFactory_construct (i : nat) : Construct :=
  fun mapping traceStorage mem =>
    (traceStorage,
     <[traceStorage := CachedMapping (SubTopology Topology codim 0)
                         (Mapping_trace mapping codim i)]> mem).

(** [SelectType< hybrid, HybridFactory<true>, NonHybridFactory<false> >]. *)
Definition Factory_construct (i : nat) : Construct :=
  if hybrid then HybridFactory_construct i else NonHybridFactory_construct i.

(** [Builder< i >::apply]: [construct[ i ] = &(Factory::template construct< i >)]. *)
Definition Builder_apply (i : nat) (construct : list (option Construct))
    : list (option Construct) :=
  <[i := Some (Factory_construct i)]> construct.

(** The constructor: the member array [construct_[ numSubTopologies ]]
    starts uninitialised and is filled by
    [ForLoop< Builder, 0, numSubTopologies-1 >]. *)
Definition constructor : list (option Construct) :=
  ForLoop Builder_apply 0 (numSubTopologies - 1)
          (replicate numSubTopologies None).

(** [instance()]. *)
Definition instance (s : Static.cell (list (option Construct)))
    : list (option Construct) * Static.cell (list (option Construct)) :=
  Static.get constructor s.

(** [construct( mapping, i, traceStorage )]: the function pointer
    [instance().construct_[ i ]] called on [( mapping, traceStorage )]. *)
Definition construct (mapping : Mapping) (i : nat) (traceStorage : ptr)
    (s : Static.cell (list (option Construct))) (mem : Storage SubCoords)
    : option (ptr * Storage SubCoords)
      * Static.cell (list (option Construct)) :=
  let '(inst, s') := instance s in
  (entry ← inst !! i ≫= id; Some (entry mapping traceStorage mem), s').
End Provider.

End TraceProvider.

(** ** genericreferenceelements.hh *)

Module ReferenceElements.

(** [FieldVector< ctype, n >], with the exact rationals for [ctype]. *)
Definition FieldVector : Type := list Q.

(** [FieldVector< ctype, n >( c )], [x += y] and [x *= k]. *)
Definition FieldVector_const (n : nat) (c : Q) : FieldVector := replicate n c.
Definition FieldVector_add (y x : FieldVector) : FieldVector :=
  zip_with Qplus x y.
Definition FieldVector_scale (k : Q) (x : FieldVector) : FieldVector :=
  (fun a => a * k)%Q <$> x.

(** Where the corners of a mapping come from: the reference domain
    ([CornerStorage( integral_constant< int, 0 > )]) or the coordinates of a
    sub-mapping ([SubMappingCoords< Mapping, codim >]). *)
Inductive Coords : Type :=
  | ReferenceCorners
  | SubMappingCoords (codim i : nat).

(** A mapping object in memory, [HybridMapping< dim-codim, GeometryTraits >]
    by its dynamic type. *)
Definition MappingObject : Type := TraceProvider.TraceImpl Coords.

(** The free store: [new char[ n ]] hands out the next address. *)
Record Heap : Type := mkHeap
  { next : ptr;
    objects : TraceProvider.Storage Coords }.

(** What the header takes from type.hh, subtopologies.hh, referencedomain.hh
    and hybridmapping.hh, none of which is part of the sources:
    - [GeometryType()] and [GeometryType( topologyId, dim )];
    - [SubTopology< Topology, codim, i >::type];
    - [SubTopologySize< Topology, codim, subcodim >::size( i )];
    - [GenericSubTopologyNumbering< Topology, codim, subcodim >::number( i, j )];
    - [ReferenceDomain< Topology >]'s [corner], [volume], [numNormals] and
      [integrationOuterNormal];
    - [HybridMapping::trace< codim >( i, storage )] of the codimension-0
      mapping and [HybridMapping::global( local )]. *)
Record Declarations (GeometryType : Type) : Type := mkDeclarations
  { GeometryType_default : GeometryType;
    GeometryType_of_id : N -> nat -> GeometryType;
    SubTopology : Topology.t -> nat -> nat -> Topology.t;
    SubTopologySize_size : Topology.t -> nat -> nat -> nat -> nat;
    GenericSubTopologyNumbering_number :
      Topology.t -> nat -> nat -> nat -> nat -> nat;
    ReferenceDomain_corner : Topology.t -> nat -> FieldVector;
    ReferenceDomain_volume : Topology.t -> Q;
    ReferenceDomain_numNormals : Topology.t -> nat;
    ReferenceDomain_integrationOuterNormal : Topology.t -> nat -> FieldVector;
    HybridMapping_trace :
      Topology.t -> nat -> nat -> ptr -> TraceProvider.Storage Coords ->
      ptr * TraceProvider.Storage Coords;
    HybridMapping_global : MappingObject -> FieldVector -> FieldVector }.
Arguments GeometryType_default {GeometryType} _.
Arguments GeometryType_of_id {GeometryType} _ _ _.
Arguments SubTopology {GeometryType} _ _ _ _.
Arguments SubTopologySize_size {GeometryType} _ _ _ _ _.
Arguments GenericSubTopologyNumbering_number {GeometryType} _ _ _ _ _ _.
Arguments ReferenceDomain_corner {GeometryType} _ _ _.
Arguments ReferenceDomain_volume {GeometryType} _ _.
Arguments ReferenceDomain_numNormals {GeometryType} _ _.
Arguments ReferenceDomain_integrationOuterNormal {GeometryType} _ _ _.
Arguments HybridMapping_trace {GeometryType} _ _ _ _ _ _.
Arguments HybridMapping_global {GeometryType} _ _ _.

(** *** GenericReferenceElement< void, dim >::SubEntityInfo *)

Record SubEntityInfo (GeometryType : Type) : Type := mkSubEntityInfo
  { codim_ : nat;
    numbering_ : list (list nat);
    type_ : GeometryType }.
Arguments mkSubEntityInfo {GeometryType} _ _ _.
Arguments codim_ {GeometryType} _.
Arguments numbering_ {GeometryType} _.
Arguments type_ {GeometryType} _.

(** *** GenericReferenceElement< ctype, dim > with its base class *)

Record GenericReferenceElement (GeometryType : Type) : Type :=
  mkGenericReferenceElement
  { info_ : list (list (SubEntityInfo GeometryType));
    volume_ : Q;
    baryCenters_ : list (list FieldVector);
    volumeNormals_ : list FieldVector;
    mappings_ : list (list ptr) }.
Arguments mkGenericReferenceElement {GeometryType} _ _ _ _ _.
Arguments info_ {GeometryType} _.
Arguments volume_ {GeometryType} _.
Arguments baryCenters_ {GeometryType} _.
Arguments volumeNormals_ {GeometryType} _.
Arguments mappings_ {GeometryType} _.

(** The outcome of a call that may throw. *)
Inductive Result (A : Type) : Type :=
  | Returned (a : A)
  | Thrown (what : string)
  | Undefined.
Arguments Returned {A} _.
Arguments Thrown {A} _.
Arguments Undefined {A}.

(** What the destructor does to the free store, in order:
    [p->~Mapping()] for [Codim< codim >::Mapping], [delete[]( p )] and
    [delete p]. *)
Inductive Event : Type :=
  | DestructorCall (codim : nat) (p : ptr)
  | DeleteArray (p : ptr)
  | Delete (p : ptr).

#[global] Instance Event_eq_dec : EqDecision Event.
Proof. solve_decision. Defined.

Section Element.
Context {GeometryType : Type}.
Variable D : Declarations GeometryType.
(** The template parameter [int dim]. *)
Variable dim : nat.

(** A default-constructed [SubEntityInfo]: [numbering_] is an array of
    [dim+1] empty vectors. *)
Definition SubEntityInfo_default : SubEntityInfo GeometryType :=
  mkSubEntityInfo 0%nat (replicate (S dim) []) (GeometryType_default D).

(** [SubEntityInfo::size( cc )] and [SubEntityInfo::number( ii, cc )], each
    under [assert( (cc >= codim_) && (cc <= dim) )]. *)
Definition SubEntityInfo_size (e : SubEntityInfo GeometryType) (cc : nat)
    : option nat :=
  if (codim_ e <=? cc)%nat && (cc <=? dim)%nat
  then length <$> numbering_ e !! cc
  else None.

Definition SubEntityInfo_number (e : SubEntityInfo GeometryType)
    (ii cc : nat) : option nat :=
  if (codim_ e <=? cc)%nat && (cc <=? dim)%nat
  then numbering_ e !! cc ≫= (.!! ii)
  else None.

(** [SubEntityInfo::Initialize< Topology, codim >::SubCodim< subcodim >::apply]. *)
Definition SubCodim_apply (T : Topology.t) (codim i subcodim : nat)
    (numbering : list (list nat)) : list (list nat) :=
  let size := SubTopologySize_size D T codim subcodim i in
  <[(codim + subcodim)%nat :=
      (fun j => GenericSubTopologyNumbering_number D T codim subcodim i j)
        <$> seq 0 size]> numbering.

(** [SubEntityInfo::initialize< Topology, codim, i >()]. *)
Definition SubEntityInfo_initialize (T : Topology.t) (codim i : nat)
    (e : SubEntityInfo GeometryType) : SubEntityInfo GeometryType :=
  let numbering :=
    ForLoop (SubCodim_apply T codim i) 0 (dim - codim) (numbering_ e) in
  let Sub := SubTopology D T codim i in
  mkSubEntityInfo codim numbering
    (GeometryType_of_id D (Topology.id Sub) (Topology.dimension Sub)).

(** [GenericReferenceElement< void, dim >::Initialize< Topology >::Codim< codim >::apply]. *)
Definition Initialize_Codim_apply (T : Topology.t) (codim : nat)
    (info : list (list (SubEntityInfo GeometryType)))
    : list (list (SubEntityInfo GeometryType)) :=
  let size := Topology.Size T codim in
  alter (fun level =>
           ForLoop (fun i => alter (SubEntityInfo_initialize T codim i) i)
                   0 (size - 1) (resize size SubEntityInfo_default level))
        codim info.

(** [GenericReferenceElement< void, dim >::initializeTopology< Topology >()]. *)
Definition Base_initializeTopology (T : Topology.t)
    (info : list (list (SubEntityInfo GeometryType)))
    : list (list (SubEntityInfo GeometryType)) :=
  ForLoop (Initialize_Codim_apply T) 0 dim info.

(** [size( c )], [size( i, c, cc )] and [subEntity( i, c, ii, cc )]. *)
Definition size (re : GenericReferenceElement GeometryType) (c : nat)
    : option nat :=
  length <$> info_ re !! c.

Definition size_sub (re : GenericReferenceElement GeometryType)
    (i c cc : nat) : option nat :=
  e ← info_ re !! c ≫= (.!! i); SubEntityInfo_size e cc.

Definition subEntity (re : GenericReferenceElement GeometryType)
    (i c ii cc : nat) : option nat :=
  e ← info_ re !! c ≫= (.!! i); SubEntityInfo_number e ii cc.

(** [position( i, c )]. *)
Definition position (re : GenericReferenceElement GeometryType)
    (i c : nat) : option FieldVector :=
  baryCenters_ re !! c ≫= (.!! i).

(** A default-constructed element. *)
Definition GenericReferenceElement_default
    : GenericReferenceElement GeometryType :=
  mkGenericReferenceElement (replicate (S dim) []) 0%Q
    (replicate (S dim) []) [] (replicate (S dim) []).

(** [v[ c ][ i ] = f( v[ c ][ i ] )] on an array of vectors. *)
Definition update {A : Type} (c i : nat) (f : A -> A) (v : list (list A))
    : list (list A) :=
  alter (alter f i) c v.

(** The body of the loop over [i] in the barycenter computation of
    [initializeTopology].  [numCorners] is a [static const] local: it is
    initialised from [Base::size( i, codim, dim )] the first time control
    passes through its declaration and keeps that value afterwards.  The
    state of the static is the second component. *)
Definition barycenter_body (re : GenericReferenceElement GeometryType)
    (codim i : nat) (st : list (list FieldVector) * option nat)
    : option (list (list FieldVector) * option nat) :=
  let bary0 := update codim i (fun _ => FieldVector_const dim 0%Q) st.1 in
  numCorners ← match st.2 with
               | Some n => Some n
               | None => size_sub re i codim dim
               end;
  bary1 ← foldl (fun acc j =>
                   bary ← acc;
                   v ← subEntity re i codim j dim;
                   corner ← bary !! dim ≫= (.!! v);
                   Some (update codim i (FieldVector_add corner) bary))
                (Some bary0) (seq 0 numCorners);
  Some (update codim i
          (FieldVector_scale (1 / inject_Z (Z.of_nat numCorners))%Q) bary1,
        Some numCorners).

(** The loop over [codim] with the loop over [i] inside. *)
Definition barycenter_codim (re : GenericReferenceElement GeometryType)
    (codim : nat) (st : list (list FieldVector) * option nat)
    : option (list (list FieldVector) * option nat) :=
  n ← size re codim;
  let bary := alter (resize n (FieldVector_const dim 0%Q)) codim st.1 in
  foldl (fun acc i => acc ≫= barycenter_body re codim i)
        (Some (bary, st.2)) (seq 0 n).

Definition compute_barycenters (re : GenericReferenceElement GeometryType)
    (st : list (list FieldVector) * option nat)
    : option (list (list FieldVector) * option nat) :=
  foldl (fun acc codim => acc ≫= barycenter_codim re codim)
        (Some st) (seq 0 dim).

(** The corner loop: [baryCenters_[ dim ]] is resized and filled from the
    reference domain. *)
Definition compute_corners (T : Topology.t)
    (re : GenericReferenceElement GeometryType)
    : option (list (list FieldVector)) :=
  numVertices ← size re dim;
  Some (<[dim := ReferenceDomain_corner D T <$> seq 0 numVertices]>
          (baryCenters_ re)).

(** [Create< codim >::apply]: one buffer per subentity, the trace of the
    codimension-0 mapping placed in it. *)
Definition Create_apply (T : Topology.t)
    (re : GenericReferenceElement GeometryType) (codim : nat)
    (st : list (list ptr) * Heap) : option (list (list ptr) * Heap) :=
  n ← size re codim;
  let mappings := alter (resize n 0%nat) codim st.1 in
  Some (foldl (fun acc i =>
                 let storage := next acc.2 in
                 let '(p, mem) :=
                   HybridMapping_trace D T codim i storage (objects acc.2) in
                 (update codim i (fun _ => p) acc.1,
                  mkHeap (S storage) mem))
              (mappings, st.2) (seq 0 n)).

(** The call [Base::template initializeTopology< Topology >()] on the
    element. *)
Definition call_Base_initializeTopology (T : Topology.t)
    (re : GenericReferenceElement GeometryType)
    : GenericReferenceElement GeometryType :=
  mkGenericReferenceElement (Base_initializeTopology T (info_ re))
    (volume_ re) (baryCenters_ re) (volumeNormals_ re) (mappings_ re).

(** The last part of [initializeTopology], set up mappings: the
    codimension-0 mapping is allocated with [new], the others by
    [ForLoop< Create, 1, dim >]. *)
Definition create_mappings (T : Topology.t)
    (re : GenericReferenceElement GeometryType) (heap : Heap)
    : option (list (list ptr) * Heap) :=
  let p0 := next heap in
  let heap0 :=
    mkHeap (S p0)
      (<[p0 := TraceProvider.VirtualMapping T ReferenceCorners]>
         (objects heap)) in
  let mappings0 := <[0%nat := [p0]]> (mappings_ re) in
  ForLoopM (Create_apply T re) 1 dim (mappings0, heap0).

(** [GenericReferenceElement< ctype, dim >::initializeTopology< Topology >()],
    on the element, the static [numCorners] of this instantiation and the
    free store. *)
Definition initializeTopology (T : Topology.t)
    (re : GenericReferenceElement GeometryType)
    (numCorners_static : option nat) (heap : Heap)
    : option (GenericReferenceElement GeometryType * option nat * Heap) :=
  let re1 := call_Base_initializeTopology T re in
  corners ← compute_corners T re1;
  '(bary, static') ← compute_barycenters re1 (corners, numCorners_static);
  let volume := ReferenceDomain_volume D T in
  let normals :=
    ReferenceDomain_integrationOuterNormal D T
      <$> seq 0 (ReferenceDomain_numNormals D T) in
  '(mappings, heap') ← create_mappings T re1 heap;
  Some (mkGenericReferenceElement (info_ re1) volume bary normals mappings,
        static', heap').

(** [mapping< codim >( i )]: the object [mappings_[ codim ][ i ]] points to. *)
Definition mapping (re : GenericReferenceElement GeometryType) (heap : Heap)
    (codim i : nat) : option MappingObject :=
  p ← mappings_ re !! codim ≫= (.!! i); objects heap !! p.

(** [global< codim >( local, i, c )]. *)
Definition global (re : GenericReferenceElement GeometryType) (heap : Heap)
    (codim : nat) (local : FieldVector) (i : nat) (c : Z)
    : Result FieldVector :=
  if decide (c <> Z.of_nat codim)
  then Thrown "Local Coordinate Type does not correspond to codimension c."
  else match mapping re heap codim i with
       | Some m => Returned (HybridMapping_global D m local)
       | None => Undefined
       end.

(** [global< codim >( local, i )]. *)
Definition global_alias (re : GenericReferenceElement GeometryType)
    (heap : Heap) (codim : nat) (local : FieldVector) (i : nat)
    : Result FieldVector :=
  match mapping re heap codim i with
  | Some m => Returned (HybridMapping_global D m local)
  | None => Undefined
  end.

(** [Destroy< codim >::apply]. *)
Definition Destroy_apply (mappings : list (list ptr)) (codim : nat)
    (trace : list Event) : list Event :=
  foldl (fun tr p => tr ++ [DestructorCall codim p; DeleteArray p])
        trace (default [] (mappings !! codim)).

(** [~GenericReferenceElement()]. *)
Definition destructor (re : GenericReferenceElement GeometryType)
    : list Event :=
  let trace := ForLoop (Destroy_apply (mappings_ re)) 1 dim [] in
  match mappings_ re !! 0%nat with
  | Some (p :: _) => trace ++ [Delete p]
  | _ => trace
  end.

(** [type( i, c )] and [type()] of the base class. *)
Definition type_sub (re : GenericReferenceElement GeometryType) (i c : nat)
    : option GeometryType :=
  type_ <$> (info_ re !! c ≫= (.!! i)).

Definition type (re : GenericReferenceElement GeometryType)
    : option GeometryType :=
  type_sub re 0 0.
End Element.

End ReferenceElements.

(** *** GenericReferenceElementContainer *)

Module Container.

(** The member functions of the container that answer with a reference to
    an element: [operator()( topologyId )], [operator()( type )],
    [simplex()], [cube()], [pyramid()] and [prism()]. *)
Inductive Member (GeometryType : Type) : Type :=
  | by_id (topologyId : N)
  | by_type (type : GeometryType)
  | simplex
  | cube
  | pyramid
  | prism.
Arguments by_id {GeometryType} _.
Arguments by_type {GeometryType} _.
Arguments simplex {GeometryType}.
Arguments cube {GeometryType}.
Arguments pyramid {GeometryType}.
Arguments prism {GeometryType}.

(** What the construction of the elements acts on besides the elements:
    the statics [numCorners] of the instantiations
    [initializeTopology< Topology >], one per topology and kept here by
    topology id, and the free store. *)
Record Globals : Type := mkGlobals
  { numCorners_ : gmap nat nat;
    free_store : ReferenceElements.Heap }.

Section Container.
Context {GeometryType : Type}.
Variable D : ReferenceElements.Declarations GeometryType.
(** The template parameter [int dim]. *)
Variable dim : nat.

(** [GeometryType] with its accessors [dim()] and [id()]. *)
Variable GeometryType_dim : GeometryType -> N.
Variable GeometryType_id : GeometryType -> N.

(** [typedef GenericReferenceElement< ctype, dim > value_type]. *)
Definition value_type : Type :=
  ReferenceElements.GenericReferenceElement GeometryType.

Definition numTopologies : N := UInt.shl 1 (N.of_nat dim).

(** [Builder< topologyId >::apply]:
    [values[ topologyId ].template initializeTopology< Topology >()]. *)
Definition Builder_apply (topologyId : nat) (st : list value_type * Globals)
    : option (list value_type * Globals) :=
  let T := Topology.of_id (N.of_nat topologyId) dim in
  re ← st.1 !! topologyId;
  '(re', static', heap') ←
    ReferenceElements.initializeTopology D dim T re
      (numCorners_ st.2 !! topologyId) (free_store st.2);
  Some (<[topologyId := re']> st.1,
        mkGlobals (partial_alter (fun _ => static') topologyId
                     (numCorners_ st.2))
                  heap').

(** The constructor: [value_type values_[ numTopologies ]] is
    default-constructed, then
    [ForLoop< Builder, 0, numTopologies-1 >::apply( values_ )]. *)
Definition constructor (g : Globals) : option (list value_type * Globals) :=
  ForLoopM Builder_apply 0 (N.to_nat (UInt.sub numTopologies 1))
           (replicate (N.to_nat numTopologies)
                      (ReferenceElements.GenericReferenceElement_default dim),
            g).

(** A [const value_type &] into [values_]: the index of the element. *)
Definition reference : Type := nat.


(** [values_[ k ]] as a reference. *)
Definition element (values_ : list value_type) (k : N) : option reference :=
  if k <? N.of_nat (length values_) then Some (N.to_nat k) else None.

(** Modelled from the spec: the ids [SimplexTopology< dim >::type::id],
    [CubeTopology< dim >::type::id], [PyramidTopology< dim >::type::id] and
    [PrismTopology< dim >::type::id] of topologytypes.hh, the simplex a
    chain of pyramids, the cube a chain of prisms, the pyramid a pyramid
    over the cube and the prism a prism over the simplex. *)
Definition named_id (b : Conversion.BasicType) : option N :=
  Topology.id <$> Conversion.Convert b dim.

(** The member functions, on the array [values_] of a container. *)
Definition answer (values_ : list value_type) (m : Member GeometryType)
    : option reference :=
  match m with
  | by_id topologyId => element values_ topologyId
  | by_type type =>
      if GeometryType_dim type =? N.of_nat dim
      then element values_ (GeometryType_id type)
      else None
  | simplex => named_id Conversion.simplex ≫= element values_
  | cube => named_id Conversion.cube ≫= element values_
  | pyramid => named_id Conversion.pyramid ≫= element values_
  | prism => named_id Conversion.prism ≫= element values_
  end.

(** The program state the two static containers live in: the globals, the
    static [container] of [GenericReferenceElements::container()] and the
    static [inst] of [GenericReferenceElementContainer::instance()]. *)
Record World : Type := mkWorld
  { globals : Globals;
    container_ : Static.cell (list value_type);
    inst_ : Static.cell (list value_type) }.

(** [instance()]: [static GenericReferenceElementContainer inst; return inst;] *)
Definition instance (w : World) : option (list value_type * World) :=
  '(values_, cell, g) ← Static.construct_once constructor (inst_ w) (globals w);
  Some (values_, mkWorld g (container_ w) cell).

End Container.

End Container.

(** *** GenericReferenceElements *)

Module GenericReferenceElements.

(** The static member functions of the registry that answer with a
    reference to an element: [general( type )], [simplex()] and
    [cube()]. *)
Inductive Call (GeometryType : Type) : Type :=
  | general (type : GeometryType)
  | simplex
  | cube.
Arguments general {GeometryType} _.
Arguments simplex {GeometryType}.
Arguments cube {GeometryType}.

Section Registry.
Context {GeometryType : Type}.
Variable D : ReferenceElements.Declarations GeometryType.
Variable dim : nat.
Variable GeometryType_dim : GeometryType -> N.
Variable GeometryType_id : GeometryType -> N.

(** The member function of the container each call forwards to:
    [container()( type )], [container().simplex()], [container().cube()]. *)
Definition member (c : Call GeometryType) : Container.Member GeometryType :=
  match c with
  | general type => Container.by_type type
  | simplex => Container.simplex
  | cube => Container.cube
  end.

(** [container()]:
    [static GenericReferenceElementContainer< ctype, dim > container;
     return container;] *)
Definition container (w : Container.World (GeometryType:=GeometryType))
    : option (list (Container.value_type (GeometryType:=GeometryType))
              * Container.World) :=
  '(values_, cell, g) ←
    Static.construct_once (Container.constructor D dim)
      (Container.container_ w) (Container.globals w);
  Some (values_, Container.mkWorld g cell (Container.inst_ w)).

(** A call on the registry: [container()] first, then the member function.
    Besides the reference, the container it points into. *)
Definition call (c : Call GeometryType) (w : Container.World)
    : option ((option Container.reference * list Container.value_type)
              * Container.World) :=
  '(values_, w') ← container w;
  Some ((Container.answer dim GeometryType_dim GeometryType_id values_
           (member c), values_), w').

(** A sequence of calls, the answers in order. *)
Fixpoint run (cs : list (Call GeometryType)) (w : Container.World)
    : option (list (option Container.reference * list Container.value_type)
              * Container.World) :=
  match cs with
  | [] => Some ([], w)
  | c :: cs' =>
      '(a, w1) ← call c w;
      '(answers, w2) ← run cs' w1;
      Some (a :: answers, w2)
  end.
End Registry.

End GenericReferenceElements.

(** ** refinement/base.cc *)

Module Refinement.

(** The largest [int], 32 bits wide. *)
Definition int_max : Z := (2 ^ 31 - 1)%Z.

(** [1 << l] on [int]: the standard fixes the value only for a count from
    0 on, below the width of [int], and a result that [int] can hold. *)
Definition shl_1 (l : Z) : option Z :=
  if ((0 <=? l) && (l <? 32) && (2 ^ l <=? int_max))%Z
  then Some (2 ^ l)%Z
  else None.

(** [class RefinementIntervals], built by its explicit constructor. *)
Record RefinementIntervals : Type := mkRefinementIntervals
  { intervals_ : Z }.

Definition intervals (tag : RefinementIntervals) : Z := intervals_ tag.

Definition refinementIntervals (i : Z) : RefinementIntervals :=
  mkRefinementIntervals i.

Definition refinementLevels (l : Z) : option RefinementIntervals :=
  mkRefinementIntervals <$> shl_1 l.

Section StaticRefinement.
(** The implementation [RefinementImp::Traits< ... >::Imp] the class
    derives from, by its static members; each takes the number of
    intervals. *)
Variable VertexIterator : Type.
Variable ElementIterator : Type.
Variable Imp_nVertices : Z -> Z.
Variable Imp_vBegin : Z -> VertexIterator.
Variable Imp_vEnd : Z -> VertexIterator.
Variable Imp_nElements : Z -> Z.
Variable Imp_eBegin : Z -> ElementIterator.
Variable Imp_eEnd : Z -> ElementIterator.

(** The deprecated overloads, taking a level. *)
Definition nVertices_level (level : Z) : option Z :=
  Imp_nVertices <$> shl_1 level.
Definition vBegin_level (level : Z) : option VertexIterator :=
  Imp_vBegin <$> shl_1 level.
Definition vEnd_level (level : Z) : option VertexIterator :=
  Imp_vEnd <$> shl_1 level.
Definition nElements_level (level : Z) : option Z :=
  Imp_nElements <$> shl_1 level.
Definition eBegin_level (level : Z) : option ElementIterator :=
  Imp_eBegin <$> shl_1 level.
Definition eEnd_level (level : Z) : option ElementIterator :=
  Imp_eEnd <$> shl_1 level.

(** The overloads taking a [RefinementIntervals] tag. *)
Definition nVertices (tag : RefinementIntervals) : Z :=
  Imp_nVertices (intervals tag).
Definition vBegin (tag : RefinementIntervals) : VertexIterator :=
  Imp_vBegin (intervals tag).
Definition vEnd (tag : RefinementIntervals) : VertexIterator :=
  Imp_vEnd (intervals tag).
Definition nElements (tag : RefinementIntervals) : Z :=
  Imp_nElements (intervals tag).
Definition eBegin (tag : RefinementIntervals) : ElementIterator :=
  Imp_eBegin (intervals tag).
Definition eEnd (tag : RefinementIntervals) : ElementIterator :=
  Imp_eEnd (intervals tag).
End StaticRefinement.

End Refinement.

(** * Properties *)

Import Conversion.

(** ** Statements about the numbering maps *)

(** Converting [i] with [dune2generic] and back with [generic2dune] through
    the provider, and the other way round. *)
Definition generic2dune_of_dune2generic (dim : nat) (topologyId : N)
    (codim : nat) (i : N) : option N :=
  MapNumberingProvider.dune2generic dim topologyId i (N.of_nat codim)
    ≫= fun j => MapNumberingProvider.generic2dune dim topologyId j (N.of_nat codim).

Definition dune2generic_of_generic2dune (dim : nat) (topologyId : N)
    (codim : nat) (i : N) : option N :=
  MapNumberingProvider.generic2dune dim topologyId i (N.of_nat codim)
    ≫= fun j => MapNumberingProvider.dune2generic dim topologyId j (N.of_nat codim).

Definition mutually_inverse_at (dim : nat) (topologyId : N) (codim : nat)
    (i : N) : Prop :=
  generic2dune_of_dune2generic dim topologyId codim i = Some i
  /\ dune2generic_of_generic2dune dim topologyId codim i = Some i.

(** The same for the two member templates of one [MapNumbering]. *)
Definition tables_inverse_at (M : MapNumberingT) (codim : nat) (i : N) : Prop :=
  (dune2generic M codim i ≫= generic2dune M codim) = Some i
  /\ (generic2dune M codim i ≫= dune2generic M codim) = Some i.

(** Exhaustive checks over all topologies, codimensions and indices. *)
Definition check_provider (dim : nat) : bool :=
  forallb (fun t =>
    forallb (fun c =>
      forallb (fun i =>
        bool_decide (mutually_inverse_at dim (N.of_nat t) c (N.of_nat i)))
        (seq 0 (Topology.Size (Topology.of_id (N.of_nat t) dim) c)))
      (seq 0 (S dim)))
    (seq 0 (2 ^ dim)).

Definition check_tables (M : MapNumberingT) (T : Topology.t) : bool :=
  forallb (fun c =>
    forallb (fun i => bool_decide (tables_inverse_at M c (N.of_nat i)))
      (seq 0 (Topology.Size T c)))
    (seq 0 (S (Topology.dimension T))).

(** ** Statements about DuneGeometryTypeProvider *)

(** The topology [topologyId] of dimension [dim] is the shape [Convert]
    names [b], the construction at level 0 apart (a prism and a pyramid over
    a point are the same line). *)
Definition is_shape (b : BasicType) (dim : nat) (topologyId : N) : bool :=
  match Convert b dim with
  | Some T => topologyId / 2 =? Topology.id T / 2
  | None => false
  end.

(** Simplex, cube, or none. *)
Definition simplex_cube_or_none (dim : nat) (topologyId : N) : GeometryType :=
  if is_shape simplex dim topologyId then mkGeometryType simplex (N.of_nat dim)
  else if is_shape cube dim topologyId then mkGeometryType cube (N.of_nat dim)
  else mkGeometryType none (N.of_nat dim).

(** Simplex, cube, prism over the simplex, pyramid over the cube, or none. *)
Definition named_or_none (dim : nat) (topologyId : N) : GeometryType :=
  if is_shape simplex dim topologyId then mkGeometryType simplex (N.of_nat dim)
  else if is_shape cube dim topologyId then mkGeometryType cube (N.of_nat dim)
  else if is_shape prism dim topologyId then mkGeometryType prism (N.of_nat dim)
  else if is_shape pyramid dim topologyId
       then mkGeometryType pyramid (N.of_nat dim)
  else mkGeometryType none (N.of_nat dim).

(** ** Example declarations: the line and the square

    The subentity tables and the reference domain of the unit cubes of
    dimension 1 and 2, with the corners (0), (1) and (0,0), (1,0), (0,1),
    (1,1), and the edges of the square on x = 0, x = 1, y = 0 and y = 1. *)

Import ReferenceElements.

Definition square_edge_corners : list (list nat) :=
  [[0; 2]; [1; 3]; [0; 1]; [2; 3]]%nat.

Definition cube_SubTopology (T : Topology.t) (codim i : nat) : Topology.t :=
  Convert_cube (Topology.dimension T - codim).

Definition cube_SubTopologySize (T : Topology.t) (codim subcodim i : nat)
    : nat :=
  Topology.Size (cube_SubTopology T codim i) subcodim.

Definition cube_number (T : Topology.t) (codim subcodim i j : nat) : nat :=
  if Nat.eqb subcodim 0 then i
  else if Nat.eqb codim 0 then j
  else default 0%nat (square_edge_corners !! i ≫= (.!! j)).

Definition cube_corner (T : Topology.t) (i : nat) : FieldVector :=
  (fun k => if Nat.testbit i k then 1%Q else 0%Q)
    <$> seq 0 (Topology.dimension T).

Definition cube_normal (T : Topology.t) (face : nat) : FieldVector :=
  (fun k => if Nat.eqb k (face / 2)
            then (if Nat.even face then (-1)%Q else 1%Q)
            else 0%Q)
    <$> seq 0 (Topology.dimension T).

(** The corners of subentity [(i, codim)] in the parent's coordinates. *)
Definition cube_sub_corners (T : Topology.t) (codim i : nat)
    : list FieldVector :=
  let mydim := (Topology.dimension T - codim)%nat in
  (fun j => cube_corner T (cube_number T codim mydim i j))
    <$> seq 0 (cube_SubTopologySize T codim mydim i).

(** The affine map through the corners 0, 1, 2, 4, ... of a cube. *)
Definition affine_through (corners : list FieldVector) (x : FieldVector)
    : FieldVector :=
  let c0 := default [] (corners !! 0%nat) in
  foldl (fun acc k =>
           let ck := default [] (corners !! (2 ^ k)%nat) in
           let xk := default 0%Q (x !! k) in
           zip_with Qplus acc
             (zip_with (fun a b => (xk * (a - b))%Q) ck c0))
        c0 (seq 0 (length x)).

Definition cube_global (T : Topology.t) (m : MappingObject)
    (x : FieldVector) : FieldVector :=
  match m with
  | TraceProvider.CachedMapping _ (SubMappingCoords codim i)
  | TraceProvider.VirtualMapping _ (SubMappingCoords codim i) =>
      affine_through (cube_sub_corners T codim i) x
  | _ => x
  end.

Definition cube_declarations (dim : nat) : Declarations GeometryType :=
  let T := Convert_cube dim in
  {| GeometryType_default := Conversion.GeometryType_default;
     GeometryType_of_id := fun topologyId d =>
       default (mkGeometryType none (N.of_nat d))
               (DuneGeometryTypeProvider.type d cube topologyId);
     SubTopology := cube_SubTopology;
     SubTopologySize_size := cube_SubTopologySize;
     GenericSubTopologyNumbering_number := cube_number;
     ReferenceDomain_corner := cube_corner;
     ReferenceDomain_volume := fun _ => 1%Q;
     ReferenceDomain_numNormals := fun T => (2 * Topology.dimension T)%nat;
     ReferenceDomain_integrationOuterNormal := cube_normal;
     HybridMapping_trace := fun T codim i =>
       TraceProvider.HybridFactory_construct T codim cube_SubTopology
         unit Coords (fun _ => SubMappingCoords) i tt;
     HybridMapping_global := cube_global T |}.

Definition empty_heap : Heap := mkHeap 0%nat ∅.

(** The mapping table of the square, as the mapping set-up of
    [initializeTopology] leaves it on an empty free store. *)
Definition square_element : GenericReferenceElement GeometryType :=
  let re1 :=
    call_Base_initializeTopology (cube_declarations 2) 2 (Convert_cube 2)
      (GenericReferenceElement_default 2) in
  mkGenericReferenceElement (info_ re1) (volume_ re1) (baryCenters_ re1)
    (volumeNormals_ re1)
    (default [] (fst <$> create_mappings (cube_declarations 2) 2
                           (Convert_cube 2) re1 empty_heap)).

(** The line after [initializeTopology] on an empty free store. *)
Definition line_initialized
    : option (GenericReferenceElement GeometryType * option nat * Heap) :=
  initializeTopology (cube_declarations 1) 1 (Convert_cube 1)
    (GenericReferenceElement_default 1) None empty_heap.

Definition line_element : GenericReferenceElement GeometryType :=
  default (GenericReferenceElement_default 1)
          ((fun r => r.1.1) <$> line_initialized).

Definition line_heap : Heap :=
  default empty_heap ((fun r => r.2) <$> line_initialized).

(** ** Statements about the destructor *)

(** Of two destructor calls the later one is for the lower codimension. *)
Definition reverse_codim_order (trace : list Event) : Prop :=
  forall (k1 k2 c1 c2 : nat) (p1 p2 : ptr),
    (k1 < k2)%nat ->
    trace !! k1 = Some (DestructorCall c1 p1) ->
    trace !! k2 = Some (DestructorCall c2 p2) ->
    (c2 <= c1)%nat.

(** Of two destructor calls the later one is for the higher codimension. *)
Definition increasing_codim_order (trace : list Event) : Prop :=
  forall (k1 k2 c1 c2 : nat) (p1 p2 : ptr),
    (k1 < k2)%nat ->
    trace !! k1 = Some (DestructorCall c1 p1) ->
    trace !! k2 = Some (DestructorCall c2 p2) ->
    (c1 <= c2)%nat.

(** The plain [delete] expressions in a trace. *)
Definition plain_deletes (trace : list Event) : list ptr :=
  omap (fun e => match e with Delete p => Some p | _ => None end) trace.

(** What [Destroy< codim >::apply] appends to the trace. *)
Definition level_events (mappings : list (list ptr)) (codim : nat)
    : list Event :=
  flat_map (fun p => [DestructorCall codim p; DeleteArray p])
           (default [] (mappings !! codim)).

(** ** Example world: the containers of the lines

    The program before any container exists: no static is initialised and
    the free store is empty. *)
Definition fresh_globals : Container.Globals :=
  Container.mkGlobals ∅ empty_heap.




(** ** Statements about the tables of MapNumberingProvider *)

(** A numbering read under the assertion [i < size]. *)
Definition guarded (size : nat) (f : N -> option N) (i : N) : option N :=
  if i <? N.of_nat size then f i else None.

(** The vectors the provider holds for a topology id and a codimension. *)
Definition provider_vectors (inst : MapNumberingProvider.Tables)
    (topologyId codim : nat)
    : option (MapNumberingProvider.Map * MapNumberingProvider.Map) :=
  v ← (inst.1 !! topologyId) ≫= (.!! codim);
  w ← (inst.2 !! topologyId) ≫= (.!! codim);
  Some (v, w).

(** Every vector of the provider is the numbering of its topology, listed
    over the subentities of its codimension. *)
Definition check_precomputed (dim : nat) : bool :=
  match MapNumberingProvider.instance dim with
  | Some inst =>
      forallb (fun t =>
        let T := Topology.of_id (N.of_nat t) dim in
        match MapNumbering T with
        | Some M =>
            forallb (fun c =>
              bool_decide
                (provider_vectors inst t c
                 = (v ← MapNumberingProvider.fill (Topology.Size T c)
                          (dune2generic M c);
                    w ← MapNumberingProvider.fill (Topology.Size T c)
                          (generic2dune M c);
                    Some (v, w))
                   /\ is_Some (provider_vectors inst t c)))
              (seq 0 (S dim))
        | None => false
        end)
        (seq 0 (2 ^ dim))
  | None => false
  end.

(** The rows of the two tables are equal for the simplex and the cube. *)
Definition check_same_rows (dim : nat) : bool :=
  match MapNumberingProvider.instance dim with
  | Some inst =>
      forallb (fun t =>
        if is_shape simplex dim (N.of_nat t) || is_shape cube dim (N.of_nat t)
        then bool_decide (inst.1 !! t = inst.2 !! t /\ is_Some (inst.1 !! t))
        else true)
        (seq 0 (2 ^ dim))
  | None => false
  end.

(** [Convert::map] and the provider's [dune2generic] at the id of the
    converted topology, on every subentity. *)
Definition check_Convert_map (dim : nat) : bool :=
  forallb (fun b =>
    match Convert b dim with
    | Some T =>
        forallb (fun c =>
          forallb (fun i =>
            bool_decide
              (Convert_map b dim c (N.of_nat i)
               = MapNumberingProvider.dune2generic dim (Topology.id T)
                   (N.of_nat i) (N.of_nat c)
               /\ is_Some (Convert_map b dim c (N.of_nat i))))
            (seq 0 (Topology.Size T c)))
          (seq 0 (S dim))
    | None => true
    end)
    [simplex; cube; pyramid; prism; none].

(** ** Statements about the mapping table *)

(** The element with its mapping table replaced. *)
Definition with_mappings {GeometryType : Type}
    (re : GenericReferenceElement GeometryType) (mappings : list (list ptr))
    : GenericReferenceElement GeometryType :=
  mkGenericReferenceElement (info_ re) (volume_ re) (baryCenters_ re)
    (volumeNormals_ re) mappings.

(** [trace< codim >( i, storage )] places the trace [obj T codim i] in the
    storage, leaves the rest of the memory alone and returns the address of
    the storage, as [TraceProvider::construct] does. *)
Definition places {GeometryType : Type} (D : Declarations GeometryType)
    (obj : Topology.t -> nat -> nat -> MappingObject) : Prop :=
  forall (T : Topology.t) (codim i : nat) (storage : ptr)
         (mem : TraceProvider.Storage Coords),
    HybridMapping_trace D T codim i storage mem
    = (storage, <[storage := obj T codim i]> mem).

(** The number of subentities the element records for a codimension. *)
Definition subentities {GeometryType : Type}
    (re : GenericReferenceElement GeometryType) (c : nat) : nat :=
  default 0%nat (size re c).

(** The number of subentities of the codimensions 1 to [k]. *)
Fixpoint subentities_upto {GeometryType : Type}
    (re : GenericReferenceElement GeometryType) (k : nat) : nat :=
  match k with
  | O => 0
  | S k' => subentities_upto re k' + subentities re k
  end%nat.

(** The addresses a trace releases with [delete[]] or [delete], and the
    addresses on which it calls a destructor directly. *)
Definition released (trace : list Event) : list ptr :=
  omap (fun e => match e with
                 | DeleteArray p | Delete p => Some p
                 | DestructorCall _ _ => None
                 end) trace.

Definition destroyed (trace : list Event) : list ptr :=
  omap (fun e => match e with
                 | DestructorCall _ p => Some p
                 | _ => None
                 end) trace.

(** The traces of the cube: a virtual mapping over the subtopology. *)
Definition cube_trace (T : Topology.t) (codim i : nat) : MappingObject :=
  TraceProvider.VirtualMapping (cube_SubTopology T codim i)
    (SubMappingCoords codim i).

(** ** Statements about the barycenters *)

(** Coordinate [k] of the [j]-th corner of subentity [(i, codim)], read
    from the corner row [baryCenters_[ dim ]]. *)
Definition corner_coordinate {GeometryType : Type} (dim : nat)
    (re : GenericReferenceElement GeometryType)
    (bary : list (list FieldVector)) (i codim j k : nat) : Q :=
  default 0%Q (v ← subEntity dim re i codim j dim;
               corner ← bary !! dim ≫= (.!! v);
               corner !! k).

(** The sum of coordinate [k] over the first [m] corners of the subentity,
    added in the order of the loop. *)
Definition corner_sum {GeometryType : Type} (dim : nat)
    (re : GenericReferenceElement GeometryType)
    (bary : list (list FieldVector)) (i codim m k : nat) : Q :=
  foldl (fun acc j => (acc + corner_coordinate dim re bary i codim j k)%Q)
        0%Q (seq 0 m).


(** ** Helper lemmas *)

Lemma forallb_seq_lt (P : nat -> bool) (n k : nat) :
  forallb P (seq 0 n) = true -> (k < n)%nat -> P k = true.
Proof.
  intros H Hk. rewrite forallb_forall in H. apply H.
  apply in_seq. lia.
Qed.

Lemma wrap_small (n : N) : n < UInt.modulus -> UInt.wrap n = n.
Proof. intros H. unfold UInt.wrap. apply N.mod_small. exact H. Qed.

Lemma shl_1_small (n : N) : n < 32 -> UInt.shl 1 n = 2 ^ n.
Proof.
  intros H. unfold UInt.shl. rewrite N.shiftl_1_l.
  apply wrap_small. unfold UInt.modulus.
  apply N.pow_lt_mono_r; lia.
Qed.

Lemma shl_1_large (n : N) : 32 <= n -> UInt.shl 1 n = 0.
Proof.
  intros H. unfold UInt.shl, UInt.wrap, UInt.modulus. rewrite N.shiftl_1_l.
  replace n with (32 + (n - 32)) by lia.
  rewrite N.pow_add_r. rewrite N.mul_comm. apply N.Div0.mod_mul.
Qed.

Lemma sub_small (a b : N) : b <= a -> a < UInt.modulus -> UInt.sub a b = a - b.
Proof.
  intros Hb Ha. unfold UInt.sub.
  rewrite (wrap_small b) by lia.
  unfold UInt.wrap.
  replace (a + UInt.modulus - b) with ((a - b) + 1 * UInt.modulus) by lia.
  rewrite N.Div0.mod_add. apply N.mod_small. lia.
Qed.

(** Powers of two around an exponent [D >= 2], in terms of [2 ^ (D - 2)]. *)
Lemma pow2_split (D : N) :
  2 <= D ->
  exists p, 1 <= p /\ 2 ^ (D - 2) = p /\ 2 ^ (D - 1) = 2 * p /\ 2 ^ D = 4 * p.
Proof.
  intros H. exists (2 ^ (D - 2)).
  assert (Hp : 2 ^ (D - 2) <> 0) by (apply N.pow_nonzero; lia).
  repeat split; try lia.
  - replace (D - 1) with (N.succ (D - 2)) by lia. rewrite N.pow_succ_r'. lia.
  - replace D with (N.succ (N.succ (D - 2))) at 1 by lia.
    rewrite !N.pow_succ_r'. lia.
Qed.

Lemma pow2_lt_modulus (D : N) : D < 32 -> 2 ^ D < UInt.modulus.
Proof. intros H. unfold UInt.modulus. apply N.pow_lt_mono_r; lia. Qed.

(** A loop that alters the element at its index in every round. *)
Lemma foldl_alter_seq_lookup {A : Type} (f : nat -> A -> A) (n : nat)
    (l : list A) (j : nat) :
  foldl (fun ts i => alter (f i) i ts) l (seq 0 n) !! j
  = if decide (j < n)%nat then f j <$> l !! j else l !! j.
Proof.
  induction n as [|n IH].
  - simpl. destruct (decide (j < 0)%nat); [lia | reflexivity].
  - rewrite seq_S, foldl_app. simpl.
    destruct (decide (n = j)) as [-> | Hne].
    + rewrite list_lookup_alter_eq, IH.
      destruct (decide (j < j)%nat); [lia|].
      destruct (decide (j < S j)%nat); [reflexivity | lia].
    + rewrite list_lookup_alter_ne by exact Hne. rewrite IH.
      destruct (decide (j < n)%nat), (decide (j < S n)%nat); try reflexivity; lia.
Qed.

Lemma length_foldl_alter {A : Type} (f : nat -> A -> A) (ix : list nat)
    (l : list A) :
  length (foldl (fun ts i => alter (f i) i ts) l ix) = length l.
Proof.
  revert l. induction ix as [|i ix IH]; intros l; simpl; [reflexivity|].
  rewrite IH. apply length_alter.
Qed.

Lemma foldl_alter_replicate {A : Type} (f : A -> A) (n : nat) (x : A) :
  foldl (fun ts i => alter f i ts) (replicate n x) (seq 0 n) = replicate n (f x).
Proof.
  apply list_eq. intros j. rewrite (foldl_alter_seq_lookup (fun _ => f)).
  destruct (decide (j < n)%nat) as [Hj | Hj].
  - rewrite !lookup_replicate_2 by exact Hj. reflexivity.
  - rewrite !(proj1 (lookup_replicate_None _ _ _)) by lia. reflexivity.
Qed.

(** The ids of the named shapes. *)
Lemma dimension_Convert_simplex (dim : nat) :
  Topology.dimension (Convert_simplex dim) = dim.
Proof. induction dim as [|d IH]; simpl; [reflexivity | rewrite IH; reflexivity]. Qed.

Lemma dimension_Convert_cube (dim : nat) :
  Topology.dimension (Convert_cube dim) = dim.
Proof. induction dim as [|d IH]; simpl; [reflexivity | rewrite IH; reflexivity]. Qed.

Lemma id_Convert_simplex (dim : nat) : Topology.id (Convert_simplex dim) = 0.
Proof. induction dim as [|d IH]; simpl; [reflexivity | exact IH]. Qed.

Lemma id_Convert_cube (dim : nat) :
  Topology.id (Convert_cube dim) + 1 = 2 ^ N.of_nat dim.
Proof.
  induction dim as [|d IH].
  - reflexivity.
  - cbn [Convert_cube Topology.id]. rewrite dimension_Convert_cube.
    rewrite Nat2N.inj_succ, N.pow_succ_r'. lia.
Qed.

(** ** The numbering maps *)

Lemma check_provider_sound (dim : nat) (topologyId : N) (codim : nat) (i : N) :
  check_provider dim = true ->
  topologyId < 2 ^ N.of_nat dim ->
  (codim <= dim)%nat ->
  i < N.of_nat (Topology.Size (Topology.of_id topologyId dim) codim) ->
  mutually_inverse_at dim topologyId codim i.
Proof.
  intros Hchk Ht Hc Hi. unfold check_provider in Hchk.
  assert (Htn : (N.to_nat topologyId < 2 ^ dim)%nat).
  { pose proof (Nat2N.inj_pow 2 dim) as Hp. change (N.of_nat 2) with 2 in Hp. lia. }
  pose proof (forallb_seq_lt _ _ _ Hchk Htn) as H1. cbv beta in H1.
  rewrite N2Nat.id in H1.
  assert (Hcn : (codim < S dim)%nat) by lia.
  pose proof (forallb_seq_lt _ _ _ H1 Hcn) as H2. cbv beta in H2.
  assert (Hin : (N.to_nat i < Topology.Size (Topology.of_id topologyId dim) codim)%nat) by lia.
  pose proof (forallb_seq_lt _ _ _ H2 Hin) as H3. cbv beta in H3.
  rewrite N2Nat.id in H3. apply bool_decide_eq_true in H3. exact H3.
Qed.

Lemma check_tables_sound (M : MapNumberingT) (T : Topology.t) (codim : nat) (i : N) :
  check_tables M T = true ->
  (codim <= Topology.dimension T)%nat ->
  i < N.of_nat (Topology.Size T codim) ->
  tables_inverse_at M codim i.
Proof.
  intros Hchk Hc Hi. unfold check_tables in Hchk.
  assert (Hcn : (codim < S (Topology.dimension T))%nat) by lia.
  pose proof (forallb_seq_lt _ _ _ Hchk Hcn) as H2. cbv beta in H2.
  assert (Hin : (N.to_nat i < Topology.Size T codim)%nat) by lia.
  pose proof (forallb_seq_lt _ _ _ H2 Hin) as H3. cbv beta in H3.
  rewrite N2Nat.id in H3. apply bool_decide_eq_true in H3. exact H3.
Qed.

Lemma check_provider_upto_3 :
  check_provider 0 = true /\ check_provider 1 = true
  /\ check_provider 2 = true /\ check_provider 3 = true.
Proof. repeat split; vm_compute; reflexivity. Qed.

(** C1, as amended.  For every dimension up to 3, every topology id below
    [2 ^ dim], every codimension up to [dim] and every index below the size
    of that codimension, the maps of [MapNumberingProvider] are mutually
    inverse: [generic2dune] after [dune2generic] and [dune2generic] after
    [generic2dune] both return the index.  In dimension 4 only the two
    hypercube topologies (ids 14 and 15) have a [MapNumbering], and its two
    tables are mutually inverse on every codimension up to 4; every other
    topology id of dimension 4 (0 to 13) has no [MapNumbering]. *)
Theorem numbering_maps_mutually_inverse :
  (forall (dim : nat) (topologyId : N) (codim : nat) (i : N),
      (dim <= 3)%nat ->
      topologyId < 2 ^ N.of_nat dim ->
      (codim <= dim)%nat ->
      i < N.of_nat (Topology.Size (Topology.of_id topologyId dim) codim) ->
      mutually_inverse_at dim topologyId codim i)
  /\ (forall (topologyId : N) (codim : nat) (i : N),
      topologyId = 14 \/ topologyId = 15 ->
      (codim <= 4)%nat ->
      i < N.of_nat (Topology.Size (Topology.of_id topologyId 4) codim) ->
      MapNumbering (Topology.of_id topologyId 4) = Some MapNumbering4DCube
      /\ tables_inverse_at MapNumbering4DCube codim i)
  /\ (forall topologyId : N,
      topologyId < 2 ^ N.of_nat 4 ->
      topologyId <> 14 -> topologyId <> 15 ->
      MapNumbering (Topology.of_id topologyId 4) = None).
Proof.
  split; [|split].
  - intros dim topologyId codim i Hdim Ht Hc Hi.
    destruct check_provider_upto_3 as (H0 & H1 & H2 & H3).
    apply check_provider_sound; try assumption.
    destruct dim as [|[|[|[|dim]]]]; try assumption. lia.
  - intros topologyId codim i Ht Hc Hi.
    destruct Ht as [-> | ->]; (split; [reflexivity|]).
    + apply (check_tables_sound _ (Topology.of_id 14 4)); [vm_compute; reflexivity | exact Hc | exact Hi].
    + apply (check_tables_sound _ (Topology.of_id 15 4)); [vm_compute; reflexivity | exact Hc | exact Hi].
  - intros topologyId Ht H14 H15. change (2 ^ N.of_nat 4) with 16 in Ht.
    rewrite <- (N2Nat.id topologyId).
    assert (Hn : (N.to_nat topologyId < 14)%nat) by lia.
    revert Hn. generalize (N.to_nat topologyId) as n. intros n Hn.
    do 14 (destruct n as [|n]; [reflexivity|]). lia.
Qed.

(** The pyramid (id 2, dimension 3) at face 1, the 4-cube (id 14) at its
    codimension-2 subentity 6, and the prism over the tetrahedron (id 8,
    dimension 4). *)
Lemma numbering_maps_mutually_inverse_witness :
  mutually_inverse_at 3 2 1 1
  /\ (MapNumbering (Topology.of_id 14 4) = Some MapNumbering4DCube
      /\ tables_inverse_at MapNumbering4DCube 2 6)
  /\ MapNumbering (Topology.of_id 8 4) = None.
Proof.
  split; [|split].
  - apply (proj1 numbering_maps_mutually_inverse 3%nat 2 1%nat 1);
      [lia | reflexivity | lia | reflexivity].
  - apply (proj1 (proj2 numbering_maps_mutually_inverse) 14 2%nat 6);
      [left; reflexivity | lia | reflexivity].
  - apply (proj2 (proj2 numbering_maps_mutually_inverse) 8);
      [reflexivity | lia | lia].
Defined.

(** C1 as stated fails in dimension 4: the 4-simplex (id 0) has no
    [MapNumbering], so the provider of dimension 4 has no tables and neither
    conversion returns an index. *)
Lemma numbering_maps_no_4d_simplex :
  (4 <= 4)%nat /\ 0 < 2 ^ N.of_nat 4 /\ (0 <= 4)%nat
  /\ 0 < N.of_nat (Topology.Size (Topology.of_id 0 4) 0)
  /\ MapNumbering (Topology.of_id 0 4) = None
  /\ MapNumberingProvider.dune2generic 4 0 0 0 = None
  /\ ~ mutually_inverse_at 4 0 0 0.
Proof.
  repeat split; try reflexivity; try lia.
  intros [H _]. vm_compute in H. discriminate H.
Qed.

Lemma numTopologies_pos_lt_32 (dim : nat) (topologyId : N) :
  topologyId < DuneGeometryTypeProvider.numTopologies dim ->
  N.of_nat dim < 32
  /\ DuneGeometryTypeProvider.numTopologies dim = 2 ^ N.of_nat dim.
Proof.
  unfold DuneGeometryTypeProvider.numTopologies, DuneGeometryTypeProvider.dimension.
  intros H. destruct (N.lt_ge_cases (N.of_nat dim) 32) as [Hlt | Hge].
  - split; [exact Hlt | apply shl_1_small; exact Hlt].
  - rewrite shl_1_large in H by exact Hge. lia.
Qed.

(** The array the constructor leaves behind for a dimension above 3. *)
Lemma constructor_above_3 (dim : nat) (linetype : BasicType) (p : N) :
  let D := N.of_nat dim in
  3 < D -> D < 32 -> 1 <= p ->
  2 ^ (D - 2) = p -> 2 ^ (D - 1) = 2 * p -> 2 ^ D = 4 * p ->
  DuneGeometryTypeProvider.constructor dim linetype
  = alter (makeCube D) (N.to_nat (2 * p - 1))
      (<[N.to_nat (p - 1) := mkGeometryType pyramid D]>
         (<[N.to_nat p := mkGeometryType prism D]>
            (alter (makeSimplex D) 0%nat
               (replicate (N.to_nat (2 * p)) (mkGeometryType none D))))).
Proof.
  intros D H3 H32 Hp Hp2 Hp1 Hp0.
  pose proof (pow2_lt_modulus D H32) as HD.
  pose proof (pow2_lt_modulus (D - 1) ltac:(lia)) as HD1.
  pose proof (pow2_lt_modulus (D - 2) ltac:(lia)) as HD2.
  unfold DuneGeometryTypeProvider.constructor,
    DuneGeometryTypeProvider.types_extent,
    DuneGeometryTypeProvider.numTopologies,
    DuneGeometryTypeProvider.dimension.
  fold D.
  rewrite (shl_1_small D) by exact H32.
  replace (1 <=? D) with true by (symmetry; apply N.leb_le; lia).
  replace (3 <? D) with true by (symmetry; apply N.ltb_lt; lia).
  replace (3 <=? D) with true by (symmetry; apply N.leb_le; lia).
  replace (2 <=? D) with true by (symmetry; apply N.leb_le; lia).
  rewrite (sub_small D 2) by (unfold UInt.modulus in *; lia).
  replace (D - 2 + 1) with (D - 1) by lia.
  rewrite (shl_1_small (D - 2)) by lia.
  rewrite (shl_1_small (D - 1)) by lia.
  rewrite Hp2, Hp1, Hp0.
  rewrite (sub_small p 1) by lia.
  rewrite (sub_small (2 * p) 1) by lia.
  replace (4 * p) with (2 * p * 2) by lia. rewrite N.div_mul by lia.
  cbv zeta.
  rewrite foldl_alter_replicate. reflexivity.
Qed.

Lemma is_shape_above_1 (dim : nat) (t p : N) :
  let D := N.of_nat dim in
  2 <= D -> 1 <= p ->
  2 ^ (D - 2) = p -> 2 ^ (D - 1) = 2 * p -> 2 ^ D = 4 * p ->
  is_shape simplex dim t = (t / 2 =? 0)
  /\ is_shape cube dim t = (t / 2 =? 2 * p - 1)
  /\ is_shape prism dim t = (t / 2 =? p)
  /\ is_shape pyramid dim t = (t / 2 =? p - 1).
Proof.
  intros D HD Hp Hp2 Hp1 Hp0.
  destruct dim as [|d]; [subst D; simpl in HD; lia|].
  assert (HDd : D - 1 = N.of_nat d) by (subst D; lia).
  unfold is_shape. cbn [Convert].
  repeat split.
  - rewrite id_Convert_simplex. reflexivity.
  - pose proof (id_Convert_cube (S d)) as Hc. fold D in Hc. rewrite Hp0 in Hc.
    replace (Topology.id (Convert_cube (S d))) with (4 * p - 1) by lia.
    f_equal. symmetry. apply (N.div_unique _ 2 _ 1); lia.
  - cbn [Topology.id]. rewrite id_Convert_simplex, dimension_Convert_simplex.
    rewrite <- HDd, Hp1. f_equal.
    replace (0 + 2 * p) with (p * 2) by lia. apply N.div_mul. lia.
  - cbn [Topology.id].
    pose proof (id_Convert_cube d) as Hc. rewrite <- HDd, Hp1 in Hc.
    replace (Topology.id (Convert_cube d)) with (2 * p - 1) by lia.
    f_equal. symmetry. apply (N.div_unique _ 2 _ 1); lia.
Qed.

(** C3, as amended.  For every dimension above 3 and every topology id the
    assertion of [type] admits, [type] returns the simplex type for the
    simplex, the cube type for the cube, [GeometryType( prism, dim )] for
    the prism over the simplex, [GeometryType( pyramid, dim )] for the
    pyramid over the cube, and the none type for every other id. *)
Theorem type_above_3_named_or_none (dim : nat) (linetype : BasicType) (topologyId : N) :
  (3 < dim)%nat ->
  topologyId < DuneGeometryTypeProvider.numTopologies dim ->
  DuneGeometryTypeProvider.type dim linetype topologyId
  = Some (named_or_none dim topologyId).
Proof.
  intros H3 Ht.
  destruct (numTopologies_pos_lt_32 dim topologyId Ht) as [H32 Hnum].
  set (D := N.of_nat dim) in *.
  destruct (pow2_split D ltac:(lia)) as (p & Hp & Hp2 & Hp1 & Hp0).
  assert (Hp4 : 4 <= p).
  { rewrite <- Hp2. change 4 with (2 ^ 2). apply N.pow_le_mono_r; lia. }
  destruct (is_shape_above_1 dim topologyId p ltac:(fold D; lia) Hp Hp2 Hp1 Hp0)
    as (Hs & Hc & Hpr & Hpy).
  unfold DuneGeometryTypeProvider.type, DuneGeometryTypeProvider.instance.
  replace (topologyId <? DuneGeometryTypeProvider.numTopologies dim) with true
    by (symmetry; apply N.ltb_lt; exact Ht).
  rewrite (constructor_above_3 dim linetype p) by (fold D; first [lia | assumption]).
  fold D. unfold named_or_none. rewrite Hs, Hc, Hpr, Hpy. fold D.
  rewrite Hnum, Hp0 in Ht.
  assert (Hk : topologyId / 2 < 2 * p).
  { apply N.Div0.div_lt_upper_bound. lia. }
  set (k := topologyId / 2) in *.
  destruct (N.eqb_spec k 0) as [E0 | N0].
  { rewrite E0.
    rewrite list_lookup_alter_ne by lia.
    rewrite !list_lookup_insert_ne by lia.
    rewrite list_lookup_alter_eq, lookup_replicate_2 by lia. reflexivity. }
  destruct (N.eqb_spec k (2 * p - 1)) as [Ec | Nc].
  { rewrite Ec. rewrite list_lookup_alter_eq.
    rewrite !list_lookup_insert_ne by lia.
    rewrite list_lookup_alter_ne by lia.
    rewrite lookup_replicate_2 by lia. reflexivity. }
  rewrite list_lookup_alter_ne by lia.
  destruct (N.eqb_spec k p) as [Ep | Np].
  { rewrite Ep. rewrite list_lookup_insert_ne by lia.
    rewrite list_lookup_insert_eq; [reflexivity|].
    rewrite length_alter, length_replicate. lia. }
  destruct (N.eqb_spec k (p - 1)) as [Ey | Ny].
  { rewrite Ey. rewrite list_lookup_insert_eq; [reflexivity|].
    rewrite length_insert, length_alter, length_replicate. lia. }
  rewrite !list_lookup_insert_ne by lia.
  rewrite list_lookup_alter_ne by lia.
  rewrite lookup_replicate_2 by lia. reflexivity.
Qed.

(** The prism over the 4-simplex, id 16 in dimension 5. *)
Lemma type_above_3_named_or_none_witness :
  DuneGeometryTypeProvider.type 5 cube 16
  = Some (mkGeometryType prism 5).
Proof.
  apply (type_above_3_named_or_none 5 cube 16); [lia | reflexivity].
Defined.

(** C3 as stated fails at id 8 in dimension 4, the prism over the
    tetrahedron: it is neither the simplex nor the cube, and its type is
    [GeometryType( prism, 4 )], not the none type. *)
Lemma type_4d_prism_is_not_none :
  (3 < 4)%nat /\ 8 < 2 ^ 4
  /\ is_shape simplex 4 8 = false /\ is_shape cube 4 8 = false
  /\ DuneGeometryTypeProvider.type 4 simplex 8 = Some (mkGeometryType prism 4)
  /\ DuneGeometryTypeProvider.type 4 simplex 8
     <> Some (simplex_cube_or_none 4 8).
Proof.
  repeat split; try reflexivity; try lia.
  vm_compute. discriminate.
Qed.

(** ** The level-0 bit of the topology id *)

Lemma lxor_1_div_2 (t : N) : N.lxor t 1 / 2 = t / 2.
Proof.
  change 2 with (2 ^ 1). rewrite <- !N.shiftr_div_pow2.
  rewrite N.shiftr_lxor. change (N.shiftr 1 1) with 0.
  apply N.lxor_0_r.
Qed.

Lemma lt_double_div_2 (t m : N) : t < 2 * m <-> t / 2 < m.
Proof.
  split; intros H.
  - apply N.Div0.div_lt_upper_bound. exact H.
  - pose proof (N.Div0.div_mod t 2) as Hd.
    pose proof (N.mod_upper_bound t 2 ltac:(lia)) as Hm. lia.
Qed.

Lemma numTopologies_even (dim : nat) :
  (1 <= dim)%nat ->
  exists m, DuneGeometryTypeProvider.numTopologies dim = 2 * m.
Proof.
  intros H1.
  unfold DuneGeometryTypeProvider.numTopologies, DuneGeometryTypeProvider.dimension.
  destruct (N.lt_ge_cases (N.of_nat dim) 32) as [Hlt | Hge].
  - rewrite shl_1_small by exact Hlt. exists (2 ^ (N.of_nat dim - 1)).
    replace (N.of_nat dim) with (N.succ (N.of_nat dim - 1)) at 1 by lia.
    apply N.pow_succ_r'.
  - rewrite shl_1_large by exact Hge. exists 0. reflexivity.
Qed.

Lemma length_constructor (dim : nat) (linetype : BasicType) :
  length (DuneGeometryTypeProvider.constructor dim linetype)
  = N.to_nat (DuneGeometryTypeProvider.types_extent dim).
Proof.
  unfold DuneGeometryTypeProvider.constructor.
  repeat match goal with
         | |- context [if ?b then _ else _] => destruct b
         end;
    cbv zeta;
    rewrite ?length_alter, ?length_insert, ?length_alter,
      ?(length_foldl_alter (fun _ => makeNone _)),
      ?length_replicate; reflexivity.
Qed.

Lemma type_same_half (dim : nat) (linetype : BasicType) (t t' : N) :
  (1 <= dim)%nat ->
  t' / 2 = t / 2 ->
  DuneGeometryTypeProvider.type dim linetype t'
  = DuneGeometryTypeProvider.type dim linetype t.
Proof.
  intros H1 Hhalf. unfold DuneGeometryTypeProvider.type.
  destruct (numTopologies_even dim H1) as [m Hm]. rewrite Hm, Hhalf.
  destruct (N.ltb_spec t (2 * m)) as [Hlt | Hge];
    destruct (N.ltb_spec t' (2 * m)) as [Hlt' | Hge'];
    try reflexivity; exfalso.
  - apply lt_double_div_2 in Hlt. rewrite <- Hhalf in Hlt.
    apply lt_double_div_2 in Hlt. lia.
  - apply lt_double_div_2 in Hlt'. rewrite Hhalf in Hlt'.
    apply lt_double_div_2 in Hlt'. lia.
Qed.

(** C10.  For every dimension from 1 on and every topology id below
    [2 ^ dim], [type( topologyId )] equals [type( topologyId ^ 1 )]; more
    generally two ids with the same half have the same type, and the type is
    defined whenever [1 << dim] is. *)
Theorem type_depends_on_half_id (dim : nat) (linetype : BasicType) (topologyId : N) :
  (1 <= dim)%nat ->
  topologyId < 2 ^ N.of_nat dim ->
  DuneGeometryTypeProvider.type dim linetype topologyId
  = DuneGeometryTypeProvider.type dim linetype (N.lxor topologyId 1)
  /\ (forall t' : N,
        t' < 2 ^ N.of_nat dim ->
        t' / 2 = topologyId / 2 ->
        DuneGeometryTypeProvider.type dim linetype t'
        = DuneGeometryTypeProvider.type dim linetype topologyId)
  /\ ((dim < 32)%nat ->
      is_Some (DuneGeometryTypeProvider.type dim linetype topologyId)).
Proof.
  intros H1 Ht. split; [|split].
  - symmetry. apply type_same_half; [exact H1 | apply lxor_1_div_2].
  - intros t' _ Hhalf. apply type_same_half; assumption.
  - intros H32.
    unfold DuneGeometryTypeProvider.type, DuneGeometryTypeProvider.instance.
    assert (Hnum : DuneGeometryTypeProvider.numTopologies dim = 2 ^ N.of_nat dim).
    { apply shl_1_small. lia. }
    rewrite Hnum.
    replace (topologyId <? 2 ^ N.of_nat dim) with true
      by (symmetry; apply N.ltb_lt; exact Ht).
    apply lookup_lt_is_Some. rewrite length_constructor.
    unfold DuneGeometryTypeProvider.types_extent, DuneGeometryTypeProvider.dimension.
    replace (1 <=? N.of_nat dim) with true by (symmetry; apply N.leb_le; lia).
    rewrite Hnum.
    assert (Hdiv : topologyId / 2 < 2 ^ N.of_nat dim / 2).
    { replace (N.of_nat dim) with (N.succ (N.of_nat dim - 1)) in * by lia.
      rewrite N.pow_succ_r' in *.
      rewrite (N.mul_comm 2), N.div_mul by lia.
      apply lt_double_div_2. lia. }
    lia.
Qed.

(** The prism over the triangle, ids 4 and 5 in dimension 3. *)
Lemma type_depends_on_half_id_witness :
  DuneGeometryTypeProvider.type 3 simplex 4
  = DuneGeometryTypeProvider.type 3 simplex 5.
Proof.
  apply (proj1 (type_depends_on_half_id 3 simplex 4 ltac:(lia) eq_refl)).
Defined.

(** ** Subentity counts *)


Lemma Size_0 (T : Topology.t) : Topology.Size T 0 = 1%nat.
Proof. destruct T; reflexivity. Qed.

Lemma Size_dimension (T : Topology.t) :
  Topology.Size T (Topology.dimension T) = Topology.numCorners T.
Proof.
  induction T as [|B IH|B IH]; [reflexivity| |].
  - cbn [Topology.dimension Topology.numCorners]. cbn [Topology.Size].
    cbn [Topology.dimension]. rewrite Nat.eqb_refl, IH. reflexivity.
  - cbn [Topology.dimension Topology.numCorners]. cbn [Topology.Size].
    cbn [Topology.dimension]. rewrite Nat.eqb_refl, IH. reflexivity.
Qed.

Lemma dimension_of_id (topologyId : N) (dim : nat) :
  Topology.dimension (Topology.of_id topologyId dim) = dim.
Proof.
  induction dim as [|d IH]; [reflexivity|].
  cbn [Topology.of_id]. destruct (N.testbit topologyId (N.of_nat d));
    cbn [Topology.dimension]; rewrite IH; reflexivity.
Qed.

(** The number of corners does not see the construction at level 0. *)
Lemma numCorners_same_half (t t' : N) (dim : nat) :
  t / 2 = t' / 2 ->
  Topology.numCorners (Topology.of_id t dim)
  = Topology.numCorners (Topology.of_id t' dim).
Proof.
  intros Hhalf. induction dim as [|d IH]; [reflexivity|].
  cbn [Topology.of_id].
  destruct d as [|d'].
  - destruct (N.testbit t (N.of_nat 0)), (N.testbit t' (N.of_nat 0)); reflexivity.
  - assert (Hbit : N.testbit t (N.of_nat (S d')) = N.testbit t' (N.of_nat (S d'))).
    { rewrite Nat2N.inj_succ. rewrite <- !N.div2_bits, Hhalf. reflexivity. }
    rewrite Hbit. destruct (N.testbit t' (N.of_nat (S d')));
      cbn [Topology.numCorners]; rewrite IH; reflexivity.
Qed.

Lemma of_id_0 (dim : nat) : Topology.of_id 0 dim = Convert_simplex dim.
Proof.
  induction dim as [|d IH]; [reflexivity|].
  cbn [Topology.of_id Convert_simplex]. rewrite N.bits_0, IH. reflexivity.
Qed.

Lemma of_id_ones (n : N) (dim : nat) :
  N.of_nat dim <= n -> Topology.of_id (N.ones n) dim = Convert_cube dim.
Proof.
  induction dim as [|d IH]; intros H; [reflexivity|].
  cbn [Topology.of_id Convert_cube].
  rewrite N.ones_spec_low by lia. rewrite IH by lia. reflexivity.
Qed.

Lemma numCorners_Convert_simplex (dim : nat) :
  Topology.numCorners (Convert_simplex dim) = (dim + 1)%nat.
Proof. induction dim as [|d IH]; [reflexivity|]. simpl. rewrite IH. lia. Qed.

Lemma numCorners_Convert_cube (dim : nat) :
  Topology.numCorners (Convert_cube dim) = (2 ^ dim)%nat.
Proof.
  induction dim as [|d IH]; [reflexivity|].
  cbn [Convert_cube Topology.numCorners]. rewrite IH. simpl. lia.
Qed.

(** The counts of the square and of the pyramid over it. *)
Lemma Size_square_and_pyramid :
  Topology.Size (Topology.of_id 3 2) <$> [0; 1; 2]%nat = [1; 4; 4]%nat
  /\ Topology.Size (Topology.of_id 3 3) <$> [0; 1; 2; 3]%nat
     = [1; 5; 8; 5]%nat.
Proof. split; reflexivity. Qed.

(** What [Base::initializeTopology] leaves in [info_] at a codimension. *)
Lemma length_info_after_Base {GeometryType : Type}
    (D : Declarations GeometryType) (dim : nat) (T : Topology.t)
    (info : list (list (SubEntityInfo GeometryType))) (c : nat) :
  (c < length info)%nat -> (c <= dim)%nat ->
  length <$> (Base_initializeTopology D dim T info !! c)
  = Some (Topology.Size T c).
Proof.
  intros Hlen Hc. unfold Base_initializeTopology, ForLoop.
  rewrite Nat.sub_0_r. unfold Initialize_Codim_apply.
  rewrite (foldl_alter_seq_lookup
             (fun codim level =>
                ForLoop (fun i => alter (SubEntityInfo_initialize D dim T codim i) i)
                  0 (Topology.Size T codim - 1)
                  (resize (Topology.Size T codim) (SubEntityInfo_default D dim) level))).
  destruct (decide (c < S dim)%nat); [|lia].
  destruct (lookup_lt_is_Some_2 info c Hlen) as [level Hlevel].
  rewrite Hlevel. cbn [fmap option_fmap option_map]. f_equal.
  unfold ForLoop.
  rewrite (length_foldl_alter
             (fun i => SubEntityInfo_initialize D dim T c i)).
  apply length_resize.
Qed.

(** C5.  For every topology id below [2 ^ dim], the element initialised
    for that topology has [size( 0 ) = 1] and [size( dim )] equal to the
    number of corners of the shape, which is [2 ^ dim] for the cube and
    [dim + 1] for the simplex. *)
Theorem size_0_and_vertex_count {GeometryType : Type}
    (D : Declarations GeometryType) (dim : nat) (topologyId : N) :
  topologyId < 2 ^ N.of_nat dim ->
  let T := Topology.of_id topologyId dim in
  let re := call_Base_initializeTopology D dim T
              (GenericReferenceElement_default dim) in
  size re 0 = Some 1%nat
  /\ size re dim = Some (Topology.numCorners T)
  /\ (is_shape cube dim topologyId = true ->
      Topology.numCorners T = (2 ^ dim)%nat)
  /\ (is_shape simplex dim topologyId = true ->
      Topology.numCorners T = (dim + 1)%nat).
Proof.
  intros Ht T re.
  assert (Hlen : forall c, (c <= dim)%nat ->
            (c < length (info_ (GenericReferenceElement_default (GeometryType:=GeometryType) dim)))%nat).
  { intros c Hc. cbn [GenericReferenceElement_default info_].
    rewrite length_replicate. lia. }
  repeat split.
  - unfold size, re, call_Base_initializeTopology. cbn [info_].
    rewrite length_info_after_Base by (try apply Hlen; lia).
    rewrite Size_0. reflexivity.
  - unfold size, re, call_Base_initializeTopology. cbn [info_].
    rewrite length_info_after_Base by (try apply Hlen; lia).
    rewrite <- Size_dimension. unfold T. rewrite dimension_of_id. reflexivity.
  - unfold is_shape. cbn [Convert]. intros Hc. apply N.eqb_eq in Hc.
    pose proof (id_Convert_cube dim) as Hid.
    assert (Hones : Topology.id (Convert_cube dim) = N.ones (N.of_nat dim)).
    { rewrite N.ones_equiv. lia. }
    rewrite Hones in Hc. unfold T.
    rewrite (numCorners_same_half _ _ dim Hc).
    rewrite of_id_ones by lia. apply numCorners_Convert_cube.
  - unfold is_shape. cbn [Convert]. intros Hs. apply N.eqb_eq in Hs.
    rewrite id_Convert_simplex in Hs. unfold T.
    rewrite (numCorners_same_half _ _ dim Hs).
    rewrite of_id_0. apply numCorners_Convert_simplex.
Qed.

(** The square, id 3 in dimension 2. *)
Lemma size_0_and_vertex_count_witness :
  size (call_Base_initializeTopology (cube_declarations 2) 2
          (Topology.of_id 3 2) (GenericReferenceElement_default 2)) 0
  = Some 1%nat
  /\ size (call_Base_initializeTopology (cube_declarations 2) 2
             (Topology.of_id 3 2) (GenericReferenceElement_default 2)) 2
     = Some 4%nat.
Proof.
  pose proof (size_0_and_vertex_count (cube_declarations 2) 2 3 eq_refl)
    as (H0 & Hdim & _).
  split; [exact H0 | exact Hdim].
Defined.

(** ** The barycenter loop and its static corner count *)

Lemma foldl_bind_None {A B : Type} (f : B -> A -> option A) (l : list B) :
  foldl (fun acc x => acc ≫= f x) None l = None.
Proof. induction l as [|x l IH]; [reflexivity | exact IH]. Qed.

Lemma foldl_bind_preserves {A B : Type} (f : B -> A -> option A)
    (P : A -> Prop) (l : list B) (st0 st' : A) :
  (forall y st st1, P st -> f y st = Some st1 -> P st1) ->
  P st0 ->
  foldl (fun acc x => acc ≫= f x) (Some st0) l = Some st' ->
  P st'.
Proof.
  intros Hpres. revert st0. induction l as [|y l IH]; intros st0 H0 Hrun.
  - simpl in Hrun. congruence.
  - simpl in Hrun. destruct (f y st0) as [st1|] eqn:Hy.
    + apply (IH st1); [eapply Hpres; eassumption | exact Hrun].
    + rewrite foldl_bind_None in Hrun. discriminate.
Qed.

Lemma foldl_bind_hits {A B : Type} (f : B -> A -> option A)
    (P : A -> Prop) (l1 : list B) (x : B) (l2 : list B) (st0 : A) :
  (forall y st st1, P st -> f y st = Some st1 -> P st1) ->
  (forall st, P st -> f x st = None) ->
  P st0 ->
  foldl (fun acc y => acc ≫= f y) (Some st0) (l1 ++ x :: l2) = None.
Proof.
  intros Hpres Hhit. revert st0. induction l1 as [|y l1 IH]; intros st0 H0.
  - simpl. rewrite (Hhit st0 H0). apply foldl_bind_None.
  - simpl. destruct (f y st0) as [st1|] eqn:Hy.
    + apply IH. eapply Hpres; eassumption.
    + apply foldl_bind_None.
Qed.

Lemma seq_split_at (first n k : nat) :
  (k < n)%nat ->
  seq first n = seq first k ++ (first + k)%nat :: seq (S (first + k)) (n - S k).
Proof.
  intros Hk. replace n with (k + S (n - S k))%nat at 1 by lia.
  rewrite seq_app. reflexivity.
Qed.

Section Barycenters.
Context {GeometryType : Type}.
Variable D : Declarations GeometryType.
Variable dim : nat.
Variable re : GenericReferenceElement GeometryType.

Let state : Type := (list (list FieldVector) * option nat)%type.

Lemma barycenter_body_keeps_static (codim i n0 : nat) (st st' : state) :
  st.2 = Some n0 ->
  barycenter_body dim re codim i st = Some st' ->
  st'.2 = Some n0.
Proof.
  intros Hst. unfold barycenter_body. rewrite Hst. cbn [mbind option_bind].
  destruct (foldl _ _ _); cbn [mbind option_bind]; [|intros Hfalse; discriminate Hfalse].
  intros [= <-]. reflexivity.
Qed.

Lemma barycenter_body_sets_static (codim i n0 : nat) (st st' : state) :
  st.2 = None ->
  size_sub dim re i codim dim = Some n0 ->
  barycenter_body dim re codim i st = Some st' ->
  st'.2 = Some n0.
Proof.
  intros Hst Hsize. unfold barycenter_body. rewrite Hst, Hsize.
  cbn [mbind option_bind].
  destruct (foldl _ _ _); cbn [mbind option_bind]; [|intros Hfalse; discriminate Hfalse].
  intros [= <-]. reflexivity.
Qed.

(** A subentity with [n] corners has no corner number [n]. *)
Lemma subEntity_past_the_end (codim i n : nat) :
  size_sub dim re i codim dim = Some n ->
  subEntity dim re i codim n dim = None.
Proof.
  unfold size_sub, subEntity, SubEntityInfo_size, SubEntityInfo_number.
  destruct (info_ re !! codim ≫= (.!! i)) as [e|]; cbn [mbind option_bind];
    [|intros Hfalse; discriminate Hfalse].
  destruct ((codim_ e <=? dim)%nat && (dim <=? dim)%nat);
    [|intros Hfalse; discriminate Hfalse].
  destruct (numbering_ e !! dim) as [l|]; cbn [fmap option_fmap option_map mbind option_bind];
    [|intros Hfalse; discriminate Hfalse].
  intros [= <-]. apply lookup_ge_None_2. lia.
Qed.

(** With a stale count above the subentity's own, the loop over its
    corners reads past the end of [numbering_[ dim ]]. *)
Lemma barycenter_body_overrun (codim i n n0 : nat) (st : state) :
  st.2 = Some n0 ->
  size_sub dim re i codim dim = Some n ->
  (n < n0)%nat ->
  barycenter_body dim re codim i st = None.
Proof.
  intros Hst Hsize Hlt. unfold barycenter_body. rewrite Hst.
  cbn [mbind option_bind].
  rewrite (seq_split_at 0 n0 n Hlt), foldl_app. cbn [foldl].
  rewrite Nat.add_0_l, (subEntity_past_the_end codim i n Hsize).
  match goal with
  | |- context [foldl ?g (?acc ≫= ?k) ?l] =>
      replace (acc ≫= k) with (@None (list (list FieldVector)))
        by (destruct acc; reflexivity)
  end.
  rewrite foldl_bind_None. reflexivity.
Qed.

Lemma size_sub_lt_size (codim i n : nat) :
  size_sub dim re i codim dim = Some n ->
  exists k, size re codim = Some k /\ (i < k)%nat.
Proof.
  unfold size_sub, size. destruct (info_ re !! codim) as [level|];
    cbn [mbind option_bind fmap option_fmap option_map]; [|intros Hfalse; discriminate Hfalse].
  destruct (level !! i) as [e|] eqn:He; cbn [mbind option_bind]; [|intros Hfalse; discriminate Hfalse].
  intros _. exists (length level). split; [reflexivity|].
  eapply lookup_lt_Some; exact He.
Qed.

Lemma barycenter_codim_keeps_static (codim n0 : nat) (st st' : state) :
  st.2 = Some n0 ->
  barycenter_codim dim re codim st = Some st' ->
  st'.2 = Some n0.
Proof.
  intros Hst. unfold barycenter_codim.
  destruct (size re codim) as [k|]; cbn [mbind option_bind]; [|intros Hfalse; discriminate Hfalse].
  apply (foldl_bind_preserves (barycenter_body dim re codim)
           (fun s : state => s.2 = Some n0)).
  - intros y s s1 Hs Hrun. eapply barycenter_body_keeps_static; eassumption.
  - exact Hst.
Qed.

Lemma barycenter_codim_overrun (codim i n n0 : nat) (st : state) :
  st.2 = Some n0 ->
  size_sub dim re i codim dim = Some n ->
  (n < n0)%nat ->
  barycenter_codim dim re codim st = None.
Proof.
  intros Hst Hsize Hlt. unfold barycenter_codim.
  destruct (size_sub_lt_size codim i n Hsize) as (k & Hk & Hik).
  rewrite Hk. cbn [mbind option_bind].
  rewrite (seq_split_at 0 k i Hik). rewrite Nat.add_0_l.
  apply (foldl_bind_hits (barycenter_body dim re codim)
           (fun s : state => s.2 = Some n0)).
  - intros y s s1 Hs Hrun. eapply barycenter_body_keeps_static; eassumption.
  - intros s Hs. eapply barycenter_body_overrun; eassumption.
  - exact Hst.
Qed.

(** The first pass through the declaration, at subentity (0,0), fixes the
    count. *)
Lemma barycenter_codim_0_sets_static (n0 : nat) (st st' : state) :
  st.2 = None ->
  size_sub dim re 0 0 dim = Some n0 ->
  barycenter_codim dim re 0 st = Some st' ->
  st'.2 = Some n0.
Proof.
  intros Hst Hsize. unfold barycenter_codim.
  destruct (size_sub_lt_size 0 0 n0 Hsize) as (k & Hk & Hik).
  rewrite Hk. cbn [mbind option_bind].
  destruct k as [|k]; [lia|]. cbn [seq foldl mbind option_bind].
  destruct (barycenter_body dim re 0 0 _) as [st1|] eqn:H1;
    [|rewrite foldl_bind_None; intros Hfalse; discriminate Hfalse].
  apply (foldl_bind_preserves (barycenter_body dim re 0)
           (fun s : state => s.2 = Some n0)).
  - intros y s s1 Hs Hrun. eapply barycenter_body_keeps_static; eassumption.
  - eapply barycenter_body_sets_static; [| exact Hsize | exact H1].
    exact Hst.
Qed.

Lemma compute_barycenters_overrun (c i n n0 : nat) (st : state) :
  (1 <= c < dim)%nat ->
  st.2 = None ->
  size_sub dim re 0 0 dim = Some n0 ->
  size_sub dim re i c dim = Some n ->
  (n < n0)%nat ->
  compute_barycenters dim re st = None.
Proof.
  intros Hc Hst H0 Hsize Hlt. unfold compute_barycenters.
  rewrite (seq_split_at 0 dim 0) by lia.
  cbn [seq app foldl mbind option_bind Nat.add].
  destruct (barycenter_codim dim re 0 st) as [st1|] eqn:H1;
    [|apply foldl_bind_None].
  assert (Hst1 : st1.2 = Some n0).
  { eapply barycenter_codim_0_sets_static; eassumption. }
  rewrite (seq_split_at 1 (dim - 1) (c - 1)) by lia.
  replace (1 + (c - 1))%nat with c by lia.
  apply (foldl_bind_hits (barycenter_codim dim re)
           (fun s : state => s.2 = Some n0)).
  - intros y s s1 Hs Hrun. eapply barycenter_codim_keeps_static; eassumption.
  - intros s Hs. eapply barycenter_codim_overrun; eassumption.
  - exact Hst1.
Qed.
End Barycenters.

(** C2, where the code leaves the claim.  [numCorners] is initialised once,
    at subentity (0,0), with the corner count [n0] of the cell.  If some
    subentity [(i, c)] with [1 <= c < dim] has fewer corners than the cell,
    the loop over its corners runs to [n0] and reads [numbering_[ dim ]]
    past its end: [initializeTopology] has no defined result, and
    [position( i, c )] is not the mean of the corners of the subentity. *)
Theorem stale_numCorners_reads_past_the_end {GeometryType : Type}
    (D : Declarations GeometryType) (dim : nat) (T : Topology.t)
    (re : GenericReferenceElement GeometryType) (heap : Heap)
    (c i n n0 : nat) :
  let re1 := call_Base_initializeTopology D dim T re in
  (1 <= c < dim)%nat ->
  size_sub dim re1 0 0 dim = Some n0 ->
  size_sub dim re1 i c dim = Some n ->
  (n < n0)%nat ->
  initializeTopology D dim T re None heap = None.
Proof.
  intros re1 Hc H0 Hsize Hlt. unfold initializeTopology. fold re1.
  destruct (compute_corners D dim T re1) as [corners|];
    cbn [mbind option_bind]; [|reflexivity].
  rewrite (compute_barycenters_overrun dim re1 c i n n0 (corners, None));
    try assumption; reflexivity.
Qed.

(** The square: the cell has four corners, its edge 0 has two. *)
Lemma stale_numCorners_reads_past_the_end_witness :
  initializeTopology (cube_declarations 2) 2 (Convert_cube 2)
    (GenericReferenceElement_default 2) None empty_heap
  = None.
Proof.
  apply (stale_numCorners_reads_past_the_end (cube_declarations 2) 2
           (Convert_cube 2) (GenericReferenceElement_default 2) empty_heap
           1 0 2 4);
    [lia | reflexivity | reflexivity | lia].
Defined.

(** On the square the first edge has two corners, the count kept from the
    cell is four, and the third corner number of the edge does not exist. *)
Lemma square_edge_read_past_the_end :
  let re1 := call_Base_initializeTopology (cube_declarations 2) 2
               (Convert_cube 2) (GenericReferenceElement_default 2) in
  size_sub 2 re1 0 0 2 = Some 4%nat
  /\ size_sub 2 re1 0 1 2 = Some 2%nat
  /\ subEntity 2 re1 0 1 2 2 = None
  /\ (exists st, barycenter_codim 2 re1 0
                   ([[]; []; [[0; 0]; [1; 0]; [0; 1]; [1; 1]]]%Q, None)
                 = Some st /\ st.2 = Some 4%nat)
  /\ barycenter_body 2 re1 1 0
       ([[[1 # 2; 1 # 2]]; [[0; 0]; [0; 0]; [0; 0]; [0; 0]];
         [[0; 0]; [1; 0]; [0; 1]; [1; 1]]]%Q, Some 4%nat)
     = None.
Proof.
  repeat split; try reflexivity.
  eexists. split; vm_compute; reflexivity.
Qed.

(** On the line, whose only subentity below the vertices is the cell, the
    same code is defined and the barycenter is the midpoint. *)
Lemma line_initializeTopology_defined :
  exists re static heap,
    initializeTopology (cube_declarations 1) 1 (Convert_cube 1)
      (GenericReferenceElement_default 1) None empty_heap
    = Some (re, static, heap)
    /\ position re 0 0 = Some [1 # 2]%Q
    /\ position re 0 1 = Some [0]%Q
    /\ position re 1 1 = Some [1]%Q
    /\ mappings_ re = [[0]; [1; 2]]%nat.
Proof.
  do 3 eexists. split; [vm_compute; reflexivity|].
  repeat split; reflexivity.
Qed.

(** ** The trace provider *)

Lemma length_foldl_insert {A : Type} (g : nat -> A) (ix : list nat)
    (l : list A) :
  length (foldl (fun acc i => <[i := g i]> acc) l ix) = length l.
Proof.
  revert l. induction ix as [|i ix IH]; intros l; simpl; [reflexivity|].
  rewrite IH. apply length_insert.
Qed.

(** A loop that writes the element at its index in every round. *)
Lemma foldl_insert_seq_lookup {A : Type} (g : nat -> A) (n : nat)
    (l : list A) (j : nat) :
  (j < n)%nat -> (j < length l)%nat ->
  foldl (fun acc i => <[i := g i]> acc) l (seq 0 n) !! j = Some (g j).
Proof.
  induction n as [|n IH]; intros Hj Hl; [lia|].
  rewrite seq_S, foldl_app. simpl.
  destruct (decide (n = j)) as [-> | Hne].
  - apply list_lookup_insert_eq. rewrite length_foldl_insert. exact Hl.
  - rewrite list_lookup_insert_ne by exact Hne. apply IH; lia.
Qed.

Section TraceProviderFacts.
Variable Topology : Topology.t.
Variable codim : nat.
Variable forceHybrid : bool.
Variable IsCodimHybrid : Topology.t -> nat -> bool.
Variable SubTopology : Topology.t -> nat -> nat -> Topology.t.
Variable numSubTopologies : nat.
Variable Mapping : Type.
Variable SubCoords : Type.
Variable Mapping_trace : Mapping -> nat -> nat -> SubCoords.

Let table :=
  TraceProvider.constructor Topology codim forceHybrid IsCodimHybrid
    SubTopology numSubTopologies Mapping SubCoords Mapping_trace.

Lemma constructor_binds_entry (i : nat) :
  (i < numSubTopologies)%nat ->
  table !! i
  = Some (Some (TraceProvider.Factory_construct Topology codim forceHybrid
                  IsCodimHybrid SubTopology Mapping SubCoords Mapping_trace i)).
Proof.
  intros Hi. unfold table, TraceProvider.constructor, ForLoop.
  unfold TraceProvider.Builder_apply.
  replace (S (numSubTopologies - 1) - 0)%nat with numSubTopologies by lia.
  rewrite (foldl_insert_seq_lookup
             (fun i => Some (TraceProvider.Factory_construct Topology codim
                               forceHybrid IsCodimHybrid SubTopology Mapping
                               SubCoords Mapping_trace i)));
    [reflexivity | exact Hi | rewrite length_replicate; exact Hi].
Qed.

(** C6.  For every index below [numSubTopologies], the table built by the
    constructor holds [Factory::construct< i >] at [i], and [construct]
    calls that entry: it returns the caller's storage pointer, with the
    trace placed at that address, a [VirtualMapping] over the [i]-th
    subtopology in hybrid mode and a [CachedMapping] over subtopology 0
    otherwise; the table is the one static instance, constructed once. *)
Theorem construct_dispatches_by_mode (mapping : Mapping) (i : nat)
    (traceStorage : ptr)
    (s : Static.cell (list (option (TraceProvider.Construct Mapping SubCoords))))
    (mem : TraceProvider.Storage SubCoords) :
  (i < numSubTopologies)%nat ->
  Static.valid table s ->
  table !! i
  = Some (Some (TraceProvider.Factory_construct Topology codim forceHybrid
                  IsCodimHybrid SubTopology Mapping SubCoords Mapping_trace i))
  /\ TraceProvider.construct Topology codim forceHybrid IsCodimHybrid
       SubTopology numSubTopologies Mapping SubCoords Mapping_trace
       mapping i traceStorage s mem
     = (Some (traceStorage,
              <[traceStorage :=
                  if forceHybrid || IsCodimHybrid Topology codim
                  then TraceProvider.VirtualMapping
                         (SubTopology Topology codim i)
                         (Mapping_trace mapping codim i)
                  else TraceProvider.CachedMapping
                         (SubTopology Topology codim 0)
                         (Mapping_trace mapping codim i)]> mem),
        Static.mkCell (Some table) 1).
Proof.
  intros Hi Hs. split; [apply constructor_binds_entry; exact Hi|].
  unfold TraceProvider.construct, TraceProvider.instance. fold table.
  assert (Hget : Static.get table s = (table, Static.mkCell (Some table) 1)).
  { destruct Hs as [-> | ->]; reflexivity. }
  rewrite Hget. cbv beta iota.
  pose proof (constructor_binds_entry i Hi) as He.
  unfold TraceProvider.Construct in *. rewrite He.
  cbn [mbind option_bind id].
  unfold TraceProvider.Factory_construct, TraceProvider.hybrid.
  destruct (forceHybrid || IsCodimHybrid Topology codim); reflexivity.
Qed.
End TraceProviderFacts.

(** The edges of the square, not hybrid: edge 2 placed at address 7. *)
Lemma construct_dispatches_by_mode_witness :
  TraceProvider.construct (Convert_cube 2) 1 false (fun _ _ => false)
    cube_SubTopology 4 unit Coords (fun _ => SubMappingCoords)
    tt 2 7%nat Static.fresh ∅
  = (Some (7%nat,
           <[7%nat := TraceProvider.CachedMapping (Convert_cube 1)
                        (SubMappingCoords 1 2)]> ∅),
     Static.mkCell
       (Some (TraceProvider.constructor (Convert_cube 2) 1 false
                (fun _ _ => false) cube_SubTopology 4 unit Coords
                (fun _ => SubMappingCoords)))
       1).
Proof.
  apply (construct_dispatches_by_mode (Convert_cube 2) 1 false
           (fun _ _ => false) cube_SubTopology 4 unit Coords
           (fun _ => SubMappingCoords) tt 2 7%nat Static.fresh ∅);
    [lia | left; reflexivity].
Defined.

(** ** global with a redundant codimension argument *)

(** C7.  [global< codim >( local, i, c )] throws exactly when [c] differs
    from [codim]; when they agree it returns what
    [mapping< codim >( i ).global( local )] returns, and when they differ it
    returns no coordinate at all.  The element and the free store are
    arguments only: the call leaves them as they are. *)
Theorem global_throws_iff_codim_differs {GeometryType : Type}
    (D : Declarations GeometryType)
    (re : GenericReferenceElement GeometryType) (heap : Heap)
    (codim : nat) (local : FieldVector) (i : nat) (c : Z) :
  ((exists what, global D re heap codim local i c = Thrown what)
   <-> c <> Z.of_nat codim)
  /\ (c = Z.of_nat codim ->
      global D re heap codim local i c
      = match mapping re heap codim i with
        | Some m => Returned (HybridMapping_global D m local)
        | None => Undefined
        end)
  /\ (c <> Z.of_nat codim ->
      forall x, global D re heap codim local i c <> Returned x).
Proof.
  unfold global. destruct (decide (c <> Z.of_nat codim)) as [Hne | Heq].
  - split; [|split].
    + split; [intros _; exact Hne | intros _; eexists; reflexivity].
    + intros Heq. contradiction.
    + intros _ x Hx. discriminate Hx.
  - split; [|split].
    + split; [|intros Hne; contradiction].
      intros [what Hw]. destruct (mapping re heap codim i); discriminate Hw.
    + intros _. reflexivity.
    + intros Hne. contradiction.
Qed.

(** The line: vertex 1 maps to the corner (1); asking for the cell with the
    vertex codimension throws. *)
Lemma global_throws_iff_codim_differs_witness :
  global (cube_declarations 1) line_element line_heap 1 [] 1 1
  = Returned [1]%Q
  /\ (exists what,
        global (cube_declarations 1) line_element line_heap 0 [1 # 3]%Q 0 1
        = Thrown what).
Proof.
  split.
  - destruct (global_throws_iff_codim_differs (cube_declarations 1)
                line_element line_heap 1 [] 1 1) as (_ & Hreturn & _).
    rewrite Hreturn by reflexivity. reflexivity.
  - destruct (global_throws_iff_codim_differs (cube_declarations 1)
                line_element line_heap 0 [1 # 3]%Q 0 1) as (Hthrow & _ & _).
    apply Hthrow. discriminate.
Defined.

(** ** The destructor *)

Lemma foldl_app_flat_map {A B : Type} (f : A -> list B) (l : list A)
    (acc : list B) :
  foldl (fun tr x => tr ++ f x) acc l = acc ++ flat_map f l.
Proof.
  revert acc. induction l as [|x l IH]; intros acc; simpl.
  - rewrite app_nil_r. reflexivity.
  - rewrite IH, <- app_assoc. reflexivity.
Qed.

Lemma Destroy_apply_events (mappings : list (list ptr)) (codim : nat)
    (trace : list Event) :
  Destroy_apply mappings codim trace = trace ++ level_events mappings codim.
Proof. unfold Destroy_apply, level_events. apply foldl_app_flat_map. Qed.

Lemma Destroy_loop_events (mappings : list (list ptr)) (first n : nat) :
  foldl (fun acc c => Destroy_apply mappings c acc) [] (seq first n)
  = flat_map (level_events mappings) (seq first n).
Proof.
  rewrite <- (app_nil_l (flat_map _ _)). generalize (@nil Event) as acc.
  revert first. induction n as [|n IH]; intros first acc; simpl.
  - rewrite app_nil_r. reflexivity.
  - rewrite IH, Destroy_apply_events, <- app_assoc. reflexivity.
Qed.

(** The trace of the destructor: the levels 1 to [dim] in turn, then the
    codimension-0 mapping. *)
Lemma destructor_trace {GeometryType : Type} (dim : nat)
    (re : GenericReferenceElement GeometryType) :
  destructor dim re
  = flat_map (level_events (mappings_ re)) (seq 1 dim)
    ++ match mappings_ re !! 0%nat with
       | Some (p :: _) => [Delete p]
       | _ => []
       end.
Proof.
  unfold destructor, ForLoop.
  replace (S dim - 1)%nat with dim by lia.
  rewrite Destroy_loop_events.
  destruct (mappings_ re !! 0%nat) as [[|p ms]|]; rewrite ?app_nil_r; reflexivity.
Qed.

Lemma level_events_codim (mappings : list (list ptr)) (codim : nat) (e : Event) :
  In e (level_events mappings codim) ->
  exists p, e = DestructorCall codim p \/ e = DeleteArray p.
Proof.
  unfold level_events. rewrite in_flat_map. intros (p & _ & Hin).
  exists p. simpl in Hin. destruct Hin as [<- | [<- | []]]; [left | right]; reflexivity.
Qed.

Lemma loop_events_codim (mappings : list (list ptr)) (first n : nat) (e : Event) :
  In e (flat_map (level_events mappings) (seq first n)) ->
  exists c p, (first <= c < first + n)%nat
              /\ (e = DestructorCall c p \/ e = DeleteArray p).
Proof.
  rewrite in_flat_map. intros (c & Hc & Hin). apply in_seq in Hc.
  destruct (level_events_codim _ _ _ Hin) as [p Hp]. exists c, p. split; assumption.
Qed.

Lemma lookup_In {A : Type} (l : list A) (k : nat) (x : A) :
  l !! k = Some x -> In x l.
Proof. intros H. apply list_elem_of_In. eapply list_elem_of_lookup_2. exact H. Qed.

Lemma increasing_codim_order_app (tr1 tr2 : list Event) (m : nat) :
  increasing_codim_order tr1 ->
  increasing_codim_order tr2 ->
  (forall c p, In (DestructorCall c p) tr1 -> (c <= m)%nat) ->
  (forall c p, In (DestructorCall c p) tr2 -> (m <= c)%nat) ->
  increasing_codim_order (tr1 ++ tr2).
Proof.
  intros H1 H2 Hlo Hhi k1 k2 c1 c2 p1 p2 Hk Hk1 Hk2.
  destruct (decide (k2 < length tr1)%nat) as [Hin2 | Hout2].
  - rewrite lookup_app_l in Hk1, Hk2 by lia. eapply (H1 k1 k2); eassumption.
  - rewrite lookup_app_r in Hk2 by lia.
    pose proof (Hhi _ _ (lookup_In _ _ _ Hk2)) as Hc2.
    destruct (decide (k1 < length tr1)%nat) as [Hin1 | Hout1].
    + rewrite lookup_app_l in Hk1 by lia.
      pose proof (Hlo _ _ (lookup_In _ _ _ Hk1)). lia.
    + rewrite lookup_app_r in Hk1 by lia.
      eapply (H2 (k1 - length tr1)%nat (k2 - length tr1)%nat); try eassumption. lia.
Qed.

Lemma increasing_codim_order_level (mappings : list (list ptr)) (codim : nat) :
  increasing_codim_order (level_events mappings codim).
Proof.
  intros k1 k2 c1 c2 p1 p2 _ Hk1 Hk2.
  destruct (level_events_codim _ _ _ (lookup_In _ _ _ Hk1)) as [q1 [E1 | E1]];
    [|discriminate E1].
  destruct (level_events_codim _ _ _ (lookup_In _ _ _ Hk2)) as [q2 [E2 | E2]];
    [|discriminate E2].
  injection E1 as -> _. injection E2 as -> _. lia.
Qed.

Lemma increasing_codim_order_loop (mappings : list (list ptr)) (first n : nat) :
  increasing_codim_order (flat_map (level_events mappings) (seq first n)).
Proof.
  induction n as [|n IH].
  - intros k1 k2 c1 c2 p1 p2 _ Hk1 _. simpl in Hk1. discriminate Hk1.
  - rewrite seq_S, flat_map_app. simpl. rewrite app_nil_r.
    apply (increasing_codim_order_app _ _ (first + n)%nat).
    + exact IH.
    + apply increasing_codim_order_level.
    + intros c p Hin. destruct (loop_events_codim _ _ _ _ Hin) as (c' & p' & Hc' & [E | E]);
        [injection E as -> _; lia | discriminate E].
    + intros c p Hin. destruct (level_events_codim _ _ _ Hin) as [p' [E | E]];
        [injection E as -> _; lia | discriminate E].
Qed.

Lemma plain_deletes_loop (mappings : list (list ptr)) (first n : nat) :
  plain_deletes (flat_map (level_events mappings) (seq first n)) = [].
Proof.
  unfold plain_deletes.
  destruct (omap _ _) as [|p l] eqn:Hom; [reflexivity|].
  assert (Hin : p ∈ omap (fun e => match e with Delete p => Some p | _ => None end)
                  (flat_map (level_events mappings) (seq first n))).
  { rewrite Hom. left. }
  apply list_elem_of_omap in Hin. destruct Hin as (e & He & Hp).
  apply list_elem_of_In in He.
  destruct (loop_events_codim _ _ _ _ He) as (c' & p' & _ & [-> | ->]); discriminate Hp.
Qed.

(** C8, as amended.  In the trace of the destructor every mapping of a
    codimension from 1 to [dim] has its destructor called directly before
    its buffer is released with [delete[]]; the levels are destroyed in
    increasing codimension order; and the codimension-0 mapping is the only
    one released by a plain [delete], as the last step, if it exists. *)
Theorem destructor_destroys_levels_in_increasing_order {GeometryType : Type}
    (dim : nat) (re : GenericReferenceElement GeometryType) :
  (forall c i p,
      (1 <= c <= dim)%nat ->
      mappings_ re !! c ≫= (.!! i) = Some p ->
      exists pre post,
        destructor dim re = pre ++ DestructorCall c p :: DeleteArray p :: post)
  /\ increasing_codim_order (destructor dim re)
  /\ (forall k c p,
        destructor dim re !! k = Some (DestructorCall c p) ->
        (1 <= c <= dim)%nat)
  /\ plain_deletes (destructor dim re)
     = match mappings_ re !! 0%nat with
       | Some (p :: _) => [p]
       | _ => []
       end
  /\ (forall p rest,
        mappings_ re !! 0%nat = Some (p :: rest) ->
        exists pre, destructor dim re = pre ++ [Delete p]).
Proof.
  rewrite destructor_trace.
  set (tail := match mappings_ re !! 0%nat with
               | Some (p :: _) => [Delete p]
               | _ => []
               end).
  assert (Htail : forall c p, ~ In (DestructorCall c p) tail).
  { intros c p. unfold tail.
    destruct (mappings_ re !! 0%nat) as [[|q ms]|]; simpl; intros H;
      try destruct H as [H | []]; try discriminate H; exact H. }
  split; [|split; [|split; [|split]]].
  - intros c i p Hc Hp.
    destruct (mappings_ re !! c) as [level|] eqn:Hlevel;
      cbn [mbind option_bind] in Hp; [|discriminate Hp].
    pose proof (take_drop_middle level i p Hp) as Hsplit.
    set (l1 := take i level) in Hsplit. set (l2 := drop (S i) level) in Hsplit.
    exists (flat_map (level_events (mappings_ re)) (seq 1 (c - 1))
            ++ flat_map (fun q => [DestructorCall c q; DeleteArray q]) l1),
           (flat_map (fun q => [DestructorCall c q; DeleteArray q]) l2
            ++ flat_map (level_events (mappings_ re)) (seq (S c) (dim - S (c - 1)))
            ++ tail).
    rewrite (seq_split_at 1 dim (c - 1)) by lia.
    replace (1 + (c - 1))%nat with c by lia.
    rewrite flat_map_app. cbn [flat_map].
    unfold level_events at 2. rewrite Hlevel. cbn [from_option id].
    rewrite <- Hsplit.
    rewrite flat_map_app. cbn [flat_map].
    rewrite <- !app_assoc. cbn [app]. reflexivity.
  - apply (increasing_codim_order_app _ _ dim).
    + apply increasing_codim_order_loop.
    + intros k1 k2 c1 c2 p1 p2 _ Hk1 _.
      exfalso. exact (Htail _ _ (lookup_In _ _ _ Hk1)).
    + intros c p Hin.
      destruct (loop_events_codim _ _ _ _ Hin) as (c' & p' & Hc' & [E | E]);
        [injection E as -> _; lia | discriminate E].
    + intros c p Hin. exfalso. exact (Htail _ _ Hin).
  - intros k c p Hk. apply lookup_In in Hk. apply in_app_or in Hk.
    destruct Hk as [Hin | Hin]; [|exfalso; exact (Htail _ _ Hin)].
    destruct (loop_events_codim _ _ _ _ Hin) as (c' & p' & Hc' & [E | E]);
      [injection E as -> _; lia | discriminate E].
  - unfold plain_deletes. rewrite omap_app.
    fold (plain_deletes (flat_map (level_events (mappings_ re)) (seq 1 dim))).
    rewrite plain_deletes_loop. unfold tail.
    destruct (mappings_ re !! 0%nat) as [[|q ms]|]; reflexivity.
  - intros p rest Hp. unfold tail. rewrite Hp. eexists. reflexivity.
Qed.

(** C8 as stated fails on the square: the first edge (codimension 1) is
    destroyed before the first vertex (codimension 2). *)
Lemma square_destructor_not_in_reverse_order :
  destructor 2 square_element !! 0%nat = Some (DestructorCall 1 1%nat)
  /\ destructor 2 square_element !! 8%nat = Some (DestructorCall 2 5%nat)
  /\ ~ reverse_codim_order (destructor 2 square_element).
Proof.
  split; [reflexivity|]. split; [reflexivity|].
  intros H.
  specialize (H 0%nat 8%nat 1%nat 2%nat 1%nat 5%nat ltac:(lia) eq_refl eq_refl).
  lia.
Qed.

(** The square: vertex 1, whose mapping lives at address 6. *)
Lemma destructor_destroys_levels_in_increasing_order_witness :
  exists pre post,
    destructor 2 square_element
    = pre ++ DestructorCall 2 6%nat :: DeleteArray 6%nat :: post.
Proof.
  apply (proj1 (destructor_destroys_levels_in_increasing_order 2 square_element)
           2%nat 1%nat 6%nat); [lia | reflexivity].
Defined.
(** ** The container and the registry *)

Section RegistryFacts.
Context {GeometryType : Type}.
Variable D : Declarations GeometryType.
Variable dim : nat.
Variable GeometryType_dim : GeometryType -> N.
Variable GeometryType_id : GeometryType -> N.

Let answer :=
  Container.answer (GeometryType:=GeometryType) dim GeometryType_dim
    GeometryType_id.

Let run :=
  GenericReferenceElements.run D dim GeometryType_dim GeometryType_id.

Hypothesis dim_lt_32 : (dim < 32)%nat.




Section Built.
(** A container whose construction completed. *)
Variable g : Container.Globals.
Variable values : list (Container.value_type (GeometryType:=GeometryType)).
Variable g' : Container.Globals.
Hypothesis Hbuilt : Container.constructor D dim g = Some (values, g').





End Built.




End RegistryFacts.



(** From dimension 2 on the construction meets the stale corner count of
    the barycenter loop: with the declarations of the square the first
    builder already reads past the end of a numbering vector, so the
    constructor has no defined result. *)
Lemma square_container_undefined :
  Container.constructor (cube_declarations 2) 2 fresh_globals = None.
Proof. vm_compute. reflexivity. Qed.

(** * Further properties *)

(** ** Static and dynamic conversion of topologies *)

Lemma id_lt_pow2 (T : Topology.t) :
  Topology.id T < 2 ^ N.of_nat (Topology.dimension T).
Proof.
  induction T as [|B IH|B IH]; cbn [Topology.id Topology.dimension].
  - reflexivity.
  - rewrite Nat2N.inj_succ, N.pow_succ_r'. lia.
  - rewrite Nat2N.inj_succ, N.pow_succ_r'. lia.
Qed.

Lemma half_add_pow2 (a n : N) : (a + 2 ^ N.succ n) / 2 = a / 2 + 2 ^ n.
Proof.
  rewrite N.pow_succ_r', (N.mul_comm 2). apply N.div_add. lia.
Qed.

Lemma half_small (a : N) : a < 2 -> a / 2 = 0.
Proof. intros H. apply N.div_small. exact H. Qed.

(** Where a topology with a static basic type sits among the ids of its
    dimension. *)
Lemma basicType_half_id (T : Topology.t) (linetype b : BasicType) :
  DuneGeometryType_basicType T linetype = Some b ->
  match Topology.dimension T with
  | O | S O => b = linetype
  | S (S m) =>
      (b = simplex /\ Topology.id T / 2 = 0)
      \/ (b = cube /\ Topology.id T / 2 + 1 = 2 ^ N.of_nat (S m))
      \/ ((1 <= m)%nat /\ b = prism /\ Topology.id T / 2 = 2 ^ N.of_nat m)
      \/ ((1 <= m)%nat /\ b = pyramid
          /\ Topology.id T / 2 + 1 = 2 ^ N.of_nat m)
  end.
Proof.
  revert b. induction T as [|B IH|B IH]; intros b Hb.
  - cbn in Hb. destruct (simplex_or_cube linetype); congruence.
  - cbn [DuneGeometryType_basicType] in Hb.
    destruct (simplex_or_cube linetype); [|discriminate Hb].
    destruct (DuneGeometryType_basicType B linetype) as [base|] eqn:Hbase;
      cbn [mbind option_bind] in Hb; [|discriminate Hb].
    specialize (IH base eq_refl).
    pose proof (id_lt_pow2 B) as Hid.
    cbn [Topology.dimension Topology.id].
    destruct (Topology.dimension B) as [|[|m]].
    + destruct (simplex_or_cube base); [|discriminate Hb].
      cbn in Hb. congruence.
    + destruct (simplex_or_cube base); [|discriminate Hb].
      cbn in Hb. injection Hb as <-. right. left. split; [reflexivity|].
      change (2 ^ N.of_nat 1) with 2 in *.
      replace (Topology.id B + 2) with (Topology.id B + 1 * 2) by lia.
      rewrite N.div_add by lia. rewrite half_small by exact Hid. reflexivity.
    + replace (N.of_nat (S (S m))) with (N.succ (N.of_nat (S m))) by lia.
      rewrite half_add_pow2.
      destruct IH as [[-> Hk] | [[-> Hk] | [(_ & -> & _) | (_ & -> & _)]]];
        cbn in Hb; try discriminate Hb; injection Hb as <-.
      * right. right. left. split; [lia|]. split; [reflexivity|].
        rewrite Hk. reflexivity.
      * right. left. split; [reflexivity|].
        replace (N.of_nat (S (S m))) with (N.succ (N.of_nat (S m))) by lia.
        rewrite N.pow_succ_r'. lia.
  - cbn [DuneGeometryType_basicType] in Hb.
    destruct (simplex_or_cube linetype); [|discriminate Hb].
    destruct (DuneGeometryType_basicType B linetype) as [base|] eqn:Hbase;
      cbn [mbind option_bind] in Hb; [|discriminate Hb].
    specialize (IH base eq_refl).
    pose proof (id_lt_pow2 B) as Hid.
    cbn [Topology.dimension Topology.id].
    destruct (Topology.dimension B) as [|[|m]].
    + destruct (simplex_or_cube base); [|discriminate Hb].
      cbn in Hb. congruence.
    + destruct (simplex_or_cube base); [|discriminate Hb].
      cbn in Hb. injection Hb as <-. left. split; [reflexivity|].
      apply half_small. exact Hid.
    + destruct IH as [[-> Hk] | [[-> Hk] | [(_ & -> & _) | (_ & -> & _)]]];
        cbn in Hb; try discriminate Hb; injection Hb as <-.
      * left. split; [reflexivity | exact Hk].
      * right. right. right. split; [lia|]. split; [reflexivity | exact Hk].
Qed.

Lemma type_in_range (dim : nat) (linetype : BasicType) (t : N) :
  (dim < 32)%nat ->
  t < 2 ^ N.of_nat dim ->
  DuneGeometryTypeProvider.type dim linetype t
  = DuneGeometryTypeProvider.constructor dim linetype !! N.to_nat (t / 2).
Proof.
  intros H32 Ht. unfold DuneGeometryTypeProvider.type,
    DuneGeometryTypeProvider.instance, DuneGeometryTypeProvider.numTopologies,
    DuneGeometryTypeProvider.dimension.
  rewrite shl_1_small by lia.
  replace (t <? 2 ^ N.of_nat dim) with true by (symmetry; apply N.ltb_lt; exact Ht).
  reflexivity.
Qed.

(** The four named entries of the array for a dimension above 3. *)
Lemma constructor_above_3_lookup (dim : nat) (linetype : BasicType) (p : N) :
  let D := N.of_nat dim in
  3 < D -> D < 32 ->
  2 ^ (D - 2) = p -> 2 ^ (D - 1) = 2 * p -> 2 ^ D = 4 * p ->
  let types := DuneGeometryTypeProvider.constructor dim linetype in
  types !! N.to_nat 0 = Some (mkGeometryType simplex D)
  /\ types !! N.to_nat (2 * p - 1) = Some (mkGeometryType cube D)
  /\ types !! N.to_nat p = Some (mkGeometryType prism D)
  /\ types !! N.to_nat (p - 1) = Some (mkGeometryType pyramid D).
Proof.
  intros D H3 H32 Hp2 Hp1 Hp0 types.
  assert (Hp4 : 4 <= p).
  { rewrite <- Hp2. change 4 with (2 ^ 2). apply N.pow_le_mono_r; lia. }
  unfold types.
  rewrite (constructor_above_3 dim linetype p) by (fold D; first [lia | assumption]).
  fold D. repeat split.
  - rewrite list_lookup_alter_ne by lia.
    rewrite !list_lookup_insert_ne by lia.
    rewrite list_lookup_alter_eq, lookup_replicate_2 by lia. reflexivity.
  - rewrite list_lookup_alter_eq.
    rewrite !list_lookup_insert_ne by lia.
    rewrite list_lookup_alter_ne by lia.
    rewrite lookup_replicate_2 by lia. reflexivity.
  - rewrite list_lookup_alter_ne by lia.
    rewrite list_lookup_insert_ne by lia.
    rewrite list_lookup_insert_eq; [reflexivity|].
    rewrite length_alter, length_replicate. lia.
  - rewrite list_lookup_alter_ne by lia.
    rewrite list_lookup_insert_eq; [reflexivity|].
    rewrite length_insert, length_alter, length_replicate. lia.
Qed.

(** X1.  The type that the class template DuneGeometryType computes for a
    topology at compile time is the type that DuneGeometryTypeProvider
    returns at run time for the topology's id, for every topology of
    dimension below 32 on which the template is defined. *)
Theorem static_and_dynamic_types_agree (T : Topology.t)
    (linetype : BasicType) (g : GeometryType) :
  (Topology.dimension T < 32)%nat ->
  DuneGeometryType_type T linetype = Some g ->
  DuneGeometryTypeProvider.type (Topology.dimension T) linetype (Topology.id T)
  = Some g.
Proof.
  intros H32 Hg. unfold DuneGeometryType_type in Hg.
  destruct (DuneGeometryType_basicType T linetype) as [b|] eqn:Hb;
    cbn [mbind option_bind] in Hg; [|discriminate Hg].
  injection Hg as <-.
  pose proof (basicType_half_id T linetype b Hb) as Hchar.
  pose proof (id_lt_pow2 T) as Hid.
  rewrite type_in_range by assumption.
  destruct (Topology.dimension T) as [|[|[|[|m]]]] eqn:Hdim.
  - subst b. rewrite half_small by (cbn in Hid; lia). reflexivity.
  - subst b. rewrite half_small by (cbn in Hid; lia). reflexivity.
  - destruct Hchar as [[-> Hk] | [[-> Hk] | [(Hm & _) | (Hm & _)]]]; try lia.
    + rewrite Hk. reflexivity.
    + replace (Topology.id T / 2) with 1 by (cbn in Hk; lia). reflexivity.
  - destruct Hchar as [[-> Hk] | [[-> Hk] | [(_ & -> & Hk) | (_ & -> & Hk)]]].
    + rewrite Hk. reflexivity.
    + replace (Topology.id T / 2) with 3 by (cbn in Hk; lia). reflexivity.
    + rewrite Hk. reflexivity.
    + replace (Topology.id T / 2) with 1 by (cbn in Hk; lia). reflexivity.
  - set (dim := S (S (S (S m)))) in *. set (D := N.of_nat dim).
    destruct (pow2_split D ltac:(subst D dim; lia)) as (p & Hp & Hp2 & Hp1 & Hp0).
    destruct (constructor_above_3_lookup dim linetype p
                ltac:(subst D dim; lia) ltac:(subst D dim; lia)
                Hp2 Hp1 Hp0) as (Hs & Hc & Hpr & Hpy).
    assert (HD2 : N.of_nat (S (S m)) = D - 2) by (subst D dim; lia).
    assert (HD1 : N.of_nat (S (S (S m))) = D - 1) by (subst D dim; lia).
    rewrite HD2, HD1, Hp2, Hp1 in Hchar.
    destruct Hchar as [[-> Hk] | [[-> Hk] | [(_ & -> & Hk) | (_ & -> & Hk)]]].
    + rewrite Hk. exact Hs.
    + replace (Topology.id T / 2) with (2 * p - 1) by lia. exact Hc.
    + rewrite Hk. exact Hpr.
    + replace (Topology.id T / 2) with (p - 1) by lia. exact Hpy.
Qed.

Lemma static_and_dynamic_types_agree_witness :
  DuneGeometryTypeProvider.type 4 cube 9 = Some (mkGeometryType prism 4).
Proof.
  apply (static_and_dynamic_types_agree (Topology.of_id 9 4) cube
           (mkGeometryType prism 4));
    [change (4 < 32)%nat; lia | reflexivity].
Defined.


(** ** Round trips through Convert *)

Lemma basicType_Convert_simplex (linetype : BasicType) (dim : nat) :
  simplex_or_cube linetype = true ->
  DuneGeometryType_basicType (Convert_simplex dim) linetype
  = Some (if Nat.leb dim 1 then linetype else simplex).
Proof.
  intros Hlt. induction dim as [|d IH].
  - cbn. rewrite Hlt. reflexivity.
  - cbn [Convert_simplex DuneGeometryType_basicType]. rewrite Hlt, IH.
    cbn [mbind option_bind]. rewrite dimension_Convert_simplex.
    destruct d as [|[|d]]; cbn; rewrite ?Hlt; reflexivity.
Qed.

Lemma basicType_Convert_cube (linetype : BasicType) (dim : nat) :
  simplex_or_cube linetype = true ->
  DuneGeometryType_basicType (Convert_cube dim) linetype
  = Some (if Nat.leb dim 1 then linetype else cube).
Proof.
  intros Hlt. induction dim as [|d IH].
  - cbn. rewrite Hlt. reflexivity.
  - cbn [Convert_cube DuneGeometryType_basicType]. rewrite Hlt, IH.
    cbn [mbind option_bind]. rewrite dimension_Convert_cube.
    destruct d as [|[|d]]; cbn; rewrite ?Hlt; reflexivity.
Qed.

Lemma dimension_Convert (b : BasicType) (dim : nat) (T : Topology.t) :
  Convert b dim = Some T -> Topology.dimension T = dim.
Proof.
  destruct b, dim as [|d]; cbn [Convert]; intros [= <-];
    cbn [Topology.dimension Convert_simplex Convert_cube];
    rewrite ?dimension_Convert_simplex, ?dimension_Convert_cube; reflexivity.
Qed.

(** X2.  Convert followed by DuneGeometryType gives back the basic type
    from dimension 3 on; in dimension 2 a prism comes back as a cube and a
    pyramid as a simplex; in dimension 0 and 1 the line type comes back.
    The converted topology always has the requested dimension. *)
Theorem DuneGeometryType_of_Convert (b linetype : BasicType) (dim : nat)
    (T : Topology.t) :
  simplex_or_cube linetype = true ->
  Convert b dim = Some T ->
  Topology.dimension T = dim
  /\ ((3 <= dim)%nat -> DuneGeometryType_basicType T linetype = Some b)
  /\ (dim = 2%nat ->
      DuneGeometryType_basicType T linetype
      = Some (match b with
              | prism => cube
              | pyramid => simplex
              | _ => b
              end))
  /\ ((dim <= 1)%nat -> DuneGeometryType_basicType T linetype = Some linetype).
Proof.
  intros Hlt HT. split; [eapply dimension_Convert; exact HT|].
  destruct b; cbn [Convert] in HT.
  - injection HT as <-. rewrite basicType_Convert_simplex by exact Hlt.
    repeat split; intros Hd; destruct dim as [|[|[|d]]]; try lia; reflexivity.
  - injection HT as <-. rewrite basicType_Convert_cube by exact Hlt.
    repeat split; intros Hd; destruct dim as [|[|[|d]]]; try lia; reflexivity.
  - destruct dim as [|d]; [discriminate HT|]. injection HT as <-.
    cbn [DuneGeometryType_basicType]. rewrite Hlt.
    rewrite basicType_Convert_cube by exact Hlt. cbn [mbind option_bind].
    rewrite dimension_Convert_cube.
    repeat split; intros Hd; destruct d as [|[|d]]; try lia; cbn;
      rewrite ?Hlt; reflexivity.
  - destruct dim as [|d]; [discriminate HT|]. injection HT as <-.
    cbn [DuneGeometryType_basicType]. rewrite Hlt.
    rewrite basicType_Convert_simplex by exact Hlt. cbn [mbind option_bind].
    rewrite dimension_Convert_simplex.
    repeat split; intros Hd; destruct d as [|[|d]]; try lia; cbn;
      rewrite ?Hlt; reflexivity.
  - destruct dim; discriminate HT.
Qed.

Lemma DuneGeometryType_of_Convert_witness :
  DuneGeometryType_basicType
    (Topology.Pyramid (Convert_cube 4)) simplex
  = Some pyramid.
Proof.
  apply (DuneGeometryType_of_Convert pyramid simplex 5
           (Topology.Pyramid (Convert_cube 4)) eq_refl eq_refl).
  lia.
Defined.

(** X3.  For 2 <= dim < 32 the dynamic provider, asked for the id of the
    topology that Convert builds for a basic type, answers that basic type
    in that dimension (prisms and pyramids from dimension 3 on). *)
Theorem type_of_Convert_id (b linetype : BasicType) (dim : nat)
    (T : Topology.t) :
  Convert b dim = Some T ->
  (2 <= dim < 32)%nat ->
  (b = prism \/ b = pyramid -> (3 <= dim)%nat) ->
  DuneGeometryTypeProvider.type dim linetype (Topology.id T)
  = Some (mkGeometryType b (N.of_nat dim)).
Proof.
  intros HT Hdim Hb.
  pose proof (id_lt_pow2 T) as Hid.
  rewrite (dimension_Convert b dim T HT) in Hid.
  rewrite type_in_range by (try assumption; lia).
  destruct dim as [|[|[|[|m]]]]; try lia.
  - destruct b; cbn [Convert] in HT; try (injection HT as <-; reflexivity).
    + exfalso. specialize (Hb (or_intror eq_refl)). lia.
    + exfalso. specialize (Hb (or_introl eq_refl)). lia.
    + discriminate HT.
  - destruct b; cbn [Convert] in HT; try (injection HT as <-; reflexivity).
    discriminate HT.
  - remember (S (S (S m))) as d eqn:Ed.
    set (D := N.of_nat (S d)).
    destruct (pow2_split D ltac:(subst D d; lia)) as (p & Hp & Hp2 & Hp1 & Hp0).
    destruct (constructor_above_3_lookup (S d) linetype p
                ltac:(subst D d; lia) ltac:(subst D d; lia)
                Hp2 Hp1 Hp0) as (Hs & Hc & Hpr & Hpy).
    assert (HD1 : N.of_nat d = D - 1) by (subst D; lia).
    destruct b; unfold Convert in HT.
    + injection HT as <-. cbn [Topology.id]. rewrite id_Convert_simplex. exact Hs.
    + injection HT as <-. cbn [Topology.id].
      pose proof (id_Convert_cube d) as Hc'.
      rewrite dimension_Convert_cube, HD1, Hp1. rewrite HD1, Hp1 in Hc'.
      replace ((Topology.id (Convert_cube d) + 2 * p) / 2) with (2 * p - 1);
        [exact Hc|].
      apply (N.div_unique _ 2 _ 1); lia.
    + injection HT as <-. cbn [Topology.id].
      pose proof (id_Convert_cube d) as Hc'.
      rewrite HD1, Hp1 in Hc'.
      replace (Topology.id (Convert_cube d) / 2) with (p - 1);
        [exact Hpy|].
      apply (N.div_unique _ 2 _ 1); lia.
    + injection HT as <-. cbn [Topology.id].
      rewrite id_Convert_simplex, dimension_Convert_simplex, HD1, Hp1.
      replace ((0 + 2 * p) / 2) with p; [exact Hpr|].
      replace (0 + 2 * p) with (p * 2) by lia. symmetry. apply N.div_mul. lia.
    + discriminate HT.
Qed.

Lemma type_of_Convert_id_witness :
  DuneGeometryTypeProvider.type 6 simplex
    (Topology.id (Topology.Prism (Convert_simplex 5)))
  = Some (mkGeometryType prism 6).
Proof.
  apply (type_of_Convert_id prism simplex 6
           (Topology.Prism (Convert_simplex 5)) eq_refl);
    [lia | intros _; lia].
Defined.
(** ** Topologies the static conversion rejects *)

(** Where a topology without a static basic type sits among the ids of its
    dimension: away from the four named entries. *)
Lemma rejected_half_id (T : Topology.t) (linetype : BasicType) :
  simplex_or_cube linetype = true ->
  DuneGeometryType_basicType T linetype = None ->
  match Topology.dimension T with
  | S (S m) =>
      (2 <= m)%nat
      /\ Topology.id T / 2 <> 0
      /\ Topology.id T / 2 + 1 <> 2 ^ N.of_nat (S m)
      /\ Topology.id T / 2 <> 2 ^ N.of_nat m
      /\ Topology.id T / 2 + 1 <> 2 ^ N.of_nat m
  | _ => False
  end.
Proof.
  intros Hlt. induction T as [|B IH|B IH]; intros Hnone.
  - cbn in Hnone. rewrite Hlt in Hnone. discriminate Hnone.
  - cbn [DuneGeometryType_basicType] in Hnone. rewrite Hlt in Hnone.
    pose proof (id_lt_pow2 B) as Hid.
    cbn [Topology.dimension Topology.id].
    destruct (DuneGeometryType_basicType B linetype) as [base|] eqn:Hbase;
      cbn [mbind option_bind] in Hnone.
    + pose proof (basicType_half_id B linetype base Hbase) as Hchar.
      destruct (simplex_or_cube base) eqn:Hsc; [discriminate Hnone|].
      destruct (Topology.dimension B) as [|[|m]].
      * subst base. congruence.
      * subst base. congruence.
      * replace (N.of_nat (S (S m))) with (N.succ (N.of_nat (S m))) by lia.
        rewrite half_add_pow2.
        replace (N.of_nat (S m)) with (N.succ (N.of_nat m)) in * by lia.
        rewrite !N.pow_succ_r' in *.
        destruct Hchar as [[-> _] | [[-> _] | [(Hm & _ & Hk) | (Hm & _ & Hk)]]];
          try discriminate Hsc.
        -- assert (2 ^ 1 <= 2 ^ N.of_nat m) by (apply N.pow_le_mono_r; lia).
           change (2 ^ 1) with 2 in *. repeat split; lia.
        -- assert (2 ^ 1 <= 2 ^ N.of_nat m) by (apply N.pow_le_mono_r; lia).
           change (2 ^ 1) with 2 in *. repeat split; lia.
    + specialize (IH eq_refl).
      destruct (Topology.dimension B) as [|[|m]]; try contradiction.
      destruct IH as (Hm & H0 & H1 & _).
      replace (N.of_nat (S (S m))) with (N.succ (N.of_nat (S m))) by lia.
      rewrite half_add_pow2.
      assert (Hlt2 : Topology.id B / 2 < 2 ^ N.of_nat (S m)).
      { apply N.Div0.div_lt_upper_bound.
        replace (N.of_nat (S (S m))) with (N.succ (N.of_nat (S m))) in Hid by lia.
        rewrite N.pow_succ_r' in Hid. exact Hid. }
      replace (N.of_nat (S (S m))) with (N.succ (N.of_nat (S m))) by lia.
      rewrite N.pow_succ_r'.
      clear Hid.
      set (q := 2 ^ N.of_nat (S m)) in *. set (k := Topology.id B / 2) in *.
      clearbody q k. repeat split; lia.
  - cbn [DuneGeometryType_basicType] in Hnone. rewrite Hlt in Hnone.
    pose proof (id_lt_pow2 B) as Hid.
    cbn [Topology.dimension Topology.id].
    destruct (DuneGeometryType_basicType B linetype) as [base|] eqn:Hbase;
      cbn [mbind option_bind] in Hnone.
    + pose proof (basicType_half_id B linetype base Hbase) as Hchar.
      destruct (simplex_or_cube base) eqn:Hsc; [discriminate Hnone|].
      destruct (Topology.dimension B) as [|[|m]].
      * subst base. congruence.
      * subst base. congruence.
      * replace (N.of_nat (S (S m))) with (N.succ (N.of_nat (S m))) by lia.
        replace (N.of_nat (S m)) with (N.succ (N.of_nat m)) in * by lia.
        rewrite !N.pow_succ_r' in *.
        destruct Hchar as [[-> _] | [[-> _] | [(Hm & _ & Hk) | (Hm & _ & Hk)]]];
          try discriminate Hsc.
        -- assert (2 ^ 1 <= 2 ^ N.of_nat m) by (apply N.pow_le_mono_r; lia).
           change (2 ^ 1) with 2 in *. repeat split; lia.
        -- assert (2 ^ 1 <= 2 ^ N.of_nat m) by (apply N.pow_le_mono_r; lia).
           change (2 ^ 1) with 2 in *. repeat split; lia.
    + specialize (IH eq_refl).
      destruct (Topology.dimension B) as [|[|m]]; try contradiction.
      destruct IH as (Hm & H0 & H1 & _).
      assert (Hlt2 : Topology.id B / 2 < 2 ^ N.of_nat (S m)).
      { apply N.Div0.div_lt_upper_bound.
        replace (N.of_nat (S (S m))) with (N.succ (N.of_nat (S m))) in Hid by lia.
        rewrite N.pow_succ_r' in Hid. exact Hid. }
      replace (N.of_nat (S (S m))) with (N.succ (N.of_nat (S m))) by lia.
      rewrite N.pow_succ_r'.
      clear Hid.
      set (q := 2 ^ N.of_nat (S m)) in *. set (k := Topology.id B / 2) in *.
      clearbody q k. repeat split; lia.
Qed.

(** An entry of the array away from the four named ones, for a dimension
    above 3. *)
Lemma constructor_above_3_lookup_other (dim : nat) (linetype : BasicType)
    (p k : N) :
  let D := N.of_nat dim in
  3 < D -> D < 32 ->
  2 ^ (D - 2) = p -> 2 ^ (D - 1) = 2 * p -> 2 ^ D = 4 * p ->
  k < 2 * p -> k <> 0 -> k <> 2 * p - 1 -> k <> p -> k <> p - 1 ->
  DuneGeometryTypeProvider.constructor dim linetype !! N.to_nat k
  = Some (mkGeometryType none D).
Proof.
  intros D H3 H32 Hp2 Hp1 Hp0 Hk N0 Nc Np Ny.
  assert (Hp4 : 4 <= p).
  { rewrite <- Hp2. change 4 with (2 ^ 2). apply N.pow_le_mono_r; lia. }
  rewrite (constructor_above_3 dim linetype p) by (fold D; first [lia | assumption]).
  fold D.
  rewrite list_lookup_alter_ne by lia.
  rewrite !list_lookup_insert_ne by lia.
  rewrite list_lookup_alter_ne by lia.
  apply lookup_replicate_2. lia.
Qed.

(** X4.  A topology of dimension below 32 that the static assertions of
    DuneGeometryType reject (a prism or a pyramid over a base that is itself
    a prism or a pyramid, or over a rejected base) is one for which
    DuneGeometryTypeProvider answers the basic type none. *)
Theorem rejected_topologies_are_none (T : Topology.t) (linetype : BasicType) :
  simplex_or_cube linetype = true ->
  (Topology.dimension T < 32)%nat ->
  DuneGeometryType_type T linetype = None ->
  DuneGeometryTypeProvider.type (Topology.dimension T) linetype (Topology.id T)
  = Some (mkGeometryType none (N.of_nat (Topology.dimension T))).
Proof.
  intros Hlt H32 Hnone. unfold DuneGeometryType_type in Hnone.
  destruct (DuneGeometryType_basicType T linetype) as [b|] eqn:Hb;
    cbn [mbind option_bind] in Hnone; [discriminate Hnone|].
  pose proof (rejected_half_id T linetype Hlt Hb) as Hchar.
  pose proof (id_lt_pow2 T) as Hid.
  rewrite type_in_range by assumption.
  destruct (Topology.dimension T) as [|[|m]] eqn:Hdim; try contradiction.
  destruct Hchar as (Hm & H0 & H1 & H2 & H3).
  set (dim := S (S m)) in *. set (D := N.of_nat dim).
  destruct (pow2_split D ltac:(subst D dim; lia)) as (p & Hp & Hp2 & Hp1 & Hp0).
  assert (HD2 : N.of_nat m = D - 2) by (subst D dim; lia).
  assert (HD1 : N.of_nat (S m) = D - 1) by (subst D dim; lia).
  rewrite HD2, HD1, ?Hp2, ?Hp1 in *.
  apply (constructor_above_3_lookup_other dim linetype p);
    try assumption; try (subst D dim; lia).
  fold D in Hid. rewrite Hp0 in Hid.
  apply N.Div0.div_lt_upper_bound. lia.
Qed.

Lemma rejected_topologies_are_none_witness :
  DuneGeometryTypeProvider.type 4 simplex 12
  = Some (mkGeometryType none 4).
Proof.
  apply (rejected_topologies_are_none (Topology.of_id 12 4) simplex);
    [reflexivity | change (4 < 32)%nat; lia | reflexivity].
Defined.
(** ** The tables of MapNumberingProvider *)

Lemma fill_lookup (size : nat) (f : N -> option N)
    (v : MapNumberingProvider.Map) :
  MapNumberingProvider.fill size f = Some v ->
  length v = size
  /\ forall i : N, i < N.of_nat size -> v !! N.to_nat i = f i.
Proof.
  unfold MapNumberingProvider.fill. intros H. apply mapM_Some in H.
  split.
  - apply Forall2_length in H. rewrite length_seq in H. symmetry. exact H.
  - intros i Hi.
    assert (Hs : seq 0 size !! N.to_nat i = Some (N.to_nat i)).
    { apply lookup_seq. lia. }
    destruct (Forall2_lookup_l _ _ _ _ _ H Hs) as (y & Hy & Hf).
    rewrite N2Nat.id in Hf. transitivity (Some y); [exact Hy | symmetry; exact Hf].
Qed.

Lemma guarded_fill (size : nat) (f : N -> option N)
    (v : MapNumberingProvider.Map) (i : N) :
  MapNumberingProvider.fill size f = Some v ->
  (if i <? N.of_nat (length v) then v !! N.to_nat i else None)
  = guarded size f i.
Proof.
  intros H. destruct (fill_lookup size f v H) as [Hlen Hget].
  unfold guarded. rewrite Hlen.
  destruct (N.ltb_spec i (N.of_nat size)) as [Hi | Hi]; [|reflexivity].
  apply Hget. exact Hi.
Qed.

Lemma provider_guard (dim : nat) (topologyId : N) (codim : nat) :
  (dim < 32)%nat ->
  topologyId < 2 ^ N.of_nat dim ->
  (codim <= dim)%nat ->
  (topologyId <? MapNumberingProvider.numTopologies dim)
  && (N.of_nat codim <=? MapNumberingProvider.dimension dim) = true.
Proof.
  intros H32 Ht Hc.
  unfold MapNumberingProvider.numTopologies, MapNumberingProvider.dimension.
  rewrite shl_1_small by lia.
  apply andb_true_intro. split; [apply N.ltb_lt; exact Ht | apply N.leb_le; lia].
Qed.

Lemma check_precomputed_sound (dim : nat) (topologyId : N) (codim : nat)
    (i : N) :
  check_precomputed dim = true ->
  (dim < 32)%nat ->
  topologyId < 2 ^ N.of_nat dim ->
  (codim <= dim)%nat ->
  exists M : MapNumberingT,
    MapNumbering (Topology.of_id topologyId dim) = Some M
    /\ MapNumberingProvider.dune2generic dim topologyId i (N.of_nat codim)
       = guarded (Topology.Size (Topology.of_id topologyId dim) codim)
           (dune2generic M codim) i
    /\ MapNumberingProvider.generic2dune dim topologyId i (N.of_nat codim)
       = guarded (Topology.Size (Topology.of_id topologyId dim) codim)
           (generic2dune M codim) i.
Proof.
  intros Hchk H32 Ht Hc. unfold check_precomputed in Hchk.
  destruct (MapNumberingProvider.instance dim) as [inst|] eqn:Hinst;
    [|discriminate Hchk].
  assert (Htn : (N.to_nat topologyId < 2 ^ dim)%nat).
  { pose proof (Nat2N.inj_pow 2 dim) as Hp. change (N.of_nat 2) with 2 in Hp. lia. }
  pose proof (forallb_seq_lt _ _ _ Hchk Htn) as H1. cbv beta zeta in H1.
  rewrite N2Nat.id in H1.
  destruct (MapNumbering (Topology.of_id topologyId dim)) as [M|];
    [|discriminate H1].
  exists M. split; [reflexivity|].
  assert (Hcn : (codim < S dim)%nat) by lia.
  pose proof (forallb_seq_lt _ _ _ H1 Hcn) as H2. cbv beta in H2.
  apply bool_decide_eq_true in H2. destruct H2 as [Heq [vw Hvw]].
  rewrite Hvw in Heq. unfold provider_vectors in Hvw.
  destruct ((inst.1 !! N.to_nat topologyId) ≫= (.!! codim)) as [v|] eqn:Hv;
    cbn [mbind option_bind] in Hvw; [|discriminate Hvw].
  destruct ((inst.2 !! N.to_nat topologyId) ≫= (.!! codim)) as [w|] eqn:Hw;
    cbn [mbind option_bind] in Hvw; [|discriminate Hvw].
  injection Hvw as <-.
  destruct (MapNumberingProvider.fill _ (dune2generic M codim)) as [v'|] eqn:Fv;
    cbn [mbind option_bind] in Heq; [|discriminate Heq].
  destruct (MapNumberingProvider.fill _ (generic2dune M codim)) as [w'|] eqn:Fw;
    cbn [mbind option_bind] in Heq; [|discriminate Heq].
  injection Heq as -> ->.
  unfold MapNumberingProvider.dune2generic, MapNumberingProvider.generic2dune.
  rewrite Hinst. cbn [mbind option_bind].
  rewrite (provider_guard dim topologyId codim H32 Ht Hc).
  rewrite Nat2N.id.
  unfold MapNumberingProvider.Map, MapNumberingProvider.Tables in *.
  rewrite Hv, Hw. cbn [mbind option_bind fmap option_fmap option_map].
  split.
  - apply guarded_fill. exact Fv.
  - destruct (fill_lookup _ _ _ Fv) as [Hlv _].
    destruct (fill_lookup _ _ _ Fw) as [Hlw _].
    replace (length v') with (length w') by congruence.
    apply guarded_fill. exact Fw.
Qed.

Lemma check_precomputed_upto_3 :
  check_precomputed 0 = true /\ check_precomputed 1 = true
  /\ check_precomputed 2 = true /\ check_precomputed 3 = true.
Proof. repeat split; vm_compute; reflexivity. Qed.

(** X5.  Up to dimension 3 the provider's run-time tables hold exactly the
    compile-time numbering of each topology: for a topology id below
    [2 ^ dim] and a codimension up to [dim], [dune2generic] and
    [generic2dune] return what the [MapNumbering] of that topology returns for
    an index below the size of the codimension, and nothing for an index from
    the size on. *)
Theorem provider_reads_static_numbering (dim : nat) (topologyId : N)
    (codim : nat) (i : N) :
  (dim <= 3)%nat ->
  topologyId < 2 ^ N.of_nat dim ->
  (codim <= dim)%nat ->
  exists M : MapNumberingT,
    MapNumbering (Topology.of_id topologyId dim) = Some M
    /\ MapNumberingProvider.dune2generic dim topologyId i (N.of_nat codim)
       = guarded (Topology.Size (Topology.of_id topologyId dim) codim)
           (dune2generic M codim) i
    /\ MapNumberingProvider.generic2dune dim topologyId i (N.of_nat codim)
       = guarded (Topology.Size (Topology.of_id topologyId dim) codim)
           (generic2dune M codim) i.
Proof.
  intros Hdim Ht Hc.
  destruct check_precomputed_upto_3 as (H0 & H1 & H2 & H3).
  apply check_precomputed_sound; try assumption; try lia.
  destruct dim as [|[|[|[|dim]]]]; try assumption. lia.
Qed.

Lemma provider_reads_static_numbering_witness :
  exists M : MapNumberingT,
    MapNumbering (Topology.of_id 4 3) = Some M
    /\ MapNumberingProvider.dune2generic 3 4 1 (N.of_nat 2)
       = guarded (Topology.Size (Topology.of_id 4 3) 2) (dune2generic M 2) 1
    /\ MapNumberingProvider.generic2dune 3 4 1 (N.of_nat 2)
       = guarded (Topology.Size (Topology.of_id 4 3) 2) (generic2dune M 2) 1.
Proof.
  apply (provider_reads_static_numbering 3 4 2 1); [lia | reflexivity | lia].
Defined.

(** X6.  Up to dimension 3, [dune2generic] and [generic2dune] permute the
    subentities of each codimension: an index below the size is sent to an
    index below the size, and two indices sent to the same index are
    equal. *)
Theorem numbering_maps_are_permutations (dim : nat) (topologyId : N)
    (codim : nat) (i : N) :
  (dim <= 3)%nat ->
  topologyId < 2 ^ N.of_nat dim ->
  (codim <= dim)%nat ->
  i < N.of_nat (Topology.Size (Topology.of_id topologyId dim) codim) ->
  let size := N.of_nat (Topology.Size (Topology.of_id topologyId dim) codim) in
  let d2g := fun i => MapNumberingProvider.dune2generic dim topologyId i
                        (N.of_nat codim) in
  let g2d := fun i => MapNumberingProvider.generic2dune dim topologyId i
                        (N.of_nat codim) in
  (exists j, d2g i = Some j /\ j < size)
  /\ (exists j, g2d i = Some j /\ j < size)
  /\ (forall i', d2g i' = d2g i -> i' = i)
  /\ (forall i', g2d i' = g2d i -> i' = i).
Proof.
  intros Hdim Ht Hc Hi size d2g g2d.
  assert (Hchk : check_provider dim = true).
  { destruct check_provider_upto_3 as (H0 & H1 & H2 & H3).
    destruct dim as [|[|[|[|dim]]]]; try assumption. lia. }
  destruct (check_provider_sound dim topologyId codim i Hchk Ht Hc Hi)
    as [Hgd Hdg].
  unfold generic2dune_of_dune2generic in Hgd.
  unfold dune2generic_of_generic2dune in Hdg.
  fold (d2g i) in Hgd. fold (g2d i) in Hdg.
  destruct (d2g i) as [j|] eqn:Hj; cbn [mbind option_bind] in Hgd;
    [|discriminate Hgd].
  destruct (g2d i) as [k|] eqn:Hk; cbn [mbind option_bind] in Hdg;
    [|discriminate Hdg].
  fold (g2d j) in Hgd. fold (d2g k) in Hdg.
  destruct (check_precomputed_sound dim topologyId codim j) as (M & HM & Hdj & Hgj);
    try assumption; try lia.
  { destruct check_precomputed_upto_3 as (H0 & H1 & H2 & H3).
    destruct dim as [|[|[|[|dim]]]]; try assumption. lia. }
  destruct (check_precomputed_sound dim topologyId codim k) as (M' & HM' & Hdk & Hgk);
    try assumption; try lia.
  { destruct check_precomputed_upto_3 as (H0 & H1 & H2 & H3).
    destruct dim as [|[|[|[|dim]]]]; try assumption. lia. }
  fold (g2d j) in Hgj. fold (d2g k) in Hdk.
  repeat split.
  - exists j. split; [reflexivity|].
    rewrite Hgd in Hgj. unfold guarded in Hgj. fold size in Hgj.
    destruct (N.ltb_spec j size); [assumption | discriminate Hgj].
  - exists k. split; [reflexivity|].
    rewrite Hdg in Hdk. unfold guarded in Hdk. fold size in Hdk.
    destruct (N.ltb_spec k size); [assumption | discriminate Hdk].
  - intros i' Hi'.
    assert (Hi'lt : i' < size).
    { destruct (check_precomputed_sound dim topologyId codim i')
        as (M2 & _ & Hd' & _); try assumption; try lia.
      { destruct check_precomputed_upto_3 as (H0 & H1 & H2 & H3).
        destruct dim as [|[|[|[|dim]]]]; try assumption. lia. }
      fold (d2g i') in Hd'. rewrite Hi' in Hd'. unfold guarded in Hd'.
      fold size in Hd'.
      destruct (N.ltb_spec i' size); [assumption | discriminate Hd']. }
    destruct (check_provider_sound dim topologyId codim i' Hchk Ht Hc Hi'lt)
      as [Hgd' _].
    unfold generic2dune_of_dune2generic in Hgd'. fold (d2g i') in Hgd'.
    rewrite Hi' in Hgd'. cbn [mbind option_bind] in Hgd'.
    fold (g2d j) in Hgd'. congruence.
  - intros i' Hi'.
    assert (Hi'lt : i' < size).
    { destruct (check_precomputed_sound dim topologyId codim i')
        as (M2 & _ & _ & Hg'); try assumption; try lia.
      { destruct check_precomputed_upto_3 as (H0 & H1 & H2 & H3).
        destruct dim as [|[|[|[|dim]]]]; try assumption. lia. }
      fold (g2d i') in Hg'. rewrite Hi' in Hg'. unfold guarded in Hg'.
      fold size in Hg'.
      destruct (N.ltb_spec i' size); [assumption | discriminate Hg']. }
    destruct (check_provider_sound dim topologyId codim i' Hchk Ht Hc Hi'lt)
      as [_ Hdg'].
    unfold dune2generic_of_generic2dune in Hdg'. fold (g2d i') in Hdg'.
    rewrite Hi' in Hdg'. cbn [mbind option_bind] in Hdg'.
    fold (d2g k) in Hdg'. congruence.
Qed.

Lemma numbering_maps_are_permutations_witness :
  (exists j, MapNumberingProvider.dune2generic 3 2 1 (N.of_nat 1) = Some j
             /\ j < N.of_nat (Topology.Size (Topology.of_id 2 3) 1))
  /\ (exists j, MapNumberingProvider.generic2dune 3 2 1 (N.of_nat 1) = Some j
                /\ j < N.of_nat (Topology.Size (Topology.of_id 2 3) 1))
  /\ (forall i', MapNumberingProvider.dune2generic 3 2 i' (N.of_nat 1)
                 = MapNumberingProvider.dune2generic 3 2 1 (N.of_nat 1) ->
                 i' = 1)
  /\ (forall i', MapNumberingProvider.generic2dune 3 2 i' (N.of_nat 1)
                 = MapNumberingProvider.generic2dune 3 2 1 (N.of_nat 1) ->
                 i' = 1).
Proof.
  apply (numbering_maps_are_permutations 3 2 1 1);
    [lia | reflexivity | lia | reflexivity].
Defined.

Lemma check_Convert_map_sound (b : BasicType) (dim : nat) (T : Topology.t)
    (codim : nat) (i : N) :
  check_Convert_map dim = true ->
  Convert b dim = Some T ->
  (codim <= dim)%nat ->
  i < N.of_nat (Topology.Size T codim) ->
  Convert_map b dim codim i
  = MapNumberingProvider.dune2generic dim (Topology.id T) i (N.of_nat codim)
  /\ is_Some (Convert_map b dim codim i).
Proof.
  intros Hchk HT Hc Hi. unfold check_Convert_map in Hchk.
  rewrite forallb_forall in Hchk.
  assert (Hb : In b [simplex; cube; pyramid; prism; none]).
  { destruct b; cbn; tauto. }
  specialize (Hchk b Hb). rewrite HT in Hchk.
  assert (Hcn : (codim < S dim)%nat) by lia.
  pose proof (forallb_seq_lt _ _ _ Hchk Hcn) as H2. cbv beta in H2.
  assert (Hin : (N.to_nat i < Topology.Size T codim)%nat) by lia.
  pose proof (forallb_seq_lt _ _ _ H2 Hin) as H3. cbv beta in H3.
  rewrite N2Nat.id in H3. apply bool_decide_eq_true in H3. exact H3.
Qed.

Lemma check_Convert_map_upto_3 :
  check_Convert_map 0 = true /\ check_Convert_map 1 = true
  /\ check_Convert_map 2 = true /\ check_Convert_map 3 = true.
Proof. repeat split; vm_compute; reflexivity. Qed.

(** X7.  Up to dimension 3, [Convert< type, dim >::map< codim >( i )] is
    defined on every subentity of the converted topology and returns what
    the provider's [dune2generic] returns for that topology's id. *)
Theorem Convert_map_is_provider_dune2generic (b : BasicType) (dim : nat)
    (T : Topology.t) (codim : nat) (i : N) :
  (dim <= 3)%nat ->
  Convert b dim = Some T ->
  (codim <= dim)%nat ->
  i < N.of_nat (Topology.Size T codim) ->
  Convert_map b dim codim i
  = MapNumberingProvider.dune2generic dim (Topology.id T) i (N.of_nat codim)
  /\ is_Some (Convert_map b dim codim i).
Proof.
  intros Hdim HT Hc Hi.
  destruct check_Convert_map_upto_3 as (H0 & H1 & H2 & H3).
  apply (check_Convert_map_sound b dim T); try assumption.
  destruct dim as [|[|[|[|dim]]]]; try assumption. lia.
Qed.

Lemma Convert_map_is_provider_dune2generic_witness :
  Convert_map pyramid 3 2 3
  = MapNumberingProvider.dune2generic 3
      (Topology.id (Topology.Pyramid (Convert_cube 2))) 3 (N.of_nat 2)
  /\ is_Some (Convert_map pyramid 3 2 3).
Proof.
  apply (Convert_map_is_provider_dune2generic pyramid 3
           (Topology.Pyramid (Convert_cube 2)) 2 3);
    [lia | reflexivity | lia | reflexivity].
Defined.

Lemma MapNumbering_simplex_above_3 (dim : nat) :
  (4 <= dim)%nat -> MapNumbering (Convert_simplex dim) = None.
Proof.
  intros H. destruct dim as [|[|[|[|m]]]]; try lia. reflexivity.
Qed.

(** X8.  From dimension 4 on the provider cannot be built: its constructor
    instantiates [MapNumbering] for the topology of id 0, the simplex, which
    has no specialisation, so there is no instance and neither conversion
    returns a value for any argument. *)
Theorem no_numbering_provider_above_3 (dim : nat) (topologyId i codim : N) :
  (4 <= dim)%nat ->
  MapNumberingProvider.instance dim = None
  /\ MapNumberingProvider.dune2generic dim topologyId i codim = None
  /\ MapNumberingProvider.generic2dune dim topologyId i codim = None.
Proof.
  intros Hdim.
  assert (Hinst : MapNumberingProvider.instance dim = None).
  { unfold MapNumberingProvider.instance, MapNumberingProvider.constructor,
      ForLoopM.
    rewrite Nat.sub_0_r. cbn [seq foldl mbind option_bind].
    unfold MapNumberingProvider.Builder_apply at 2.
    change (N.of_nat 0) with 0. rewrite of_id_0.
    rewrite MapNumbering_simplex_above_3 by exact Hdim.
    cbn [mbind option_bind]. apply foldl_bind_None. }
  unfold MapNumberingProvider.dune2generic, MapNumberingProvider.generic2dune.
  rewrite Hinst. repeat split.
Qed.

Lemma no_numbering_provider_above_3_witness :
  MapNumberingProvider.instance 5 = None
  /\ MapNumberingProvider.dune2generic 5 31 0 0 = None
  /\ MapNumberingProvider.generic2dune 5 31 0 0 = None.
Proof.
  apply (no_numbering_provider_above_3 5 31 0 0). lia.
Defined.

Lemma check_same_rows_upto_3 :
  check_same_rows 0 = true /\ check_same_rows 1 = true
  /\ check_same_rows 2 = true /\ check_same_rows 3 = true.
Proof. repeat split; vm_compute; reflexivity. Qed.

(** X9.  Up to dimension 3 the two directions coincide on simplices and
    cubes: for the id of a simplex or of a cube, [generic2dune] returns what
    [dune2generic] returns, for every codimension and index. *)
Theorem simplex_cube_numbering_symmetric (dim : nat) (topologyId i codim : N) :
  (dim <= 3)%nat ->
  topologyId < 2 ^ N.of_nat dim ->
  is_shape simplex dim topologyId || is_shape cube dim topologyId = true ->
  MapNumberingProvider.generic2dune dim topologyId i codim
  = MapNumberingProvider.dune2generic dim topologyId i codim.
Proof.
  intros Hdim Ht Hshape.
  assert (Hchk : check_same_rows dim = true).
  { destruct check_same_rows_upto_3 as (H0 & H1 & H2 & H3).
    destruct dim as [|[|[|[|dim]]]]; try assumption. lia. }
  unfold check_same_rows in Hchk.
  unfold MapNumberingProvider.generic2dune, MapNumberingProvider.dune2generic.
  destruct (MapNumberingProvider.instance dim) as [inst|];
    [|discriminate Hchk].
  cbn [mbind option_bind].
  assert (Htn : (N.to_nat topologyId < 2 ^ dim)%nat).
  { pose proof (Nat2N.inj_pow 2 dim) as Hp. change (N.of_nat 2) with 2 in Hp. lia. }
  pose proof (forallb_seq_lt _ _ _ Hchk Htn) as H1. cbv beta in H1.
  rewrite N2Nat.id, Hshape in H1.
  apply bool_decide_eq_true in H1. destruct H1 as [Hrows _].
  destruct (_ && _); [|reflexivity].
  unfold MapNumberingProvider.Map, MapNumberingProvider.Tables in *.
  rewrite <- Hrows.
  match goal with
  | |- context [?row ≫= lookup (N.to_nat codim)] =>
      destruct row as [r|]; [|reflexivity]
  end.
  cbn [mbind option_bind].
  destruct (r !! N.to_nat codim) as [v|]; reflexivity.
Qed.

Lemma simplex_cube_numbering_symmetric_witness :
  MapNumberingProvider.generic2dune 3 0 1 2
  = MapNumberingProvider.dune2generic 3 0 1 2.
Proof.
  apply (simplex_cube_numbering_symmetric 3 0 1 2);
    [lia | reflexivity | reflexivity].
Defined.
(** ** The subentity tables of the reference element *)

Lemma length_foldl_insert_shift {A : Type} (g : nat -> A) (c : nat)
    (ix : list nat) (l : list A) :
  length (foldl (fun acc k => <[(c + k)%nat := g k]> acc) l ix) = length l.
Proof.
  revert l. induction ix as [|k ix IH]; intros l; simpl; [reflexivity|].
  rewrite IH. apply length_insert.
Qed.

(** A loop that writes element [c + k] in round [k]. *)
Lemma foldl_insert_shift_lookup {A : Type} (g : nat -> A) (c n : nat)
    (l : list A) (j : nat) :
  (j < length l)%nat ->
  foldl (fun acc k => <[(c + k)%nat := g k]> acc) l (seq 0 n) !! j
  = if decide (c <= j < c + n)%nat then Some (g (j - c)%nat) else l !! j.
Proof.
  intros Hj. induction n as [|n IH].
  - simpl. destruct (decide (c <= j < c + 0)%nat); [lia | reflexivity].
  - rewrite seq_S, foldl_app. simpl.
    destruct (decide (c + n = j)%nat) as [E | Hne].
    + rewrite E. rewrite list_lookup_insert_eq
        by (rewrite length_foldl_insert_shift; exact Hj).
      destruct (decide (c <= j < c + S n)%nat); [|lia].
      f_equal. f_equal. lia.
    + rewrite list_lookup_insert_ne by exact Hne. rewrite IH.
      destruct (decide (c <= j < c + n)%nat),
               (decide (c <= j < c + S n)%nat); try reflexivity; lia.
Qed.

Section BaseTables.
Context {GeometryType : Type}.
Variable D : Declarations GeometryType.
Variable dim : nat.
Variable T : Topology.t.

(** The numbering vector [SubCodim< subcodim >::apply] writes. *)
Let numbers (c i subcodim : nat) : list nat :=
  (fun j => GenericSubTopologyNumbering_number D T c subcodim i j)
    <$> seq 0 (SubTopologySize_size D T c subcodim i).

Lemma numbering_after_initialize (c i cc : nat)
    (e : SubEntityInfo GeometryType) :
  length (numbering_ e) = S dim ->
  (c <= dim)%nat ->
  numbering_ (SubEntityInfo_initialize D dim T c i e) !! cc
  = if decide (c <= cc <= dim)%nat then Some (numbers c i (cc - c))
    else numbering_ e !! cc.
Proof.
  intros Hlen Hc. unfold SubEntityInfo_initialize. cbn [numbering_].
  unfold ForLoop, SubCodim_apply. rewrite Nat.sub_0_r.
  destruct (decide (cc < S dim)%nat) as [Hcc | Hcc].
  - rewrite (foldl_insert_shift_lookup (numbers c i)) by lia.
    destruct (decide (c <= cc < c + S (dim - c))%nat),
             (decide (c <= cc <= dim)%nat); try reflexivity; lia.
  - destruct (decide (c <= cc <= dim)%nat); [lia|].
    rewrite !(proj2 (lookup_ge_None _ _)); [reflexivity | lia |].
    rewrite (length_foldl_insert_shift (numbers c i)). lia.
Qed.

Lemma info_after_Base (c i : nat) :
  (c <= dim)%nat ->
  (i < Topology.Size T c)%nat ->
  Base_initializeTopology D dim T (replicate (S dim) []) !! c ≫= (.!! i)
  = Some (SubEntityInfo_initialize D dim T c i (SubEntityInfo_default D dim)).
Proof.
  intros Hc Hi. unfold Base_initializeTopology, ForLoop.
  rewrite Nat.sub_0_r. unfold Initialize_Codim_apply.
  rewrite (foldl_alter_seq_lookup
             (fun codim level =>
                ForLoop (fun i => alter (SubEntityInfo_initialize D dim T codim i) i)
                  0 (Topology.Size T codim - 1)
                  (resize (Topology.Size T codim) (SubEntityInfo_default D dim) level))).
  destruct (decide (c < S dim)%nat); [|lia].
  rewrite lookup_replicate_2 by lia.
  cbn [fmap option_fmap option_map mbind option_bind].
  unfold ForLoop.
  replace (S (Topology.Size T c - 1) - 0)%nat with (Topology.Size T c) by lia.
  rewrite (foldl_alter_seq_lookup
             (fun i => SubEntityInfo_initialize D dim T c i)).
  destruct (decide (i < Topology.Size T c)%nat); [|lia].
  rewrite resize_nil, lookup_replicate_2 by lia. reflexivity.
Qed.

(** X10.  What [initializeTopology] of the base class leaves in a
    default-constructed element, for a subentity [(i, c)] of the topology:
    [size( c )] is the number of subentities of codimension [c];
    [type( i, c )] is the geometry type made of the id and dimension of the
    subtopology; for a codimension [cc] from [c] to [dim], [size( i, c, cc )]
    and [subEntity( i, c, ii, cc )] are the size and the numbers of the
    subtopology at the relative codimension [cc - c]; and for a codimension
    below [c] or above [dim] the assertion of [size] and [subEntity] fails,
    so neither has a value. *)
Theorem Base_tables_hold_the_subtopologies (c i : nat) :
  Topology.dimension T = dim ->
  (c <= dim)%nat ->
  (i < Topology.Size T c)%nat ->
  let re := call_Base_initializeTopology D dim T
              (GenericReferenceElement_default dim) in
  let Sub := SubTopology D T c i in
  size re c = Some (Topology.Size T c)
  /\ type_sub re i c
     = Some (GeometryType_of_id D (Topology.id Sub) (Topology.dimension Sub))
  /\ (forall cc : nat,
        (c <= cc <= dim)%nat ->
        size_sub dim re i c cc
        = Some (SubTopologySize_size D T c (cc - c) i)
        /\ forall ii : nat,
             (ii < SubTopologySize_size D T c (cc - c) i)%nat ->
             subEntity dim re i c ii cc
             = Some (GenericSubTopologyNumbering_number D T c (cc - c) i ii))
  /\ (forall cc ii : nat,
        (cc < c \/ dim < cc)%nat ->
        size_sub dim re i c cc = None /\ subEntity dim re i c ii cc = None).
Proof.
  intros HT Hc Hi re Sub.
  assert (Hinfo : info_ re !! c ≫= (.!! i)
                  = Some (SubEntityInfo_initialize D dim T c i
                            (SubEntityInfo_default D dim))).
  { unfold re, call_Base_initializeTopology. cbn [info_].
    apply info_after_Base; assumption. }
  assert (Hnum : forall cc,
            numbering_ (SubEntityInfo_initialize D dim T c i
                          (SubEntityInfo_default D dim)) !! cc
            = if decide (c <= cc <= dim)%nat then Some (numbers c i (cc - c))
              else replicate (S dim) [] !! cc).
  { intros cc. apply numbering_after_initialize; [|exact Hc].
    cbn [SubEntityInfo_default numbering_]. apply length_replicate. }
  split; [|split; [|split]].
  - unfold size, re, call_Base_initializeTopology. cbn [info_].
    apply length_info_after_Base; [|exact Hc].
    cbn [GenericReferenceElement_default info_]. rewrite length_replicate. lia.
  - unfold type_sub. rewrite Hinfo. reflexivity.
  - intros cc Hcc. split.
    + unfold size_sub. rewrite Hinfo. cbn [mbind option_bind].
      unfold SubEntityInfo_size. cbn [SubEntityInfo_initialize codim_].
      replace ((c <=? cc)%nat && (cc <=? dim)%nat) with true
        by (symmetry; apply andb_true_intro; split; apply Nat.leb_le; lia).
      rewrite Hnum.
      destruct (decide (c <= cc <= dim)%nat); [|lia].
      cbn [fmap option_fmap option_map]. unfold numbers.
      rewrite length_fmap, length_seq. reflexivity.
    + intros ii Hii. unfold subEntity. rewrite Hinfo. cbn [mbind option_bind].
      unfold SubEntityInfo_number. cbn [SubEntityInfo_initialize codim_].
      replace ((c <=? cc)%nat && (cc <=? dim)%nat) with true
        by (symmetry; apply andb_true_intro; split; apply Nat.leb_le; lia).
      rewrite Hnum.
      destruct (decide (c <= cc <= dim)%nat); [|lia].
      cbn [mbind option_bind]. unfold numbers.
      rewrite list_lookup_fmap, lookup_seq_lt by exact Hii. reflexivity.
  - intros cc ii Hcc.
    assert (Hguard : (c <=? cc)%nat && (cc <=? dim)%nat = false).
    { apply andb_false_iff. destruct Hcc as [Hlt | Hgt];
        [left | right]; apply Nat.leb_gt; lia. }
    split.
    + unfold size_sub. rewrite Hinfo. cbn [mbind option_bind].
      unfold SubEntityInfo_size. cbn [SubEntityInfo_initialize codim_].
      rewrite Hguard. reflexivity.
    + unfold subEntity. rewrite Hinfo. cbn [mbind option_bind].
      unfold SubEntityInfo_number. cbn [SubEntityInfo_initialize codim_].
      rewrite Hguard. reflexivity.
Qed.
End BaseTables.

(** Edge 3 of the square: its two corners are the corners 2 and 3. *)
Lemma Base_tables_hold_the_subtopologies_witness :
  size_sub 2 (call_Base_initializeTopology (cube_declarations 2) 2
                (Convert_cube 2) (GenericReferenceElement_default 2)) 3 1 2
  = Some 2%nat
  /\ subEntity 2 (call_Base_initializeTopology (cube_declarations 2) 2
                    (Convert_cube 2) (GenericReferenceElement_default 2))
       3 1 0 2
     = Some 2%nat
  /\ subEntity 2 (call_Base_initializeTopology (cube_declarations 2) 2
                    (Convert_cube 2) (GenericReferenceElement_default 2))
       3 1 1 2
     = Some 3%nat
  /\ size_sub 2 (call_Base_initializeTopology (cube_declarations 2) 2
                   (Convert_cube 2) (GenericReferenceElement_default 2))
       3 1 0
     = None.
Proof.
  pose proof (Base_tables_hold_the_subtopologies (cube_declarations 2) 2
                (Convert_cube 2) 1 3 eq_refl ltac:(lia) ltac:(cbn; lia))
    as (_ & _ & Hsub & Hout).
  destruct (Hsub 2%nat ltac:(lia)) as [Hn Hnum].
  pose proof (Hnum 0%nat ltac:(cbn; lia)) as H0.
  pose proof (Hnum 1%nat ltac:(cbn; lia)) as H1.
  destruct (Hout 0%nat 0%nat ltac:(lia)) as [Hnone _].
  repeat split; assumption.
Defined.
(** ** The mapping table: creation, lookup and release *)

Lemma subentities_upto_S {GeometryType : Type}
    (re : GenericReferenceElement GeometryType) (k : nat) :
  subentities_upto re (S k)
  = (subentities_upto re k + subentities re (S k))%nat.
Proof. reflexivity. Qed.

Lemma subentities_upto_mono {GeometryType : Type}
    (re : GenericReferenceElement GeometryType) (j k : nat) :
  (j <= k)%nat -> (subentities_upto re j <= subentities_upto re k)%nat.
Proof.
  induction 1 as [|k _ IH]; [lia|]. rewrite subentities_upto_S. lia.
Qed.

Section Mappings.
Context {GeometryType : Type}.
Variable D : Declarations GeometryType.
Variable obj : Topology.t -> nat -> nat -> MappingObject.
Hypothesis Hplaces : places D obj.
Variable T : Topology.t.

(** The body of the loop over [i] in [Create< codim >::apply]. *)
Let step (codim : nat) (acc : list (list ptr) * Heap) (i : nat)
    : list (list ptr) * Heap :=
  let storage := next acc.2 in
  let '(p, mem) := HybridMapping_trace D T codim i storage (objects acc.2) in
  (update codim i (fun _ => p) acc.1, mkHeap (S storage) mem).

Lemma step_places (codim : nat) (acc : list (list ptr) * Heap) (i : nat) :
  step codim acc i
  = (update codim i (fun _ => next acc.2) acc.1,
     mkHeap (S (next acc.2))
            (<[next acc.2 := obj T codim i]> (objects acc.2))).
Proof. unfold step. rewrite Hplaces. reflexivity. Qed.

Lemma Create_fold (codim n k : nat) (ms : list (list ptr)) (h : Heap)
    (lvl : list ptr) :
  ms !! codim = Some lvl -> length lvl = n -> (k <= n)%nat ->
  let r := foldl (step codim) (ms, h) (seq 0 k) in
  length r.1 = length ms
  /\ (forall c', c' <> codim -> r.1 !! c' = ms !! c')
  /\ (exists lvl', r.1 !! codim = Some lvl' /\ length lvl' = n
        /\ forall i, (i < k)%nat -> lvl' !! i = Some (next h + i)%nat)
  /\ next r.2 = (next h + k)%nat
  /\ (forall q, (q < next h)%nat -> objects r.2 !! q = objects h !! q)
  /\ (forall i, (i < k)%nat ->
        objects r.2 !! (next h + i)%nat = Some (obj T codim i)).
Proof.
  intros Hlvl Hlen. induction k as [|k IH]; intros Hk r.
  - unfold r. simpl. split; [reflexivity|]. split; [reflexivity|].
    split; [exists lvl; split; [exact Hlvl|]; split; [exact Hlen|]; intros i Hi; lia|].
    split; [lia|]. split; [reflexivity|]. intros i Hi. lia.
  - specialize (IH ltac:(lia)). cbv zeta in IH.
    unfold r. rewrite seq_S, foldl_app. simpl.
    set (rk := foldl (step codim) (ms, h) (seq 0 k)) in *.
    destruct IH as (H1 & H2 & (lvl' & H3 & H3l & H3i) & H4 & H5 & H6).
    rewrite step_places. cbn [fst snd next objects]. unfold update.
    unfold TraceProvider.Storage, ptr in *.
    split; [rewrite length_alter; exact H1|].
    split.
    { intros c' Hc'. rewrite list_lookup_alter_ne by congruence. apply H2.
      exact Hc'. }
    split.
    { exists (alter (fun _ => next rk.2) k lvl').
      split; [rewrite list_lookup_alter_eq, H3; reflexivity|].
      split; [rewrite length_alter; exact H3l|].
      intros i Hi. destruct (decide (i = k)) as [-> | Hne].
      - rewrite list_lookup_alter_eq.
        destruct (lookup_lt_is_Some_2 lvl' k ltac:(lia)) as [x Hx].
        rewrite Hx, H4. reflexivity.
      - rewrite list_lookup_alter_ne by congruence. apply H3i. lia. }
    split; [rewrite H4; lia|].
    split.
    { intros q Hq. rewrite lookup_insert_ne by lia. apply H5. exact Hq. }
    intros i Hi. destruct (decide (i = k)) as [-> | Hne].
    + rewrite H4, lookup_insert_eq. reflexivity.
    + rewrite lookup_insert_ne by lia. apply H6. lia.
Qed.

Lemma Create_apply_spec (re : GenericReferenceElement GeometryType)
    (codim n : nat) (ms : list (list ptr)) (h : Heap) :
  size re codim = Some n -> (codim < length ms)%nat ->
  exists ms' h',
    Create_apply D T re codim (ms, h) = Some (ms', h')
    /\ length ms' = length ms
    /\ (forall c', c' <> codim -> ms' !! c' = ms !! c')
    /\ ms' !! codim = Some (seq (next h) n)
    /\ next h' = (next h + n)%nat
    /\ (forall q, (q < next h)%nat -> objects h' !! q = objects h !! q)
    /\ (forall i, (i < n)%nat ->
          objects h' !! (next h + i)%nat = Some (obj T codim i)).
Proof.
  intros Hsize Hlen. unfold Create_apply. rewrite Hsize.
  unfold TraceProvider.Storage, ptr in *.
  cbn [mbind option_bind fst snd]. fold (step codim).
  destruct (lookup_lt_is_Some_2 ms codim Hlen) as [lvl0 Hlvl0].
  set (ms1 := alter (resize n 0%nat) codim ms).
  assert (Hlvl1 : ms1 !! codim = Some (resize n 0%nat lvl0)).
  { unfold ms1. rewrite list_lookup_alter_eq, Hlvl0. reflexivity. }
  pose proof (Create_fold codim n n ms1 h _ Hlvl1 (length_resize _ _ _)
                (le_n n)) as HF.
  cbv zeta in HF. unfold TraceProvider.Storage, ptr in *.
  destruct (foldl (step codim) (ms1, h) (seq 0 n)) as [ms' h'].
  cbn [fst snd] in HF.
  destruct HF as (H1 & H2 & (lvl' & H3 & H3l & H3i) & H4 & H5 & H6).
  exists ms', h'. split; [reflexivity|].
  split; [rewrite H1; unfold ms1; apply length_alter|].
  split.
  { intros c' Hc'. rewrite H2 by exact Hc'. unfold ms1.
    apply list_lookup_alter_ne. congruence. }
  split.
  { rewrite H3. f_equal. apply list_eq. intros i.
    destruct (decide (i < n)%nat) as [Hi | Hi].
    - rewrite H3i by exact Hi. rewrite lookup_seq_lt by exact Hi. reflexivity.
    - rewrite (proj2 (lookup_ge_None lvl' i)) by lia.
      rewrite (proj2 (lookup_ge_None (seq (next h) n) i))
        by (rewrite length_seq; lia).
      reflexivity. }
  split; [exact H4|]. split; [exact H5 | exact H6].
Qed.

Lemma Create_loop (re : GenericReferenceElement GeometryType)
    (ms0 : list (list ptr)) (h0 : Heap) (k : nat) :
  (forall c, (1 <= c <= k)%nat -> is_Some (size re c)) ->
  (k < length ms0)%nat ->
  exists ms h,
    foldl (fun acc c => acc ≫= Create_apply D T re c) (Some (ms0, h0))
          (seq 1 k)
    = Some (ms, h)
    /\ length ms = length ms0
    /\ (forall c', (c' = 0 \/ k < c')%nat -> ms !! c' = ms0 !! c')
    /\ (forall c, (1 <= c <= k)%nat ->
          ms !! c = Some (seq (next h0 + subentities_upto re (c - 1))
                              (subentities re c)))
    /\ next h = (next h0 + subentities_upto re k)%nat
    /\ (forall q, (q < next h0)%nat -> objects h !! q = objects h0 !! q)
    /\ (forall c i, (1 <= c <= k)%nat -> (i < subentities re c)%nat ->
          objects h !! (next h0 + subentities_upto re (c - 1) + i)%nat
          = Some (obj T c i)).
Proof.
  unfold TraceProvider.Storage, ptr in *.
  induction k as [|k IH]; intros Hsizes Hlen.
  - exists ms0, h0. simpl. split; [reflexivity|]. split; [reflexivity|].
    split; [reflexivity|]. split; [intros c Hc; lia|].
    split; [simpl; lia|].
    split; [reflexivity|]. intros c i Hc. lia.
  - destruct IH as (ms & h & Hrun & H1 & H2 & H3 & H4 & H5 & H6);
      [intros c Hc; apply Hsizes; lia | lia |].
    rewrite seq_S, foldl_app, Hrun. cbn [foldl mbind option_bind].
    replace (1 + k)%nat with (S k) by lia.
    destruct (Hsizes (S k) ltac:(lia)) as [n Hn].
    assert (Hsub : subentities re (S k) = n).
    { unfold subentities. rewrite Hn. reflexivity. }
    assert (Hl : (S k < length ms)%nat) by lia.
    destruct (Create_apply_spec re (S k) n ms h Hn Hl)
      as (ms' & h' & Happ & G1 & G2 & G3 & G4 & G5 & G6).
    unfold TraceProvider.Storage, ptr in *.
    exists ms', h'. split; [exact Happ|].
    split; [congruence|].
    split.
    { intros c' Hc'. rewrite G2 by lia. apply H2. lia. }
    split.
    { intros c Hc. destruct (decide (c = S k)) as [-> | Hne].
      - rewrite G3, H4, Hsub. replace (S k - 1)%nat with k by lia.
        reflexivity.
      - rewrite G2 by exact Hne. apply H3. lia. }
    split; [rewrite G4, H4, subentities_upto_S; lia|].
    split.
    { intros q Hq. rewrite G5 by lia. apply H5. exact Hq. }
    intros c i Hc Hi. destruct (decide (c = S k)) as [-> | Hne].
    + replace (S k - 1)%nat with k by lia. rewrite <- H4.
      apply G6. lia.
    + rewrite G5; [apply H6; [lia | exact Hi]|].
      rewrite H4.
      pose proof (subentities_upto_mono re c k ltac:(lia)) as Hmono.
      pose proof (subentities_upto_S re (c - 1)) as HS.
      replace (S (c - 1)) with c in HS by lia. lia.
Qed.

(** What the mapping set-up leaves behind: the table and the free store. *)
Lemma create_mappings_spec (dim : nat)
    (re : GenericReferenceElement GeometryType) (heap : Heap) :
  length (info_ re) = S dim ->
  length (mappings_ re) = S dim ->
  exists mappings heap',
    create_mappings D dim T re heap = Some (mappings, heap')
    /\ mappings !! 0%nat = Some [next heap]
    /\ (forall c, (1 <= c <= dim)%nat ->
          mappings !! c
          = Some (seq (S (next heap) + subentities_upto re (c - 1))
                      (subentities re c)))
    /\ next heap' = (S (next heap) + subentities_upto re dim)%nat
    /\ (forall q, (q < next heap)%nat ->
          objects heap' !! q = objects heap !! q)
    /\ objects heap' !! next heap
       = Some (TraceProvider.VirtualMapping T ReferenceCorners)
    /\ (forall c i, (1 <= c <= dim)%nat -> (i < subentities re c)%nat ->
          objects heap' !! (S (next heap) + subentities_upto re (c - 1) + i)%nat
          = Some (obj T c i)).
Proof.
  intros Hinfo Hmaps. unfold create_mappings, ForLoopM.
  unfold TraceProvider.Storage, ptr in *.
  replace (S dim - 1)%nat with dim by lia.
  set (p0 := next heap).
  set (h0 := mkHeap (S p0)
               (<[p0 := TraceProvider.VirtualMapping T ReferenceCorners]>
                  (objects heap))).
  set (ms0 := <[0%nat := [p0]]> (mappings_ re)).
  destruct (Create_loop re ms0 h0 dim) as (ms & h & Hrun & H1 & H2 & H3 & H4 & H5 & H6).
  { intros c Hc. unfold size.
    destruct (lookup_lt_is_Some_2 (info_ re) c ltac:(lia)) as [lvl Hl].
    rewrite Hl. eexists. reflexivity. }
  { unfold ms0. rewrite length_insert. unfold ptr in *. lia. }
  unfold TraceProvider.Storage, ptr in *.
  exists ms, h. split; [exact Hrun|].
  split.
  { rewrite H2 by (left; reflexivity). unfold ms0.
    apply list_lookup_insert_eq. lia. }
  split; [exact H3|]. split; [exact H4|].
  split.
  { intros q Hq. rewrite H5 by (cbn; lia). cbn [h0 objects].
    apply lookup_insert_ne. lia. }
  split.
  { rewrite H5 by (cbn; lia). cbn [h0 objects]. apply lookup_insert_eq. }
  exact H6.
Qed.
End Mappings.

Lemma released_level_events (mappings : list (list ptr)) (codim : nat) :
  released (level_events mappings codim) = default [] (mappings !! codim).
Proof.
  unfold level_events, released.
  induction (default [] (mappings !! codim)) as [|p l IH]; [reflexivity|].
  cbn [flat_map app omap list_omap]. f_equal. exact IH.
Qed.

Lemma destroyed_level_events (mappings : list (list ptr)) (codim : nat) :
  destroyed (level_events mappings codim) = default [] (mappings !! codim).
Proof.
  unfold level_events, destroyed.
  induction (default [] (mappings !! codim)) as [|p l IH]; [reflexivity|].
  cbn [flat_map app omap list_omap]. f_equal. exact IH.
Qed.

Lemma released_levels (mappings : list (list ptr)) (cs : list nat) :
  released (flat_map (level_events mappings) cs)
  = flat_map (fun c => default [] (mappings !! c)) cs.
Proof.
  induction cs as [|c cs IH]; [reflexivity|].
  cbn [flat_map]. unfold released in *. rewrite omap_app, IH.
  f_equal. apply released_level_events.
Qed.

Lemma destroyed_levels (mappings : list (list ptr)) (cs : list nat) :
  destroyed (flat_map (level_events mappings) cs)
  = flat_map (fun c => default [] (mappings !! c)) cs.
Proof.
  induction cs as [|c cs IH]; [reflexivity|].
  cbn [flat_map]. unfold destroyed in *. rewrite omap_app, IH.
  f_equal. apply destroyed_level_events.
Qed.

(** Levels of consecutive addresses, one after the other. *)
Lemma consecutive_levels {GeometryType : Type}
    (re : GenericReferenceElement GeometryType) (mappings : list (list ptr))
    (a : ptr) (k : nat) :
  (forall c, (1 <= c <= k)%nat ->
     mappings !! c
     = Some (seq (a + subentities_upto re (c - 1)) (subentities re c))) ->
  flat_map (fun c => default [] (mappings !! c)) (seq 1 k)
  = seq a (subentities_upto re k).
Proof.
  induction k as [|k IH]; intros Hlevels; [reflexivity|].
  rewrite seq_S, flat_map_app, IH by (intros c Hc; apply Hlevels; lia).
  cbn [flat_map]. rewrite app_nil_r. change (1 + k)%nat with (S k).
  unfold ptr in *. rewrite (Hlevels (S k)) by lia. cbn [from_option id].
  replace (S k - 1)%nat with k by lia.
  cbn [subentities_upto]. rewrite seq_app. reflexivity.
Qed.

Section MappingLifecycle.
Context {GeometryType : Type}.
Variable D : Declarations GeometryType.
Variable obj : Topology.t -> nat -> nat -> MappingObject.
Variable T : Topology.t.
Variable dim : nat.

(** X11.  The mapping set-up of [initializeTopology] succeeds on an element
    with [dim+1] levels, takes one address of the free store per mapping and
    leaves the objects at lower addresses alone; afterwards [mapping< 0 >( 0 )]
    is the virtual mapping over the reference corners, and for every
    codimension from 1 to [dim] and every subentity [i] of it,
    [mapping< codim >( i )] is the trace placed for [(codim, i)], the level
    has as many entries as there are subentities, and [global< codim >] with
    the matching run-time codimension returns the image under that trace. *)
Theorem mappings_created_for_every_subentity
    (re : GenericReferenceElement GeometryType) (heap : Heap) :
  places D obj ->
  length (info_ re) = S dim ->
  length (mappings_ re) = S dim ->
  exists mappings heap',
    create_mappings D dim T re heap = Some (mappings, heap')
    /\ next heap' = (S (next heap) + subentities_upto re dim)%nat
    /\ (forall q, (q < next heap)%nat ->
          objects heap' !! q = objects heap !! q)
    /\ mapping (with_mappings re mappings) heap' 0 0
       = Some (TraceProvider.VirtualMapping T ReferenceCorners)
    /\ (forall c, (1 <= c <= dim)%nat ->
          length <$> mappings !! c = size re c)
    /\ (forall c i local,
          (1 <= c <= dim)%nat -> (i < subentities re c)%nat ->
          mapping (with_mappings re mappings) heap' c i = Some (obj T c i)
          /\ global D (with_mappings re mappings) heap' c local i (Z.of_nat c)
             = Returned (HybridMapping_global D (obj T c i) local)).
Proof.
  intros Hplaces Hinfo Hmaps.
  destruct (create_mappings_spec D obj Hplaces T dim re heap Hinfo Hmaps)
    as (mappings & heap' & Hrun & H0 & Hlev & Hnext & Hframe & Hp0 & Hobj).
  exists mappings, heap'. split; [exact Hrun|]. split; [exact Hnext|].
  split; [exact Hframe|].
  unfold TraceProvider.Storage, MappingObject, ptr in *.
  split.
  { unfold mapping, with_mappings. cbn [mappings_].
    unfold TraceProvider.Storage, MappingObject, ptr in *. rewrite H0.
    cbn [mbind option_bind lookup list_lookup]. exact Hp0. }
  split.
  { intros c Hc. rewrite (Hlev c Hc). cbn [fmap option_fmap option_map].
    rewrite length_seq. unfold subentities, size.
    destruct (lookup_lt_is_Some_2 (info_ re) c ltac:(lia)) as [lvl Hl].
    rewrite Hl. reflexivity. }
  intros c i local Hc Hi.
  assert (Hm : mapping (with_mappings re mappings) heap' c i
               = Some (obj T c i)).
  { unfold mapping, with_mappings. cbn [mappings_].
    unfold TraceProvider.Storage, MappingObject, ptr in *.
    rewrite (Hlev c Hc).
    cbn [mbind option_bind]. rewrite lookup_seq_lt by exact Hi.
    cbn [mbind option_bind]. apply Hobj; assumption. }
  split; [exact Hm|].
  unfold global. destruct (decide (Z.of_nat c <> Z.of_nat c)) as [Hne|_];
    [contradiction|].
  unfold TraceProvider.Storage, MappingObject, ptr in *.
  rewrite Hm. reflexivity.
Qed.

(** X12.  Creation and destruction match: the destructor of the element
    that the mapping set-up filled releases every address the set-up took
    from the free store exactly once, the codimension-0 mapping last, and
    calls a destructor directly on exactly the buffers of the codimensions
    from 1 on. *)
Theorem every_buffer_released_once
    (re : GenericReferenceElement GeometryType) (heap : Heap) :
  places D obj ->
  length (info_ re) = S dim ->
  length (mappings_ re) = S dim ->
  exists mappings heap',
    create_mappings D dim T re heap = Some (mappings, heap')
    /\ (next heap < next heap')%nat
    /\ released (destructor dim (with_mappings re mappings))
       = seq (S (next heap)) (next heap' - S (next heap)) ++ [next heap]
    /\ released (destructor dim (with_mappings re mappings))
       ≡ₚ seq (next heap) (next heap' - next heap)
    /\ NoDup (released (destructor dim (with_mappings re mappings)))
    /\ destroyed (destructor dim (with_mappings re mappings))
       = seq (S (next heap)) (next heap' - S (next heap)).
Proof.
  intros Hplaces Hinfo Hmaps.
  destruct (create_mappings_spec D obj Hplaces T dim re heap Hinfo Hmaps)
    as (mappings & heap' & Hrun & H0 & Hlev & Hnext & _).
  exists mappings, heap'. split; [exact Hrun|]. split; [lia|].
  unfold TraceProvider.Storage, MappingObject, ptr in *.
  pose proof (consecutive_levels re mappings (S (next heap)) dim Hlev)
    as Hflat.
  assert (Hrel : released (destructor dim (with_mappings re mappings))
                 = seq (S (next heap)) (next heap' - S (next heap))
                   ++ [next heap]).
  { rewrite destructor_trace. cbn [with_mappings mappings_].
    unfold ptr in *. rewrite H0.
    unfold released. rewrite omap_app. fold (released
      (flat_map (level_events mappings) (seq 1 dim))).
    rewrite released_levels. unfold ptr in *. rewrite Hflat.
    replace (next heap' - S (next heap))%nat with (subentities_upto re dim)
      by lia.
    reflexivity. }
  split; [exact Hrel|].
  assert (Hperm : released (destructor dim (with_mappings re mappings))
                  ≡ₚ seq (next heap) (next heap' - next heap)).
  { rewrite Hrel.
    replace (next heap' - next heap)%nat
      with (S (next heap' - S (next heap))) by lia.
    cbn [seq]. symmetry. apply Permutation_cons_append. }
  split; [exact Hperm|].
  split; [rewrite Hperm; apply NoDup_seq|].
  rewrite destructor_trace. cbn [with_mappings mappings_].
  unfold ptr in *. rewrite H0.
  unfold destroyed. rewrite omap_app. fold (destroyed
    (flat_map (level_events mappings) (seq 1 dim))).
  rewrite destroyed_levels. unfold ptr in *. rewrite Hflat.
  cbn [omap list_omap]. rewrite app_nil_r.
  replace (next heap' - S (next heap))%nat with (subentities_upto re dim)
    by lia.
  reflexivity.
Qed.
End MappingLifecycle.

(** The square on an empty free store: nine addresses, 0 to 8. *)
Lemma mappings_created_for_every_subentity_witness :
  exists mappings heap',
    create_mappings (cube_declarations 2) 2 (Convert_cube 2)
      (call_Base_initializeTopology (cube_declarations 2) 2 (Convert_cube 2)
         (GenericReferenceElement_default 2)) empty_heap
    = Some (mappings, heap')
    /\ next heap' = 9%nat.
Proof.
  destruct (mappings_created_for_every_subentity (cube_declarations 2)
              cube_trace (Convert_cube 2) 2
              (call_Base_initializeTopology (cube_declarations 2) 2
                 (Convert_cube 2) (GenericReferenceElement_default 2))
              empty_heap)
    as (mappings & heap' & Hrun & Hnext & _);
    [intros T codim i storage mem; reflexivity | reflexivity | reflexivity |].
  exists mappings, heap'. split; [exact Hrun | exact Hnext].
Defined.

Lemma every_buffer_released_once_witness :
  exists mappings heap',
    create_mappings (cube_declarations 2) 2 (Convert_cube 2)
      (call_Base_initializeTopology (cube_declarations 2) 2 (Convert_cube 2)
         (GenericReferenceElement_default 2)) empty_heap
    = Some (mappings, heap')
    /\ NoDup (released
                (destructor 2
                   (with_mappings
                      (call_Base_initializeTopology (cube_declarations 2) 2
                         (Convert_cube 2) (GenericReferenceElement_default 2))
                      mappings))).
Proof.
  destruct (every_buffer_released_once (cube_declarations 2)
              cube_trace (Convert_cube 2) 2
              (call_Base_initializeTopology (cube_declarations 2) 2
                 (Convert_cube 2) (GenericReferenceElement_default 2))
              empty_heap)
    as (mappings & heap' & Hrun & _ & _ & _ & Hnodup & _);
    [intros T codim i storage mem; reflexivity | reflexivity | reflexivity |].
  exists mappings, heap'. split; [exact Hrun | exact Hnodup].
Defined.
(** ** The barycenter of a subentity whose corner count is the one in use *)

Section BarycenterMean.
Context {GeometryType : Type}.
Variable dim : nat.
Variable re : GenericReferenceElement GeometryType.
Variable bary : list (list FieldVector).
Variables codim i m : nat.

Hypothesis Hcodim : (codim < dim)%nat.
Hypothesis Hsize : size_sub dim re i codim dim = Some m.
Hypothesis Hentry : is_Some (bary !! codim ≫= (.!! i)).
Hypothesis Hcorners :
  forall j v, (j < m)%nat -> subEntity dim re i codim j dim = Some v ->
    exists corner, bary !! dim ≫= (.!! v) = Some corner
                   /\ length corner = dim.

Lemma subEntity_below_size (j : nat) :
  (j < m)%nat -> is_Some (subEntity dim re i codim j dim).
Proof.
  intros Hj. revert Hsize.
  unfold size_sub, subEntity, SubEntityInfo_size, SubEntityInfo_number.
  destruct (info_ re !! codim ≫= (.!! i)) as [e|]; cbn [mbind option_bind];
    [|intros Hfalse; discriminate Hfalse].
  destruct ((codim_ e <=? dim)%nat && (dim <=? dim)%nat);
    [|intros Hfalse; discriminate Hfalse].
  destruct (numbering_ e !! dim) as [l|];
    cbn [fmap option_fmap option_map mbind option_bind];
    [|intros Hfalse; discriminate Hfalse].
  intros [= <-]. apply lookup_lt_is_Some_2. exact Hj.
Qed.

(** The loop over the corners, after [n] rounds. *)
Lemma corner_loop (n : nat) :
  (n <= m)%nat ->
  exists b,
    foldl (fun acc j =>
             bary ← acc;
             v ← subEntity dim re i codim j dim;
             corner ← bary !! dim ≫= (.!! v);
             Some (update codim i (FieldVector_add corner) bary))
          (Some (update codim i (fun _ => FieldVector_const dim 0%Q) bary))
          (seq 0 n)
    = Some b
    /\ (forall c', c' <> codim -> b !! c' = bary !! c')
    /\ exists x, b !! codim ≫= (.!! i) = Some x /\ length x = dim
         /\ forall k, (k < dim)%nat ->
              x !! k = Some (corner_sum dim re bary i codim n k).
Proof.
  induction n as [|n IH]; intros Hn.
  - eexists. split; [reflexivity|]. unfold update. split.
    + intros c' Hc'. apply list_lookup_alter_ne. congruence.
    + exists (FieldVector_const dim 0%Q).
      rewrite list_lookup_alter_eq.
      pose proof Hentry as [x0 Hx0].
      destruct (bary !! codim) as [level|] eqn:Hlevel;
        cbn [mbind option_bind] in Hx0; [|discriminate Hx0].
      cbn [fmap option_fmap option_map mbind option_bind].
      rewrite list_lookup_alter_eq. unfold FieldVector in *. rewrite Hx0.
      split; [reflexivity|]. unfold FieldVector_const.
      split; [apply length_replicate|].
      intros k Hk. apply lookup_replicate_2. exact Hk.
  - destruct (IH ltac:(lia)) as (b & Hrun & Hother & x & Hx & Hlen & Hsum).
    rewrite seq_S, foldl_app, Hrun. cbn [foldl mbind option_bind].
    rewrite Nat.add_0_l.
    destruct (subEntity_below_size n ltac:(lia)) as [v Hv].
    rewrite Hv. cbn [mbind option_bind].
    destruct (Hcorners n v ltac:(lia) Hv) as (corner & Hcorner & Hclen).
    rewrite (Hother dim) by lia. unfold FieldVector in *.
    rewrite Hcorner. cbn [mbind option_bind].
    eexists. split; [reflexivity|]. unfold update. split.
    + intros c' Hc'. rewrite list_lookup_alter_ne by congruence.
      apply Hother. exact Hc'.
    + exists (FieldVector_add corner x).
      rewrite list_lookup_alter_eq.
      destruct (b !! codim) as [level|] eqn:Hlevel;
        cbn [mbind option_bind] in Hx; [|discriminate Hx].
      cbn [fmap option_fmap option_map mbind option_bind].
      rewrite list_lookup_alter_eq. unfold FieldVector in *. rewrite Hx.
      split; [reflexivity|]. unfold FieldVector_add.
      split; [rewrite length_zip_with; lia|].
      intros k Hk. rewrite lookup_zip_with, (Hsum k Hk).
      cbn [mbind option_bind].
      destruct (lookup_lt_is_Some_2 corner k ltac:(lia)) as [ck Hck].
      rewrite Hck. cbn [mbind option_bind]. f_equal.
      unfold corner_sum. rewrite seq_S, foldl_app. cbn [foldl].
      rewrite Nat.add_0_l. f_equal.
      unfold corner_coordinate. rewrite Hv. cbn [mbind option_bind].
      unfold FieldVector in *. rewrite Hcorner. cbn [mbind option_bind]. rewrite Hck. reflexivity.
Qed.

(** X13.  The body of the barycenter loop is right whenever the corner
    count it uses is the subentity's own: started with a fresh static count,
    or with a static count equal to the number of corners of subentity
    [(i, codim)], it terminates normally, leaves the static at that number
    and the other rows of [baryCenters_] unchanged, and stores for the
    subentity a vector whose every coordinate is the arithmetic mean of that
    coordinate over the corners of the subentity. *)
Theorem barycenter_is_the_mean_for_a_matching_count (static : option nat) :
  static = None \/ static = Some m ->
  exists bary',
    barycenter_body dim re codim i (bary, static) = Some (bary', Some m)
    /\ (forall c', c' <> codim -> bary' !! c' = bary !! c')
    /\ exists x, bary' !! codim ≫= (.!! i) = Some x /\ length x = dim
         /\ forall k, (k < dim)%nat ->
              exists xk, x !! k = Some xk
                /\ (xk == corner_sum dim re bary i codim m k
                          / inject_Z (Z.of_nat m))%Q.
Proof.
  intros Hstatic.
  destruct (corner_loop m (le_n m)) as (b & Hrun & Hother & x & Hx & Hlen & Hsum).
  unfold barycenter_body. cbn [fst snd].
  replace (match static with Some n => Some n | None => size_sub dim re i codim dim end)
    with (Some m) by (destruct Hstatic as [-> | ->]; [symmetry; exact Hsize | reflexivity]).
  cbn [mbind option_bind]. rewrite Hrun. cbn [mbind option_bind].
  eexists. split; [reflexivity|]. unfold update. split.
  - intros c' Hc'. rewrite list_lookup_alter_ne by congruence.
    apply Hother. exact Hc'.
  - exists (FieldVector_scale (1 / inject_Z (Z.of_nat m)) x).
    rewrite list_lookup_alter_eq.
    destruct (b !! codim) as [level|] eqn:Hlevel;
      cbn [mbind option_bind] in Hx; [|discriminate Hx].
    cbn [fmap option_fmap option_map mbind option_bind].
    rewrite list_lookup_alter_eq. unfold FieldVector in *. rewrite Hx.
    split; [reflexivity|]. unfold FieldVector_scale.
    split; [rewrite length_fmap; exact Hlen|].
    intros k Hk. rewrite list_lookup_fmap, (Hsum k Hk).
    cbn [fmap option_fmap option_map]. eexists. split; [reflexivity|].
    unfold Qdiv. ring.
Qed.
End BarycenterMean.

(** Edge 3 of the square, from corner (0,1) to corner (1,1), with the count
    2 of an edge: the barycenter is (1/2, 1). *)
Lemma barycenter_is_the_mean_for_a_matching_count_witness :
  exists bary',
    barycenter_body 2
      (call_Base_initializeTopology (cube_declarations 2) 2 (Convert_cube 2)
         (GenericReferenceElement_default 2)) 1 3
      ([[[1 # 2; 1 # 2]]; [[0; 0]; [0; 0]; [0; 0]; [0; 0]];
        [[0; 0]; [1; 0]; [0; 1]; [1; 1]]]%Q, Some 2%nat)
    = Some (bary', Some 2%nat)
    /\ exists x, bary' !! 1%nat ≫= (.!! 3%nat) = Some x /\ length x = 2%nat.
Proof.
  destruct (barycenter_is_the_mean_for_a_matching_count 2
              (call_Base_initializeTopology (cube_declarations 2) 2
                 (Convert_cube 2) (GenericReferenceElement_default 2))
              ([[[1 # 2; 1 # 2]]; [[0; 0]; [0; 0]; [0; 0]; [0; 0]];
                [[0; 0]; [1; 0]; [0; 1]; [1; 1]]]%Q)
              1 3 2 ltac:(lia) eq_refl (mk_is_Some _ _ eq_refl))
    with (static := Some 2%nat)
    as (bary' & Hrun & _ & x & Hx & Hlen & _).
  - intros j v Hj Hv.
    destruct j as [|[|j]]; [| |lia]; vm_compute in Hv; injection Hv as <-;
      eexists; split; reflexivity.
  - right. reflexivity.
  - exists bary'. split; [exact Hrun|]. exists x. split; assumption.
Defined.
(** ** The table of the trace provider past its end *)

Section TraceProviderBounds.
Variable Topology : Topology.t.
Variable codim : nat.
Variable forceHybrid : bool.
Variable IsCodimHybrid : Topology.t -> nat -> bool.
Variable SubTopology : Topology.t -> nat -> nat -> Topology.t.
Variable numSubTopologies : nat.
Variable Mapping : Type.
Variable SubCoords : Type.
Variable Mapping_trace : Mapping -> nat -> nat -> SubCoords.

Let table :=
  TraceProvider.constructor Topology codim forceHybrid IsCodimHybrid
    SubTopology numSubTopologies Mapping SubCoords Mapping_trace.

Lemma length_trace_table : length table = numSubTopologies.
Proof.
  unfold table, TraceProvider.constructor, ForLoop,
    TraceProvider.Builder_apply.
  rewrite (length_foldl_insert
             (fun i => Some (TraceProvider.Factory_construct Topology codim
                               forceHybrid IsCodimHybrid SubTopology Mapping
                               SubCoords Mapping_trace i))).
  apply length_replicate.
Qed.

(** X14.  [construct] does not check its index: the table has exactly
    [numSubTopologies] entries, and for an index from [numSubTopologies] on
    there is no function pointer to call (the read is past the end of
    [construct_]) and nothing is placed in the storage, although the static
    instance is constructed as on any call. *)
Theorem construct_past_the_table (mapping : Mapping) (i : nat)
    (traceStorage : ptr)
    (s : Static.cell (list (option (TraceProvider.Construct Mapping SubCoords))))
    (mem : TraceProvider.Storage SubCoords) :
  (numSubTopologies <= i)%nat ->
  Static.valid table s ->
  length table = numSubTopologies
  /\ TraceProvider.construct Topology codim forceHybrid IsCodimHybrid
       SubTopology numSubTopologies Mapping SubCoords Mapping_trace
       mapping i traceStorage s mem
     = (None, Static.mkCell (Some table) 1).
Proof.
  intros Hi Hs. split; [exact length_trace_table|].
  unfold TraceProvider.construct, TraceProvider.instance. fold table.
  assert (Hget : Static.get table s = (table, Static.mkCell (Some table) 1)).
  { destruct Hs as [-> | ->]; reflexivity. }
  rewrite Hget. cbv beta iota.
  assert (He : table !! i = None).
  { apply lookup_ge_None_2. rewrite length_trace_table. exact Hi. }
  unfold TraceProvider.Construct in *. rewrite He. reflexivity.
Qed.
End TraceProviderBounds.

(** The square has four edges: there is no edge 4. *)
Lemma construct_past_the_table_witness :
  TraceProvider.construct (Convert_cube 2) 1 false (fun _ _ => false)
    cube_SubTopology 4 unit Coords (fun _ => SubMappingCoords)
    tt 4 7%nat Static.fresh ∅
  = (None,
     Static.mkCell
       (Some (TraceProvider.constructor (Convert_cube 2) 1 false
                (fun _ _ => false) cube_SubTopology 4 unit Coords
                (fun _ => SubMappingCoords)))
       1).
Proof.
  apply (construct_past_the_table (Convert_cube 2) 1 false
           (fun _ _ => false) cube_SubTopology 4 unit Coords
           (fun _ => SubMappingCoords) tt 4 7%nat Static.fresh ∅);
    [lia | left; reflexivity].
Defined.

(** ** Refinement levels and intervals *)

Lemma shl_1_defined (l : Z) :
  (0 <= l <= 30)%Z -> Refinement.shl_1 l = Some (2 ^ l)%Z.
Proof.
  intros Hl. unfold Refinement.shl_1, Refinement.int_max.
  assert (Hpow : (2 ^ l <= 2 ^ 30)%Z) by (apply Z.pow_le_mono_r; lia).
  replace (0 <=? l)%Z with true by (symmetry; apply Z.leb_le; lia).
  replace (l <? 32)%Z with true by (symmetry; apply Z.ltb_lt; lia).
  replace (2 ^ l <=? 2 ^ 31 - 1)%Z with true
    by (symmetry; apply Z.leb_le; change (2 ^ 30)%Z with 1073741824%Z in Hpow;
        change (2 ^ 31)%Z with 2147483648%Z; lia).
  reflexivity.
Qed.

(** X15.  For a level [l] from 0 to 30, [refinementLevels( l )] is the tag
    [refinementIntervals( 2^l )], with at least one interval, and the
    intervals of the sum of two levels are the product of their intervals
    (one more level doubles them). *)
Theorem refinementLevels_are_powers_of_two (a b : Z) :
  (0 <= a)%Z -> (0 <= b)%Z -> (a + b <= 30)%Z ->
  Refinement.refinementLevels a
  = Some (Refinement.refinementIntervals (2 ^ a))
  /\ (1 <= 2 ^ a)%Z
  /\ Refinement.intervals <$> Refinement.refinementLevels (a + b)
     = (tag_a ← Refinement.refinementLevels a;
        tag_b ← Refinement.refinementLevels b;
        Some (Refinement.intervals tag_a * Refinement.intervals tag_b)%Z).
Proof.
  intros Ha Hb Hab. unfold Refinement.refinementLevels.
  rewrite (shl_1_defined a), (shl_1_defined b), (shl_1_defined (a + b))
    by lia.
  split; [reflexivity|].
  split; [apply (Z.pow_le_mono_r 2 0 a); lia|].
  cbn [fmap option_fmap option_map mbind option_bind Refinement.intervals
       Refinement.intervals_].
  rewrite Z.pow_add_r by lia. reflexivity.
Qed.

Lemma refinementLevels_are_powers_of_two_witness :
  Refinement.refinementLevels 3
  = Some (Refinement.refinementIntervals 8)
  /\ Refinement.intervals <$> Refinement.refinementLevels (3 + 2)
     = Some 32%Z.
Proof.
  pose proof (refinementLevels_are_powers_of_two 3 2 ltac:(lia) ltac:(lia)
                ltac:(lia)) as (H1 & _ & H2).
  split; [exact H1 | exact H2].
Defined.

(** X16.  Every deprecated overload of [StaticRefinement] that takes a
    level returns what the overload taking a tag returns for
    [refinementLevels( level )], whatever the implementation. *)
Theorem level_overloads_agree_with_tag_overloads
    (VertexIterator ElementIterator : Type)
    (Imp_nVertices : Z -> Z) (Imp_vBegin Imp_vEnd : Z -> VertexIterator)
    (Imp_nElements : Z -> Z) (Imp_eBegin Imp_eEnd : Z -> ElementIterator)
    (level : Z) :
  Refinement.nVertices_level Imp_nVertices level
  = Refinement.nVertices Imp_nVertices <$> Refinement.refinementLevels level
  /\ Refinement.vBegin_level VertexIterator Imp_vBegin level
     = Refinement.vBegin VertexIterator Imp_vBegin
         <$> Refinement.refinementLevels level
  /\ Refinement.vEnd_level VertexIterator Imp_vEnd level
     = Refinement.vEnd VertexIterator Imp_vEnd
         <$> Refinement.refinementLevels level
  /\ Refinement.nElements_level Imp_nElements level
     = Refinement.nElements Imp_nElements
         <$> Refinement.refinementLevels level
  /\ Refinement.eBegin_level ElementIterator Imp_eBegin level
     = Refinement.eBegin ElementIterator Imp_eBegin
         <$> Refinement.refinementLevels level
  /\ Refinement.eEnd_level ElementIterator Imp_eEnd level
     = Refinement.eEnd ElementIterator Imp_eEnd
         <$> Refinement.refinementLevels level.
Proof.
  unfold Refinement.nVertices_level, Refinement.vBegin_level,
    Refinement.vEnd_level, Refinement.nElements_level,
    Refinement.eBegin_level, Refinement.eEnd_level,
    Refinement.refinementLevels.
  destruct (Refinement.shl_1 level) as [n|]; repeat split.
Qed.
